(** * EquiPy: cards, Texas Hold'em hands and the best-hand resolver

    A shallow embedding of [equipy.py].  Python values are modelled as the
    source has them:

    - a card is a Python [str] of two characters ([string]); [card[0]] is
      its value and [card[1]] its suit, both one-character strings;
    - a Python [set]/[frozenset] of strings is a duplicate-free
      [list string]; the order in which the interpreter enumerates a set is
      not fixed by the language, so every [for x in some_set] of the source
      goes through [iter], an arbitrary permutation (a variable of the
      section below);
    - a [dict] keeps insertion order, so it is an association list updated
      in place;
    - [raise ValueError(msg)] is an [Err] result carrying the message;
    - [np.random.choice] reads a global generator: the detectors that draw
      from it live in a small state monad over the stream of draws. *)

From Stdlib Require Import String Ascii List Bool Arith ZArith Lia Permutation.
From Stdlib Require Import DecimalString.
Import ListNotations.
Open Scope string_scope.
Open Scope list_scope.

Set Implicit Arguments.

(** ** Results of fallible constructors *)

Inductive error : Type :=
| InvalidCardsString   (* ValueError('Invalid Cards String') *)
| InvalidCardsSet      (* ValueError('Invalid Cards Set') *)
| InvalidHand.         (* ValueError('Invalid Hand') *)

Inductive result (A : Type) : Type :=
| OK (a : A)
| Err (e : error).

Arguments OK {A} a.
Arguments Err {A} e.

Definition bindR {A B} (x : result A) (f : A -> result B) : result B :=
  match x with
  | OK a => f a
  | Err e => Err e
  end.

Notation "'let?' x ':=' c1 'in' c2" := (bindR c1 (fun x => c2))
  (at level 10, x name, c1 at level 100, c2 at level 200).

(** ** The generator behind [np.random.choice] *)

Definition rng := list nat.
Definition Rand (A : Type) : Type := rng -> A * rng.

Definition ret {A} (a : A) : Rand A := fun r => (a, r).
Definition bind {A B} (m : Rand A) (f : A -> Rand B) : Rand B :=
  fun r => let (a, r') := m r in f a r'.

Notation "x <- c1 ;; c2" := (bind c1 (fun x => c2))
  (at level 61, c1 at next level, right associativity).

(** One draw below [n]; an exhausted stream keeps answering 0. *)
Definition draw (n : nat) : Rand nat :=
  fun r => match r with
           | [] => (0, [])
           | x :: r' => (x mod n, r')
           end.

Fixpoint mapM {A B} (f : A -> Rand B) (l : list A) : Rand (list B) :=
  match l with
  | [] => ret []
  | x :: xs => y <- f x ;; ys <- mapM f xs ;; ret (y :: ys)
  end.

Fixpoint remove_nth {A} (i : nat) (l : list A) : list A :=
  match i, l with
  | _, [] => []
  | O, _ :: xs => xs
  | S j, x :: xs => x :: remove_nth j xs
  end.

(** [np.random.choice(a, 1)[0]]; the source draws from the sets of the
    value index only, which are never empty. *)
Definition choice1 (a : list string) : Rand string :=
  i <- draw (length a) ;; ret (nth i a EmptyString).

(** [np.random.choice(a, 2, replace=False)]: two draws, the second among
    the entries the first one left. *)
Definition choice2 (a : list string) : Rand (list string) :=
  i <- draw (length a) ;;
  j <- draw (length a - 1) ;;
  ret [nth i a EmptyString; nth j (remove_nth i a) EmptyString].

(** ** Python sets of strings *)

Definition pyset := list string.

Definition mem (x : string) (s : list string) : bool :=
  existsb (String.eqb x) s.

(** [s.add(x)] *)
Definition set_add (x : string) (s : pyset) : pyset :=
  if mem x s then s else s ++ [x].

(** [set(l)], and the result of a set comprehension over the list [l] *)
Definition set_of_list (l : list string) : pyset :=
  fold_left (fun acc x => set_add x acc) l [].

(** [a.union(b)] *)
Definition set_union (a b : pyset) : pyset :=
  fold_left (fun acc x => set_add x acc) b a.

(** [a.intersection(b)] *)
Definition set_inter (a b : pyset) : pyset :=
  filter (fun x => mem x b) a.

(** [a.issubset(b)] *)
Definition issubset (a b : pyset) : bool :=
  forallb (fun x => mem x b) a.

(** [a == b] on sets *)
Definition set_eqb (a b : pyset) : bool :=
  issubset a b && issubset b a.

(** ** Insertion-ordered dictionaries from strings to frozensets *)

Definition dict := list (string * pyset).

Fixpoint dict_get (d : dict) (k : string) : option pyset :=
  match d with
  | [] => None
  | (k', v) :: d' => if String.eqb k k' then Some v else dict_get d' k
  end.

(** [d[k] = v]: an existing key keeps its place *)
Fixpoint dict_set (d : dict) (k : string) (v : pyset) : dict :=
  match d with
  | [] => [(k, v)]
  | (k', v') :: d' =>
      if String.eqb k k' then (k', v) :: d' else (k', v') :: dict_set d' k v
  end.

Definition dict_keys (d : dict) : list string := map fst d.

(** [k in d] *)
Definition dict_mem (d : dict) (k : string) : bool :=
  match dict_get d k with Some _ => true | None => false end.

(** [d.get(k, set())]; also [d[k]] at the places where the source has
    just checked that the key is there. *)
Definition dict_get_default (d : dict) (k : string) : pyset :=
  match dict_get d k with Some v => v | None => [] end.

(** ** Card strings *)

(** [str(n)] *)
Definition str (n : nat) : string := NilZero.string_of_uint (Nat.to_uint n).

(** [card[0]] and [card[1]] *)
Definition value_of (card : string) : string := substring 0 1 card.
Definition suit_of (card : string) : string := substring 1 1 card.

(** [cards_str[2*i:2*i+2]] *)
Definition token (cards_str : string) (i : nat) : string :=
  substring (2 * i) 2 cards_str.

(** [s.lower()] *)
Definition lower_ascii (c : ascii) : ascii :=
  let n := nat_of_ascii c in
  if ((65 <=? n) && (n <=? 90))%nat then ascii_of_nat (n + 32) else c.

Fixpoint lower (s : string) : string :=
  match s with
  | EmptyString => EmptyString
  | String c s' => String (lower_ascii c) (lower s')
  end.

(** [''.join(l)] *)
Definition join (l : list string) : string := String.concat EmptyString l.

(** [[value for value in straight_str]] *)
Fixpoint chars (s : string) : list string :=
  match s with
  | EmptyString => []
  | String c s' => String c EmptyString :: chars s'
  end.

(** [l[i:i+n]] *)
Definition slice {A} (l : list A) (i n : nat) : list A := firstn n (skipn i l).

(** [['A','K','Q','J','T'] + [str(n) for n in range(9, 1, -1)]] *)
Definition all_values : list string :=
  ["A"; "K"; "Q"; "J"; "T"] ++ map str (rev (seq 2 8)).

(** One possible order of enumeration: the order of insertion. *)
Definition insertion_order (l : list string) : list string := l.

(** Another one: the first two elements exchanged. *)
Definition swap_first_two (l : list string) : list string :=
  match l with
  | x :: y :: rest => y :: x :: rest
  | _ => l
  end.

Section Equipy.

(** The order in which the interpreter enumerates a set. *)
Variable iter : list string -> list string.
Hypothesis iter_perm : forall l, Permutation (iter l) l.

(** [{f(x) for x in s}] *)
Definition set_comp (f : string -> string) (s : pyset) : pyset :=
  set_of_list (map f (iter s)).

(** [_gen_deck] *)
Definition _gen_deck : pyset :=
  let values := set_union (set_of_list (map str (seq 2 8)))
                          (set_of_list ["A"; "T"; "J"; "Q"; "K"]) in
  let suits := set_of_list ["s"; "h"; "d"; "c"] in
  set_of_list
    (flat_map (fun value => map (fun suit => join [value; suit]) (iter suits))
              (iter values)).

(** [_str_to_set] *)
Fixpoint str_to_set_loop (deck : pyset) (cards_str : string)
         (range : list nat) (cards_set : pyset) : result pyset :=
  match range with
  | [] => OK cards_set
  | i :: rest =>
      if negb (mem (token cards_str i) deck) then Err InvalidCardsString
      else str_to_set_loop deck cards_str rest
             (set_add (token cards_str i) cards_set)
  end.

Definition _str_to_set (cards_str : string) : result pyset :=
  let deck := _gen_deck in
  if negb (String.length cards_str mod 2 =? 0)%nat then Err InvalidCardsString
  else str_to_set_loop deck cards_str
         (seq 0 (String.length cards_str / 2)) [].

(** [_valid_set] *)
Fixpoint valid_set_loop (deck : pyset) (cards : list string) : result bool :=
  match cards with
  | [] => OK true
  | card :: rest =>
      if negb (mem card deck) then Err InvalidCardsSet
      else valid_set_loop deck rest
  end.

Definition _valid_set (cards_set : pyset) : result bool :=
  valid_set_loop _gen_deck (iter cards_set).

(** [_gen_values] *)
Definition gen_values_step (values : dict) (card : string) : dict :=
  if dict_mem values (value_of card)
  then dict_set values (value_of card)
         (set_union (dict_get_default values (value_of card)) [suit_of card])
  else dict_set values (value_of card) [suit_of card].

Definition _gen_values (cards : pyset) : dict :=
  fold_left gen_values_step (iter cards) [].

(** [_gen_suits] *)
Definition gen_suits_step (suits : dict) (card : string) : dict :=
  if dict_mem suits (suit_of card)
  then dict_set suits (suit_of card)
         (set_union (dict_get_default suits (suit_of card)) [value_of card])
  else dict_set suits (suit_of card) [value_of card].

Definition _gen_suits (cards : pyset) : dict :=
  fold_left gen_suits_step (iter cards) [].

(** *** class Cards *)

(** A constructor argument: a string of card codes or a set of cards. *)
Inductive arg : Type :=
| Str (s : string)
| PySet (s : pyset).

Record Cards : Type := mkCards {
  cards : pyset;
  values : dict;
  suits : dict
}.

(** [if isinstance(x, str): x = _str_to_set(x)] *)
Definition as_set (x : arg) : result pyset :=
  match x with
  | Str s => _str_to_set s
  | PySet s => OK s
  end.

(** [Cards.__init__] *)
Definition Cards_init (x : arg) : result Cards :=
  let? cards := as_set x in
  let? _ := _valid_set cards in
  OK (mkCards cards (_gen_values cards) (_gen_suits cards)).

(** [Cards.__str__] *)
Definition Cards_str (C : Cards) : string :=
  fold_left (fun cards_str card => join [cards_str; card]) (iter (cards C)) EmptyString.

(** *** class Hand *)

Record Hand : Type := mkHand {
  hand_base : Cards;
  hand : pyset;
  pair : bool;
  suited : bool;
  connected : bool
}.

Definition _pair (values : dict) : bool := (length values =? 1)%nat.
Definition _suited (suits : dict) : bool := (length suits =? 1)%nat.

(** [Hand._connected] *)
Definition connected_values : list string :=
  ["A"] ++ map str (seq 2 8) ++ ["T"; "J"; "Q"; "K"; "A"].

Definition connectors : list pyset :=
  map (fun i => set_of_list (slice connected_values i 2)) (seq 0 13).

Definition _connected (cards : pyset) : bool :=
  existsb (set_eqb (set_comp value_of cards)) connectors.

(** [Hand.__init__] *)
Definition Hand_init (x : arg) : result Hand :=
  let? hand := as_set x in
  let? _ := _valid_set hand in
  if negb (length hand =? 2)%nat then Err InvalidHand
  else
    let? C := Cards_init (PySet hand) in
    OK (mkHand C (cards C) (_pair (values C)) (_suited (suits C))
               (_connected (cards C))).

(** ** Kickers *)

(** [_fill_hand]: the inner loop over the suits of one value either
    returns from the function ([inl]) or falls through to the next value
    with the cards and the count it reached ([inr]). *)
Fixpoint fill_suits (value : string) (suits : list string)
         (dead_cards : pyset) (n : Z) : pyset + pyset * Z :=
  match suits with
  | [] => inr (dead_cards, n)
  | suit :: rest =>
      let card := join [value; suit] in
      if negb (mem card dead_cards) then
        let dead_cards := set_add card dead_cards in
        let n := (n - 1)%Z in
        if (n =? 0)%Z then inl dead_cards
        else fill_suits value rest dead_cards n
      else fill_suits value rest dead_cards n
  end.

Fixpoint fill_values (values : dict) (vs : list string)
         (dead_cards : pyset) (n : Z) : pyset :=
  match vs with
  | [] => dead_cards
  | value :: rest =>
      if dict_mem values value then
        match fill_suits value (iter (dict_get_default values value))
                         dead_cards n with
        | inl done => done
        | inr (dead_cards, n) => fill_values values rest dead_cards n
        end
      else fill_values values rest dead_cards n
  end.

Definition _fill_hand (values : dict) (dead_cards : pyset) (n : Z) : pyset :=
  fill_values values all_values dead_cards n.

(** ** The aggregate the detectors read *)

Record HBoard_view : Type := mkView {
  v_hand : Hand;
  v_cards : pyset;          (* HB.cards: hand and board together *)
  v_values : dict;          (* HB.values *)
  v_suits : dict;           (* HB.suits *)
  v_flop : arg;
  v_turn : arg;
  v_river : arg;
  v_board : pyset;
  v_pstraight : list string;
  v_pflush : option string  (* [None] is the source's [False] *)
}.

(** What a detector returns: [False] or a set of cards. *)
Inductive detected : Type :=
| PFalse
| Made (cards : pyset).

(** Python truth of a detector's result: [False] and the empty set are
    false. *)
Definition truthy (d : detected) : bool :=
  match d with
  | PFalse => false
  | Made [] => false
  | Made (_ :: _) => true
  end.

Definition truthy_str (s : option string) : bool :=
  match s with
  | None => false
  | Some EmptyString => false
  | Some (String _ _) => true
  end.

Definition truthy_list {A} (l : list A) : bool :=
  match l with [] => false | _ :: _ => true end.

(** [for x in xs: if test(x): return found(x)] then [return False] *)
Fixpoint first_match {A} (test : A -> bool) (found : A -> detected)
         (xs : list A) : detected :=
  match xs with
  | [] => PFalse
  | x :: rest => if test x then found x else first_match test found rest
  end.

(** [_straight_flush] *)
Definition _straight_flush (HB : HBoard_view) : detected :=
  if truthy_str (v_pflush HB) && truthy_list (v_pstraight HB) then
    let psuit :=
      lower (substring 0 1 (match v_pflush HB with
                            | Some s => s
                            | None => EmptyString
                            end)) in
    let pvalues := all_values ++ ["A"] in
    let pcards := map (fun value => join [value; psuit]) pvalues in
    let pstraights := map (fun i => slice pcards i 5) (seq 0 10) in
    first_match (fun straight => issubset (set_of_list straight) (v_cards HB))
                (fun straight => Made (set_of_list straight))
                pstraights
  else PFalse.

(** [_quads] *)
Definition _quads (HB : HBoard_view) : detected :=
  let all_suits := set_of_list ["s"; "h"; "d"; "c"] in
  first_match
    (fun value => (length (dict_get_default (v_values HB) value) =? 4)%nat)
    (fun value =>
       let made_quads := set_comp (fun suit => join [value; suit]) all_suits in
       Made (_fill_hand (v_values HB) made_quads 1))
    (dict_keys (v_values HB)).

(** [_full_house]: the pair's two suits are drawn at random. *)
Fixpoint full_house_inner (HB : HBoard_view) (v1 : string)
         (vs : list string) : option (Rand detected) :=
  match vs with
  | [] => None
  | v2 :: rest =>
      if (2 <=? length (dict_get_default (v_values HB) v2))%nat
         && negb (String.eqb v2 v1) then
        Some (let trips := set_comp (fun suit => join [v1; suit])
                                    (dict_get_default (v_values HB) v1) in
              chosen <- choice2 (iter (dict_get_default (v_values HB) v2)) ;;
              let pair := set_of_list
                            (map (fun suit => join [v2; suit]) chosen) in
              ret (Made (set_union trips pair)))
      else full_house_inner HB v1 rest
  end.

Fixpoint full_house_outer (HB : HBoard_view) (vs : list string)
  : Rand detected :=
  match vs with
  | [] => ret PFalse
  | v1 :: rest =>
      if (length (dict_get_default (v_values HB) v1) =? 3)%nat then
        match full_house_inner HB v1 all_values with
        | Some made => made
        | None => full_house_outer HB rest
        end
      else full_house_outer HB rest
  end.

Definition _full_house (HB : HBoard_view) : Rand detected :=
  full_house_outer HB all_values.

(** [_flush] *)
Fixpoint flush_loop (suit : string) (in_suit : pyset) (vs : list string)
         (best_flush : pyset) : pyset :=
  match vs with
  | [] => best_flush
  | value :: rest =>
      let best_flush :=
        if mem value in_suit then set_add (join [value; suit]) best_flush
        else best_flush in
      if (length best_flush =? 5)%nat then best_flush
      else flush_loop suit in_suit rest best_flush
  end.

Definition _flush (HB : HBoard_view) : detected :=
  first_match
    (fun suit => (5 <=? length (dict_get_default (v_suits HB) suit))%nat)
    (fun suit =>
       Made (flush_loop suit (dict_get_default (v_suits HB) suit)
                        all_values []))
    (dict_keys (v_suits HB)).

(** [_straight]: one suit is drawn at random for each of the five
    values. *)
Fixpoint straight_loop (HB : HBoard_view) (pstraight : list string)
  : Rand detected :=
  match pstraight with
  | [] => ret PFalse
  | straight_str :: rest =>
      let straight_list := chars straight_str in
      if issubset (set_of_list straight_list)
                  (set_of_list (dict_keys (v_values HB))) then
        picked <- mapM (fun value =>
                          suit <- choice1
                                    (iter (dict_get_default (v_values HB) value)) ;;
                          ret (join [value; suit]))
                       straight_list ;;
        ret (Made (set_of_list picked))
      else straight_loop HB rest
  end.

Definition _straight (HB : HBoard_view) : Rand detected :=
  straight_loop HB (v_pstraight HB).

(** [_trips] *)
Definition _trips (HB : HBoard_view) : detected :=
  first_match
    (fun value => (length (dict_get_default (v_values HB) value) =? 3)%nat)
    (fun value =>
       let trips := set_comp (fun suit => join [value; suit])
                             (dict_get_default (v_values HB) value) in
       Made (_fill_hand (v_values HB) trips 2))
    all_values.

(** [_two_pair] *)
Fixpoint two_pair_inner (HB : HBoard_view) (v1 : string) (vs : list string)
  : option detected :=
  match vs with
  | [] => None
  | v2 :: rest =>
      if (length (dict_get_default (v_values HB) v2) =? 2)%nat
         && negb (String.eqb v2 v1) then
        let two_pair :=
          fold_left (fun acc suit => set_add (join [v2; suit]) acc)
                    (iter (dict_get_default (v_values HB) v2))
            (fold_left (fun acc suit => set_add (join [v1; suit]) acc)
                       (iter (dict_get_default (v_values HB) v1)) []) in
        Some (Made (_fill_hand (v_values HB) two_pair 1))
      else two_pair_inner HB v1 rest
  end.

Fixpoint two_pair_outer (HB : HBoard_view) (vs : list string) : detected :=
  match vs with
  | [] => PFalse
  | v1 :: rest =>
      if (length (dict_get_default (v_values HB) v1) =? 2)%nat then
        match two_pair_inner HB v1 all_values with
        | Some made => made
        | None => two_pair_outer HB rest
        end
      else two_pair_outer HB rest
  end.

Definition _two_pair (HB : HBoard_view) : detected :=
  two_pair_outer HB all_values.

(** [_one_pair] *)
Definition _one_pair (HB : HBoard_view) : detected :=
  first_match
    (fun value => (length (dict_get_default (v_values HB) value) =? 2)%nat)
    (fun value =>
       let pair := set_comp (fun suit => join [value; suit])
                            (dict_get_default (v_values HB) value) in
       Made (_fill_hand (v_values HB) pair 3))
    all_values.

(** ** The resolver *)

(** The [phands] dictionary, in insertion order. *)
Definition phands : list ((HBoard_view -> Rand detected) * string) :=
  [ (fun HB => ret (_straight_flush HB), "Straight Flush");
    (fun HB => ret (_quads HB), "Four of a Kind");
    (_full_house, "Full House");
    (fun HB => ret (_flush HB), "Flush");
    (_straight, "Straight");
    (fun HB => ret (_trips HB), "Three of a Kind");
    (fun HB => ret (_two_pair HB), "Two Pair");
    (fun HB => ret (_one_pair HB), "Pair") ].

(** [_best_hand]: [if func(HB): return func(HB), phands[func]] calls the
    detector twice; the second call's result is the one returned. *)
Fixpoint best_hand_loop (HB : HBoard_view)
         (funcs : list ((HBoard_view -> Rand detected) * string))
  : Rand (detected * string) :=
  match funcs with
  | [] => ret (Made (_fill_hand (v_values HB) [] 5), "none")
  | (func, name) :: rest =>
      probe <- func HB ;;
      if truthy probe then
        made <- func HB ;;
        ret (made, name)
      else best_hand_loop HB rest
  end.

Definition _best_hand (HB : HBoard_view) : Rand (detected * string) :=
  best_hand_loop HB phands.

(** ** class HBoard *)

(** [HBoard._pstraight] *)
Definition _pstraight (board : pyset) : list string :=
  let all_values := all_values ++ ["A"] in
  let all_straights := map (fun i => slice all_values i 5) (seq 0 10) in
  let values := _gen_values board in
  let values_set := set_of_list (dict_keys values) in
  let possible_straights :=
    filter (fun straight =>
              (3 <=? length (set_inter values_set (set_of_list straight)))%nat)
           all_straights in
  map join possible_straights.

(** [HBoard._pflush] *)
Definition suit_names : list (string * string) :=
  [("s", "Spades"); ("h", "Hearts"); ("d", "Diamonds"); ("c", "Clubs")].

(** [suit_names[suit]]; the board has passed [_valid_set] when the source
    gets here, so the suit is one of the four keys. *)
Fixpoint suit_name (names : list (string * string)) (suit : string) : string :=
  match names with
  | [] => EmptyString
  | (k, name) :: rest => if String.eqb suit k then name else suit_name rest suit
  end.

Fixpoint pflush_loop (suits : dict) (keys : list string) : option string :=
  match keys with
  | [] => None
  | suit :: rest =>
      if (3 <=? length (dict_get_default suits suit))%nat
      then Some (suit_name suit_names suit)
      else pflush_loop suits rest
  end.

Definition _pflush (board : pyset) : option string :=
  let suits := _gen_suits board in
  pflush_loop suits (dict_keys suits).

Record HBoard : Type := mkHBoard {
  view : HBoard_view;
  best_hand : detected;
  best_hand_type : string
}.

(** Python truth of a constructor argument: the empty string and the
    empty set are false. *)
Definition truthy_arg (x : arg) : bool :=
  match x with
  | Str EmptyString => false
  | Str (String _ _) => true
  | PySet [] => false
  | PySet (_ :: _) => true
  end.

(** [HBoard.__init__] up to the call of [_best_hand] *)
Definition HBoard_view_init (hand flop turn river : arg)
  : result HBoard_view :=
  let? hand := as_set hand in
  let? flop := as_set flop in
  let? _ := _valid_set (set_union hand flop) in
  let? H := Hand_init (PySet hand) in
  let all_cards := set_union hand flop in
  let board := flop in
  let? stage :=
    (if truthy_arg turn then
       let? turn := as_set turn in
       let? _ := _valid_set turn in
       let all_cards := set_union all_cards turn in
       let board := set_union board turn in
       if truthy_arg river then
         let? river := as_set river in
         let? _ := _valid_set river in
         OK (set_union all_cards river, set_union board river,
             PySet turn, PySet river)
       else OK (all_cards, board, PySet turn, river)
     else OK (all_cards, board, turn, river)) in
  let '(all_cards, board, turn, river) := stage in
  let? C := Cards_init (PySet all_cards) in
  OK (mkView H (cards C) (values C) (suits C)
             (PySet flop) turn river board
             (_pstraight board) (_pflush board)).

(** [HBoard.__init__] *)
Definition HBoard_init (hand flop turn river : arg) : Rand (result HBoard) :=
  match HBoard_view_init hand flop turn river with
  | Err e => ret (Err e)
  | OK HB =>
      bh <- _best_hand HB ;;
      ret (OK (mkHBoard HB (fst bh) (snd bh)))
  end.

(** ** Display *)

(** [str(b)] on a boolean *)
Definition str_bool (b : bool) : string := if b then "True" else "False".

Definition newline : string := String (ascii_of_nat 10) EmptyString.

(** [Hand.__str__] *)
Definition Hand_str (H : Hand) : string :=
  join ["Hand: "; Cards_str (hand_base H);
        newline; "Pair: "; str_bool (pair H);
        newline; "Suited: "; str_bool (suited H);
        newline; "Connected: "; str_bool (connected H)].

(** [_formatter]: the second argument is enumerated, a set card by card
    and a string character by character. *)
Definition _formatter (prefix : string) (cards : arg) : string :=
  fold_left (fun string card => join [string; card])
            (match cards with
             | Str s => chars s
             | PySet s => iter s
             end)
            prefix.

(** [HBoard.__str__]; enumerating a best hand that is [False] is a
    [TypeError], here [None]. *)
Definition HBoard_str (hb : HBoard) : option string :=
  let HB := view hb in
  let hand := _formatter "Hand: " (PySet (hand (v_hand HB))) in
  let flop := _formatter "Flop: " (v_flop HB) in
  let turn := _formatter "Turn: " (v_turn HB) in
  let river := _formatter "River: " (v_river HB) in
  let pstraights := "Potential Straights: " in
  let pstraights :=
    if truthy_list (v_pstraight HB) then
      fold_left (fun acc straight => join [acc; straight; " "])
                (v_pstraight HB) pstraights
    else join [pstraights; "none"] in
  let pflush := "Potential Flush Suit: " in
  let pflush :=
    match v_pflush HB with
    | Some (String c name) => join [pflush; String c name]
    | _ => join [pflush; "none"]
    end in
  match best_hand hb with
  | PFalse => None
  | Made bh =>
      let best_hand :=
        fold_left (fun acc card => join [acc; card]) (iter bh) "Best Hand: " in
      let best_hand := join [best_hand; " ("; best_hand_type hb; ")"] in
      Some (join [hand;
                  newline; "Pair: "; str_bool (pair (v_hand HB));
                  newline; "Suited: "; str_bool (suited (v_hand HB));
                  newline; "Connected: "; str_bool (connected (v_hand HB));
                  newline; flop;
                  newline; turn;
                  newline; river;
                  newline; pstraights;
                  newline; pflush;
                  newline; best_hand])
  end.

(** * Notions used to state the properties *)

Definition four_suits : list string := ["s"; "h"; "d"; "c"].

(** The 52 cards, value by value. *)
Definition deck52 : list string :=
  flat_map (fun value => map (fun suit => (value ++ suit)%string) four_suits)
           all_values.

(** What a card of the deck looks like. *)
Definition card_ok (c : string) : bool :=
  String.eqb (value_of c ++ suit_of c)%string c
  && mem (value_of c) all_values
  && mem (suit_of c) four_suits
  && (String.length c =? 2)%nat.

(** The 2-character tokens of a card-code string, left to right. *)
Definition tokens (cards_str : string) : list string :=
  map (token cards_str) (seq 0 (String.length cards_str / 2)).

(** A set handed to a constructor is a Python set: it has no duplicate. *)
Definition wf_arg (x : arg) : Prop :=
  match x with
  | Str _ => True
  | PySet s => NoDup s
  end.

(** The 14-symbol rank sequence, ace at both ends. *)
Definition rank_sequence : list string :=
  ["A"; "2"; "3"; "4"; "5"; "6"; "7"; "8"; "9"; "T"; "J"; "Q"; "K"; "A"].

(** Its ten 5-value windows, strongest first, highest value first. *)
Definition ten_windows : list string :=
  ["AKQJT"; "KQJT9"; "QJT98"; "JT987"; "T9876";
   "98765"; "87654"; "76543"; "65432"; "5432A"].

(** The value [v] occurs on some card of [board]. *)
Definition present (board : pyset) (v : string) : bool :=
  existsb (fun card => String.eqb (value_of card) v) board.

(** How many of a window's values occur among the board's. *)
Definition window_hits (board : pyset) (window : string) : nat :=
  length (filter (present board) (chars window)).

(** One step of [_gen_values] and of [_gen_suits], with the two roles of
    a card's characters as parameters. *)
Definition index_step (key item : string -> string) (d : dict)
           (card : string) : dict :=
  if dict_mem d (key card)
  then dict_set d (key card) (set_union (dict_get_default d (key card)) [item card])
  else dict_set d (key card) [item card].

(** What an index built from the cards [l] holds. *)
Record index_spec (key item : string -> string) (l : list string)
       (d : dict) : Prop := mkIndexSpec {
  ix_keys_nodup : NoDup (dict_keys d);
  ix_mem : forall k, dict_mem d k = true <-> exists c, In c l /\ key c = k;
  ix_in : forall k x, In x (dict_get_default d k)
                      <-> exists c, In c l /\ key c = k /\ item c = x;
  ix_nodup : forall k, NoDup (dict_get_default d k)
}.

(** What [HBoard.__init__] has established when it calls [_best_hand]. *)
Record wf_view (HB : HBoard_view) : Prop := mkWf {
  wf_nodup : NoDup (v_cards HB);
  wf_deck : forall c, In c (v_cards HB) -> In c deck52;
  wf_values : index_spec value_of suit_of (v_cards HB) (v_values HB);
  wf_suits : index_spec suit_of value_of (v_cards HB) (v_suits HB);
  wf_pstraight : forall w, In w (v_pstraight HB) -> In w ten_windows
}.

(** The card set [bh] is drawn from the aggregate's cards, holds at most
    five of them, and fewer only when the aggregate has fewer. *)
Definition good (HB : HBoard_view) (bh : pyset) : Prop :=
  NoDup bh /\ incl bh (v_cards HB) /\ length bh <= 5
  /\ (length bh < 5 -> length (v_cards HB) < 5).

Definition good_result (HB : HBoard_view) (d : detected) : Prop :=
  match d with
  | PFalse => True
  | Made bh => good HB bh /\ bh <> []
  end.

(** The ten windows as lists of values. *)
Definition window_values : list (list string) := map chars ten_windows.

(** Whether a detector matches does not depend on the draws, and what it
    returns when it matches is a good card set whatever they are. *)
Definition settled (HB : HBoard_view) (m : Rand detected) : Prop :=
  (forall r, fst (m r) = PFalse)
  \/ (forall r, exists bh, fst (m r) = Made bh /\ good HB bh /\ bh <> []).

(** A detector that draws nothing, seen as one that may. *)
Definition pure (d : HBoard_view -> detected) : HBoard_view -> Rand detected :=
  fun HB => ret (d HB).

(** The detector [f] does not match on [HB], whatever the draws. *)
Definition miss (f : HBoard_view -> Rand detected) (HB : HBoard_view) : Prop :=
  forall r, truthy (fst (f HB r)) = false.

(** The detector [f] matches on [HB] whatever the draws, and [out] is one
    of its results together with its label. *)
Definition hit (f : HBoard_view -> Rand detected) (name : string)
           (HB : HBoard_view) (out : detected * string) : Prop :=
  (forall r, truthy (fst (f HB r)) = true)
  /\ exists r, out = (fst (f HB r), name).

(** The best hand and the category of a constructed aggregate. *)
Definition best_of (x : result HBoard) : detected :=
  match x with
  | OK hb => best_hand hb
  | Err _ => PFalse
  end.

Definition type_of (x : result HBoard) : string :=
  match x with
  | OK hb => best_hand_type hb
  | Err _ => EmptyString
  end.

(** A detector of [phands] either carries one of the two labels whose
    detectors draw, or returns the same thing whatever the draws. *)
Definition draws_only_in_two (HB : HBoard_view)
           (fn : (HBoard_view -> Rand detected) * string) : Prop :=
  snd fn = "Full House" \/ snd fn = "Straight"
  \/ forall r r', fst (fst fn HB r) = fst (fst fn HB r').

(** The two indices when sets are enumerated in insertion order. *)
Definition canon_values (l : pyset) : dict := fold_left gen_values_step l [].
Definition canon_suits (l : pyset) : dict := fold_left gen_suits_step l [].

(** All the cards of [l] are cards of the deck. *)
Definition all_in_deck (l : list string) : bool :=
  forallb (fun c => mem c deck52) l.

(** The concatenation of a list of strings. *)
Definition flat (l : list string) : string := fold_right append EmptyString l.

(** The place of [x] in [l], counted from 0; the length of [l] when [x] is
    not there. *)
Fixpoint index_of (x : string) (l : list string) : nat :=
  match l with
  | [] => 0
  | y :: l' => if String.eqb x y then 0 else S (index_of x l')
  end.

(** The rank of a value: 0 for the ace, 12 for the deuce. *)
Definition rank (v : string) : nat := index_of v all_values.

(** The number of entries of an index, all keys together. *)
Definition dict_total (d : dict) : nat :=
  list_sum (map (fun kv => length (snd kv)) d).

(** The number of line feeds of a string. *)
Fixpoint count_newlines (s : string) : nat :=
  match s with
  | EmptyString => 0
  | String c s' =>
      (if Ascii.eqb c (ascii_of_nat 10) then 1 else 0) + count_newlines s'
  end.

(** The cards of [l] that have the value [v]; those that have the suit
    [s]. *)
Definition cards_of_value (v : string) (l : list string) : list string :=
  filter (fun c => String.eqb (value_of c) v) l.

Definition cards_of_suit (s : string) (l : list string) : list string :=
  filter (fun c => String.eqb (suit_of c) s) l.

(** The test of [_straight] on a potential straight: its five values are
    keys of the index of values. *)
Definition straight_test (HB : HBoard_view) (w : string) : bool :=
  issubset (set_of_list (chars w)) (set_of_list (dict_keys (v_values HB))).

(** A constructor argument that is accepted as a set of cards of the
    deck. *)
Definition accepted_set (x : arg) : Prop :=
  exists s, as_set x = OK s /\ forall c, In c s -> In c _gen_deck.

(** Two results of a detector hold the same cards: Python compares the
    sets, not the order in which they are enumerated. *)
Definition same_cards (d1 d2 : detected) : Prop :=
  match d1, d2 with
  | PFalse, PFalse => True
  | Made a, Made b => forall c, In c a <-> In c b
  | _, _ => False
  end.

(** * Properties *)

(** ** Sets as duplicate-free lists *)

Lemma mem_In (x : string) (s : list string) : mem x s = true <-> In x s.
Proof.
  unfold mem. rewrite existsb_exists. split.
  - intros [y [Hy He]]. apply String.eqb_eq in He. now subst.
  - intros H. exists x. split; [assumption | apply String.eqb_refl].
Qed.

Lemma mem_false (x : string) (s : list string) : mem x s = false <-> ~ In x s.
Proof.
  rewrite <- mem_In. destruct (mem x s); split; congruence.
Qed.

Lemma mem_ext (x : string) (a b : list string) :
  (In x a <-> In x b) -> mem x a = mem x b.
Proof.
  intros H. destruct (mem x a) eqn:Ea, (mem x b) eqn:Eb; try reflexivity.
  - apply mem_In in Ea. apply mem_false in Eb. tauto.
  - apply mem_In in Eb. apply mem_false in Ea. tauto.
Qed.

Lemma set_add_In (x y : string) (s : pyset) :
  In y (set_add x s) <-> In y s \/ y = x.
Proof.
  unfold set_add. destruct (mem x s) eqn:E.
  - apply mem_In in E. split; [tauto | intros [H | ->]; assumption].
  - rewrite in_app_iff. simpl. intuition congruence.
Qed.

Lemma set_add_NoDup (x : string) (s : pyset) : NoDup s -> NoDup (set_add x s).
Proof.
  intros H. unfold set_add. destruct (mem x s) eqn:E; [assumption |].
  apply mem_false in E. apply NoDup_app; auto.
  - repeat constructor. intros [].
  - intros y Hy [<- | []]. contradiction.
Qed.

Lemma set_add_new (x : string) (s : pyset) : ~ In x s -> set_add x s = s ++ [x].
Proof.
  intros H. unfold set_add. apply mem_false in H. now rewrite H.
Qed.

Lemma fold_add_In (f : string -> string) (l : list string) (acc : pyset) (y : string) :
  In y (fold_left (fun a x => set_add (f x) a) l acc)
  <-> In y acc \/ exists x, In x l /\ f x = y.
Proof.
  revert acc. induction l as [| x l IH]; intros acc; simpl.
  - split; [tauto | intros [H | [x [[] _]]]; assumption].
  - rewrite IH, set_add_In. split.
    + intros [[H | ->] | [z [Hz Hf]]]; eauto.
    + intros [H | [z [[<- | Hz] Hf]]]; eauto.
Qed.

Lemma fold_add_NoDup (f : string -> string) (l : list string) (acc : pyset) :
  NoDup acc -> NoDup (fold_left (fun a x => set_add (f x) a) l acc).
Proof.
  revert acc. induction l as [| x l IH]; intros acc H; simpl; auto.
  apply IH. now apply set_add_NoDup.
Qed.

Lemma fold_add_fresh (f : string -> string) (l : list string) (acc : pyset) :
  NoDup (acc ++ map f l) ->
  fold_left (fun a x => set_add (f x) a) l acc = acc ++ map f l.
Proof.
  revert acc. induction l as [| x l IH]; intros acc H; simpl.
  - now rewrite app_nil_r.
  - simpl in H.
    assert (Hx : ~ In (f x) acc).
    { apply NoDup_remove_2 in H. intro Hx. apply H. apply in_or_app. now left. }
    rewrite set_add_new by exact Hx.
    assert (H' : NoDup ((acc ++ [f x]) ++ map f l)) by now rewrite <- app_assoc.
    rewrite IH by exact H'. now rewrite <- app_assoc.
Qed.

Lemma set_of_list_In (l : list string) (y : string) :
  In y (set_of_list l) <-> In y l.
Proof.
  unfold set_of_list. rewrite (fold_add_In (fun x => x)). split.
  - intros [[] | [x [Hx <-]]]. assumption.
  - intros H. right. now exists y.
Qed.

Lemma set_of_list_NoDup (l : list string) : NoDup (set_of_list l).
Proof. apply (fold_add_NoDup (fun x => x)). constructor. Qed.

Lemma set_of_list_fresh (l : list string) : NoDup l -> set_of_list l = l.
Proof.
  intros H. unfold set_of_list.
  rewrite (fold_add_fresh (fun x => x)); rewrite map_id; [reflexivity | exact H].
Qed.

Lemma set_union_In (a b : pyset) (y : string) :
  In y (set_union a b) <-> In y a \/ In y b.
Proof.
  unfold set_union. rewrite (fold_add_In (fun x => x)). split.
  - intros [H | [x [Hx <-]]]; auto.
  - intros [H | H]; eauto.
Qed.

Lemma set_union_NoDup (a b : pyset) : NoDup a -> NoDup (set_union a b).
Proof. apply (fold_add_NoDup (fun x => x)). Qed.

Lemma issubset_incl (a b : pyset) : issubset a b = true <-> incl a b.
Proof.
  unfold issubset, incl. rewrite forallb_forall.
  split; intros H x Hx; apply mem_In; auto.
Qed.

Lemma set_eqb_spec (a b : pyset) :
  set_eqb a b = true <-> (forall x, In x a <-> In x b).
Proof.
  unfold set_eqb. rewrite andb_true_iff, !issubset_incl. unfold incl.
  split; [intros [H1 H2] x; split; auto | intros H; split; intros x; apply H].
Qed.

Lemma iter_In (l : list string) (x : string) : In x (iter l) <-> In x l.
Proof.
  split; apply Permutation_in; [apply iter_perm | apply Permutation_sym, iter_perm].
Qed.

Lemma iter_NoDup (l : list string) : NoDup l -> NoDup (iter l).
Proof.
  intros H. eapply Permutation_NoDup; [apply Permutation_sym, iter_perm | exact H].
Qed.

Lemma iter_length (l : list string) : length (iter l) = length l.
Proof. apply Permutation_length, iter_perm. Qed.

Lemma set_comp_In (f : string -> string) (s : pyset) (y : string) :
  In y (set_comp f s) <-> exists x, In x s /\ f x = y.
Proof.
  unfold set_comp. rewrite set_of_list_In, in_map_iff.
  split; intros [x [H1 H2]]; exists x; rewrite iter_In in *; auto.
Qed.

Lemma set_comp_NoDup (f : string -> string) (s : pyset) : NoDup (set_comp f s).
Proof. apply set_of_list_NoDup. Qed.

(** Two duplicate-free lists with the same members have the same size. *)
Lemma NoDup_same_length (a b : list string) :
  NoDup a -> NoDup b -> (forall x, In x a <-> In x b) -> length a = length b.
Proof.
  intros Ha Hb H. apply Permutation_length. now apply NoDup_Permutation.
Qed.

(** ** Card strings and the deck *)

Lemma join2 (v s : string) : join [v; s] = (v ++ s)%string.
Proof. reflexivity. Qed.

Lemma deck52_ok : forallb card_ok deck52 = true.
Proof. vm_compute. reflexivity. Qed.

Lemma deck52_card (c : string) :
  In c deck52 ->
  (value_of c ++ suit_of c)%string = c
  /\ In (value_of c) all_values
  /\ In (suit_of c) four_suits
  /\ String.length c = 2.
Proof.
  intros H. pose proof deck52_ok as Hall.
  rewrite forallb_forall in Hall. specialize (Hall c H).
  unfold card_ok in Hall. rewrite !andb_true_iff in Hall.
  destruct Hall as [[[H1 H2] H3] H4].
  apply String.eqb_eq in H1. apply mem_In in H2. apply mem_In in H3.
  apply Nat.eqb_eq in H4. auto.
Qed.

Lemma gen_deck_In (c : string) : In c _gen_deck <-> In c deck52.
Proof.
  unfold _gen_deck, deck52. rewrite set_of_list_In, !in_flat_map.
  assert (Hv : forall v,
             In v (set_union (set_of_list (map str (seq 2 8)))
                             (set_of_list ["A"; "T"; "J"; "Q"; "K"]))
             <-> In v all_values).
  { apply set_eqb_spec. vm_compute. reflexivity. }
  assert (Hs : forall x, In x (set_of_list ["s"; "h"; "d"; "c"])
                         <-> In x four_suits).
  { apply set_eqb_spec. vm_compute. reflexivity. }
  split; intros [v [H1 H2]]; exists v; rewrite in_map_iff in *;
    destruct H2 as [x [H2 H3]].
  - rewrite iter_In, Hv in H1. rewrite iter_In, Hs in H3.
    split; [assumption |]. exists x. now rewrite <- join2.
  - rewrite iter_In, Hv. split; [assumption |]. exists x.
    rewrite iter_In, Hs. now rewrite join2.
Qed.

Lemma mem_gen_deck (c : string) : mem c _gen_deck = mem c deck52.
Proof. apply mem_ext, gen_deck_In. Qed.

(** One-character strings *)
Lemma all_values_char (v : string) :
  In v all_values -> exists a, v = String a EmptyString.
Proof.
  intros H. vm_compute in H.
  repeat (destruct H as [<- | H]; [eexists; reflexivity |]). destruct H.
Qed.

Lemma append_char_inj (a b : ascii) (s t : string) :
  (String a EmptyString ++ s)%string = (String b EmptyString ++ t)%string ->
  a = b /\ s = t.
Proof. simpl. intros H. now inversion H. Qed.

Lemma append_value_inj (v w s t : string) :
  In v all_values -> In w all_values ->
  (v ++ s)%string = (w ++ t)%string -> v = w /\ s = t.
Proof.
  intros Hv Hw H.
  destruct (all_values_char Hv) as [a ->], (all_values_char Hw) as [b ->].
  apply append_char_inj in H. destruct H as [-> ->]. auto.
Qed.

Lemma value_of_append (v s : string) :
  In v all_values -> In s four_suits ->
  value_of (v ++ s) = v /\ suit_of (v ++ s) = s.
Proof.
  intros Hv Hs. destruct (all_values_char Hv) as [a ->].
  vm_compute in Hs.
  repeat (destruct Hs as [<- | Hs]; [split; reflexivity |]). destruct Hs.
Qed.

(** ** Dictionaries *)

Lemma dict_get_set (d : dict) (k k' : string) (v : pyset) :
  dict_get (dict_set d k v) k'
  = if String.eqb k' k then Some v else dict_get d k'.
Proof.
  induction d as [| [k0 v0] d IH]; simpl.
  - reflexivity.
  - destruct (String.eqb_spec k k0) as [-> | Hk]; simpl.
    + destruct (String.eqb k' k0); reflexivity.
    + rewrite IH. destruct (String.eqb_spec k' k0) as [-> | Hk'].
      * destruct (String.eqb_spec k0 k); congruence.
      * reflexivity.
Qed.

Lemma dict_mem_keys (d : dict) (k : string) :
  dict_mem d k = true <-> In k (dict_keys d).
Proof.
  unfold dict_mem, dict_keys. induction d as [| [k0 v0] d IH]; simpl.
  - split; [discriminate | tauto].
  - destruct (String.eqb_spec k k0) as [-> | Hk].
    + split; auto.
    + rewrite IH. split; [auto | intros [H | H]; congruence].
Qed.

Lemma dict_keys_set (d : dict) (k : string) (v : pyset) :
  dict_keys (dict_set d k v)
  = if dict_mem d k then dict_keys d else dict_keys d ++ [k].
Proof.
  unfold dict_mem, dict_keys. induction d as [| [k0 v0] d IH]; simpl.
  - reflexivity.
  - destruct (String.eqb_spec k k0) as [-> | Hk]; simpl.
    + reflexivity.
    + rewrite IH. destruct (dict_get d k); reflexivity.
Qed.

Lemma dict_set_keys_NoDup (d : dict) (k : string) (v : pyset) :
  NoDup (dict_keys d) -> NoDup (dict_keys (dict_set d k v)).
Proof.
  intros H. rewrite dict_keys_set. destruct (dict_mem d k) eqn:E; [assumption |].
  apply NoDup_app; auto.
  - repeat constructor. intros [].
  - intros y Hy [<- | []]. apply dict_mem_keys in Hy. congruence.
Qed.

Lemma dict_get_default_set (d : dict) (k k' : string) (v : pyset) :
  dict_get_default (dict_set d k v) k'
  = if String.eqb k' k then v else dict_get_default d k'.
Proof.
  unfold dict_get_default. rewrite dict_get_set.
  destruct (String.eqb k' k); reflexivity.
Qed.

Lemma dict_mem_set (d : dict) (k k' : string) (v : pyset) :
  dict_mem (dict_set d k v) k' = String.eqb k' k || dict_mem d k'.
Proof.
  unfold dict_mem. rewrite dict_get_set. destruct (String.eqb k' k); reflexivity.
Qed.

Lemma dict_mem_false_default (d : dict) (k : string) :
  dict_mem d k = false -> dict_get_default d k = [].
Proof.
  unfold dict_mem, dict_get_default.
  destruct (dict_get d k); [discriminate | reflexivity].
Qed.

(** ** The value and suit indices *)

Section Index.

Variables key item : string -> string.

Lemma index_spec_nil : index_spec key item [] [].
Proof.
  constructor; simpl.
  - constructor.
  - intros k. split; [discriminate | intros [c [[] _]]].
  - intros k x. split; [intros [] | intros [c [[] _]]].
  - intros k. constructor.
Qed.

Lemma index_step_spec (l : list string) (d : dict) (c : string) :
  index_spec key item l d ->
  index_spec key item (l ++ [c]) (index_step key item d c).
Proof.
  intros [Hk Hm Hi Hn].
  assert (Hget : forall k,
             dict_get_default (index_step key item d c) k
             = if String.eqb k (key c)
               then set_union (dict_get_default d (key c)) [item c]
               else dict_get_default d k).
  { intros k. unfold index_step. destruct (dict_mem d (key c)) eqn:E;
      rewrite dict_get_default_set; [reflexivity |].
    rewrite (dict_mem_false_default _ _ E). reflexivity. }
  constructor.
  - unfold index_step. destruct (dict_mem d (key c));
      now apply dict_set_keys_NoDup.
  - intros k.
    assert (Hmem : dict_mem (index_step key item d c) k
                   = String.eqb k (key c) || dict_mem d k).
    { unfold index_step. destruct (dict_mem d (key c)); apply dict_mem_set. }
    rewrite Hmem, orb_true_iff, Hm. split.
    + intros [H | [x [H1 H2]]].
      * apply String.eqb_eq in H. exists c. split; [| auto].
        apply in_or_app. right. now left.
      * exists x. split; [apply in_or_app; now left | assumption].
    + intros [x [H1 H2]]. apply in_app_or in H1. destruct H1 as [H1 | [<- | []]].
      * right. now exists x.
      * left. subst k. apply String.eqb_refl.
  - intros k x. rewrite Hget.
    destruct (String.eqb_spec k (key c)) as [-> | Hne].
    + rewrite set_union_In, Hi. simpl. split.
      * intros [[y [H1 [H2 H3]]] | [<- | []]].
        -- exists y. split; [apply in_or_app; now left | auto].
        -- exists c. split; [apply in_or_app; right; now left | auto].
      * intros [y [H1 [H2 H3]]]. apply in_app_or in H1.
        destruct H1 as [H1 | [<- | []]].
        -- left. now exists y.
        -- right. now left.
    + rewrite Hi. split; intros [y [H1 [H2 H3]]].
      * exists y. split; [apply in_or_app; now left | auto].
      * apply in_app_or in H1. destruct H1 as [H1 | [<- | []]].
        -- now exists y.
        -- congruence.
  - intros k. rewrite Hget. destruct (String.eqb k (key c)); [| apply Hn].
    apply set_union_NoDup, Hn.
Qed.

Lemma index_fold_spec (l l0 : list string) (d : dict) :
  index_spec key item l0 d ->
  index_spec key item (l0 ++ l) (fold_left (index_step key item) l d).
Proof.
  revert l0 d. induction l as [| c l IH]; intros l0 d H; simpl.
  - now rewrite app_nil_r.
  - replace (l0 ++ c :: l) with ((l0 ++ [c]) ++ l) by now rewrite <- app_assoc.
    apply IH. now apply index_step_spec.
Qed.

Lemma index_spec_ext (l l' : list string) (d : dict) :
  (forall c, In c l <-> In c l') ->
  index_spec key item l d -> index_spec key item l' d.
Proof.
  intros E [Hk Hm Hi Hn]. constructor; auto.
  - intros k. rewrite Hm. split; intros [c [H1 H2]]; exists c; rewrite E in *; auto.
  - intros k x. rewrite Hi. split; intros [c [H1 H2]]; exists c; rewrite E in *; auto.
Qed.

(** The size of an entry does not depend on the order of enumeration. *)
Lemma index_spec_length (l : list string) (d d' : dict) (k : string) :
  index_spec key item l d -> index_spec key item l d' ->
  length (dict_get_default d k) = length (dict_get_default d' k).
Proof.
  intros H H'. apply NoDup_same_length; try apply ix_nodup with (1 := H);
    try apply ix_nodup with (1 := H').
  intros x. rewrite (ix_in H), (ix_in H'). reflexivity.
Qed.

End Index.

Lemma gen_values_spec (l : pyset) :
  index_spec value_of suit_of l (_gen_values l).
Proof.
  apply index_spec_ext with (l := iter l); [apply iter_In |].
  apply (index_fold_spec (iter l) (index_spec_nil value_of suit_of)).
Qed.

Lemma gen_suits_spec (l : pyset) :
  index_spec suit_of value_of l (_gen_suits l).
Proof.
  apply index_spec_ext with (l := iter l); [apply iter_In |].
  apply (index_fold_spec (iter l) (index_spec_nil suit_of value_of)).
Qed.

(** ** Kickers *)

Lemma fill_suits_spec (value : string) (suits : list string)
      (dead : pyset) (n : Z) :
  NoDup dead -> (1 <= n)%Z ->
  match fill_suits value suits dead n with
  | inl d =>
      NoDup d /\ incl dead d
      /\ (forall c, In c d ->
                    In c dead \/ exists s, In s suits /\ c = (value ++ s)%string)
      /\ Z.of_nat (length d) = (Z.of_nat (length dead) + n)%Z
  | inr (d, n') =>
      NoDup d /\ incl dead d
      /\ (forall c, In c d ->
                    In c dead \/ exists s, In s suits /\ c = (value ++ s)%string)
      /\ (1 <= n')%Z
      /\ (Z.of_nat (length d) + n' = Z.of_nat (length dead) + n)%Z
      /\ (forall s, In s suits -> In (value ++ s)%string d)
  end.
Proof.
  revert dead n. induction suits as [| suit rest IH]; intros dead n Hd Hn; simpl.
  - repeat split; auto using incl_refl. intros s [].
  - rewrite join2. destruct (mem (value ++ suit)%string dead) eqn:E; simpl.
    + apply mem_In in E. specialize (IH dead n Hd Hn).
      destruct (fill_suits value rest dead n) as [d | [d n']].
      * destruct IH as (H1 & H2 & H3 & H4). repeat split; auto.
        intros c Hc. destruct (H3 c Hc) as [H | [s [Hs ->]]]; eauto.
      * destruct IH as (H1 & H2 & H3 & H4 & H5 & H6). repeat split; auto.
        -- intros c Hc. destruct (H3 c Hc) as [H | [s [Hs ->]]]; eauto.
        -- intros s [<- | Hs]; auto.
    + apply mem_false in E. rewrite set_add_new by exact E.
      assert (Hd' : NoDup (dead ++ [(value ++ suit)%string])).
      { rewrite <- set_add_new by exact E. now apply set_add_NoDup. }
      assert (Hlen : Z.of_nat (length (dead ++ [(value ++ suit)%string]))
                     = (Z.of_nat (length dead) + 1)%Z).
      { rewrite length_app. simpl. lia. }
      assert (Hin : forall c, In c (dead ++ [(value ++ suit)%string]) ->
                              In c dead \/ exists s, In s (suit :: rest)
                                                     /\ c = (value ++ s)%string).
      { intros c Hc. apply in_app_or in Hc. destruct Hc as [Hc | [<- | []]]; auto.
        right. exists suit. split; [now left | reflexivity]. }
      destruct (Z.eqb_spec (n - 1) 0) as [Hz | Hz].
      * repeat split; auto.
        -- apply incl_appl, incl_refl.
        -- lia.
      * assert (Hn' : (1 <= n - 1)%Z) by lia.
        specialize (IH _ _ Hd' Hn').
        destruct (fill_suits value rest (dead ++ [(value ++ suit)%string]) (n - 1))
          as [d | [d n']].
        -- destruct IH as (H1 & H2 & H3 & H4). repeat split; auto.
           ++ intros c Hc. apply H2. apply in_or_app. now left.
           ++ intros c Hc. destruct (H3 c Hc) as [H | [s [Hs ->]]]; eauto.
           ++ lia.
        -- destruct IH as (H1 & H2 & H3 & H4 & H5 & H6). repeat split; auto.
           ++ intros c Hc. apply H2. apply in_or_app. now left.
           ++ intros c Hc. destruct (H3 c Hc) as [H | [s [Hs ->]]]; eauto.
           ++ lia.
           ++ intros s [<- | Hs]; auto. apply H2. apply in_or_app. right. now left.
Qed.

Lemma fill_values_spec (values : dict) (vs : list string)
      (dead : pyset) (n : Z) :
  NoDup dead -> (1 <= n)%Z ->
  let d := fill_values values vs dead n in
  NoDup d /\ incl dead d
  /\ (forall c, In c d ->
                In c dead
                \/ exists v s, In v vs /\ In s (dict_get_default values v)
                               /\ c = (v ++ s)%string)
  /\ (Z.of_nat (length d) <= Z.of_nat (length dead) + n)%Z
  /\ (Z.of_nat (length d) = (Z.of_nat (length dead) + n)%Z
      \/ forall v s, In v vs -> In s (dict_get_default values v) ->
                     In (v ++ s)%string d).
Proof.
  revert dead n. induction vs as [| value rest IH]; intros dead n Hd Hn; simpl.
  - repeat split; auto using incl_refl. lia. right. intros v s [].
  - destruct (dict_mem values value) eqn:E.
    + pose proof (fill_suits_spec value (iter (dict_get_default values value))
                                  Hd Hn) as Hs.
      destruct (fill_suits value (iter (dict_get_default values value)) dead n)
        as [d | [d n']].
      * destruct Hs as (H1 & H2 & H3 & H4). repeat split; auto; [| lia].
        intros c Hc. destruct (H3 c Hc) as [H | [s [Hs ->]]]; auto.
        right. exists value, s. rewrite iter_In in Hs. auto.
      * destruct Hs as (H1 & H2 & H3 & H4 & H5 & H6).
        specialize (IH d n' H1 H4). simpl in IH.
        destruct IH as (I1 & I2 & I3 & I4 & I5). repeat split; auto.
        -- eapply incl_tran; eauto.
        -- intros c Hc. destruct (I3 c Hc) as [H | (v & s & Hv & Hs & ->)].
           ++ destruct (H3 c H) as [H' | [s [Hs ->]]]; auto.
              right. exists value, s. rewrite iter_In in Hs. auto.
           ++ right. exists v, s. auto.
        -- lia.
        -- destruct I5 as [I5 | I5]; [left; lia | right].
           intros v s [<- | Hv] Hs; auto. apply I2, H6. now rewrite iter_In.
    + specialize (IH dead n Hd Hn). simpl in IH.
      destruct IH as (I1 & I2 & I3 & I4 & I5). repeat split; auto.
      * intros c Hc. destruct (I3 c Hc) as [H | (v & s & Hv & Hs & ->)]; auto.
        right. exists v, s. auto.
      * destruct I5 as [I5 | I5]; [now left | right].
        intros v s [<- | Hv] Hs; auto.
        rewrite (dict_mem_false_default _ _ E) in Hs. destruct Hs.
Qed.

(** ** Cards of a well-formed aggregate *)

Lemma substring_0_0 (s : string) : substring 0 0 s = EmptyString.
Proof. destruct s; reflexivity. Qed.

Lemma value_of_char (a : ascii) (s : string) :
  value_of (String a EmptyString ++ s) = String a EmptyString.
Proof. unfold value_of. simpl. now rewrite substring_0_0. Qed.

Lemma value_of_value (v s : string) : In v all_values -> value_of (v ++ s) = v.
Proof. intros H. destruct (all_values_char H) as [a ->]. apply value_of_char. Qed.

Lemma append_inj_r (v s t : string) : (v ++ s)%string = (v ++ t)%string -> s = t.
Proof. induction v as [| a v IH]; simpl; intros H; [assumption | inversion H; auto]. Qed.

Lemma NoDup_map_append (v : string) (l : list string) :
  NoDup l -> NoDup (map (fun s => (v ++ s)%string) l).
Proof.
  induction 1 as [| x l Hx Hl IH]; simpl; constructor; auto.
  rewrite in_map_iff. intros [y [Hy Hin]]. apply append_inj_r in Hy. congruence.
Qed.

Section Wf.

Variable HB : HBoard_view.
Hypothesis wf : wf_view HB.

Lemma values_card (v s : string) :
  In s (dict_get_default (v_values HB) v) ->
  In (v ++ s)%string (v_cards HB) /\ In v all_values /\ In s four_suits.
Proof.
  intros H. apply (ix_in (wf_values wf)) in H. destruct H as (c & Hc & <- & <-).
  destruct (deck52_card (wf_deck wf _ Hc)) as (E & Hv & Hs & _).
  rewrite E. auto.
Qed.

Lemma suits_card (s v : string) :
  In v (dict_get_default (v_suits HB) s) ->
  In (v ++ s)%string (v_cards HB) /\ In v all_values /\ In s four_suits.
Proof.
  intros H. apply (ix_in (wf_suits wf)) in H. destruct H as (c & Hc & <- & <-).
  destruct (deck52_card (wf_deck wf _ Hc)) as (E & Hv & Hs & _).
  rewrite E. auto.
Qed.

Lemma card_values (c : string) :
  In c (v_cards HB) ->
  exists v s, c = (v ++ s)%string /\ In v all_values
              /\ In s (dict_get_default (v_values HB) v).
Proof.
  intros Hc. destruct (deck52_card (wf_deck wf _ Hc)) as (E & Hv & Hs & _).
  exists (value_of c), (suit_of c). repeat split; auto.
  apply (ix_in (wf_values wf)). exists c. auto.
Qed.

Lemma values_NoDup (v : string) : NoDup (dict_get_default (v_values HB) v).
Proof. apply (ix_nodup (wf_values wf)). Qed.

Lemma suits_NoDup (s : string) : NoDup (dict_get_default (v_suits HB) s).
Proof. apply (ix_nodup (wf_suits wf)). Qed.

(** The cards of one value, as the comprehensions of the detectors build
    them. *)
Lemma value_cards (v : string) :
  let made := set_comp (fun suit => join [v; suit])
                       (dict_get_default (v_values HB) v) in
  made = map (fun s => (v ++ s)%string) (iter (dict_get_default (v_values HB) v))
  /\ NoDup made /\ incl made (v_cards HB)
  /\ length made = length (dict_get_default (v_values HB) v).
Proof.
  simpl. unfold set_comp.
  assert (E : map (fun suit => join [v; suit]) (iter (dict_get_default (v_values HB) v))
              = map (fun s => (v ++ s)%string) (iter (dict_get_default (v_values HB) v))).
  { apply map_ext. intros a. apply join2. }
  rewrite E.
  assert (Hn : NoDup (map (fun s => (v ++ s)%string)
                          (iter (dict_get_default (v_values HB) v)))).
  { apply NoDup_map_append, iter_NoDup, values_NoDup. }
  rewrite set_of_list_fresh by exact Hn. repeat split; auto.
  - intros c Hc. apply in_map_iff in Hc. destruct Hc as [s [<- Hs]].
    rewrite iter_In in Hs. now apply values_card.
  - now rewrite length_map, iter_length.
Qed.

Lemma fill_hand_good (dead : pyset) (n : Z) :
  NoDup dead -> incl dead (v_cards HB) -> (1 <= n)%Z ->
  (Z.of_nat (length dead) + n = 5)%Z ->
  good HB (_fill_hand (v_values HB) dead n).
Proof.
  intros Hd Hi Hn H5. unfold _fill_hand.
  destruct (fill_values_spec (v_values HB) all_values Hd Hn)
    as (H1 & H2 & H3 & H4 & H5').
  set (d := fill_values (v_values HB) all_values dead n) in *.
  assert (Hincl : incl d (v_cards HB)).
  { intros c Hc. destruct (H3 c Hc) as [H | (v & s & Hv & Hs & ->)]; auto.
    now apply values_card. }
  repeat split; auto; [lia |].
  intros Hlt. destruct H5' as [H5' | H5']; [lia |].
  assert (Hc : incl (v_cards HB) d).
  { intros c Hc. apply card_values in Hc. destruct Hc as (v & s & -> & Hv & Hs). auto. }
  pose proof (NoDup_incl_length (wf_nodup wf) Hc). lia.
Qed.

Lemma fill_hand_nonempty (dead : pyset) (n : Z) :
  NoDup dead -> (1 <= n)%Z -> dead <> [] -> _fill_hand (v_values HB) dead n <> [].
Proof.
  intros Hd Hn Hne. unfold _fill_hand.
  destruct (fill_values_spec (v_values HB) all_values Hd Hn) as (_ & H2 & _).
  destruct dead as [| c dead]; [congruence |].
  intros E. rewrite E in H2. apply (H2 c). now left.
Qed.

End Wf.

(** ** The detectors that fill with kickers *)

Lemma first_match_inv (A : Type) (test : A -> bool) (found : A -> detected)
      (xs : list A) :
  (first_match test found xs = PFalse /\ forall x, In x xs -> test x = false)
  \/ exists x, In x xs /\ test x = true /\ first_match test found xs = found x.
Proof.
  induction xs as [| x xs IH]; simpl.
  - left. split; [reflexivity | intros x []].
  - destruct (test x) eqn:E.
    + right. exists x. auto.
    + destruct IH as [[H1 H2] | (y & H1 & H2 & H3)].
      * left. split; [assumption | intros z [<- | Hz]; auto].
      * right. exists y. auto.
Qed.

Section Kickers.

Variable HB : HBoard_view.
Hypothesis wf : wf_view HB.

Lemma fill_good_result (dead : pyset) (n : Z) :
  NoDup dead -> incl dead (v_cards HB) -> (1 <= n)%Z ->
  (Z.of_nat (length dead) + n = 5)%Z -> dead <> [] ->
  good_result HB (Made (_fill_hand (v_values HB) dead n)).
Proof.
  intros. split; [now apply fill_hand_good | now apply fill_hand_nonempty].
Qed.

Lemma length_nonempty (A : Type) (l : list A) (n : nat) :
  length l = S n -> l <> [].
Proof. destruct l; simpl; congruence. Qed.

Lemma kind_good (v : string) (k : nat) (n : Z) :
  length (dict_get_default (v_values HB) v) = S k ->
  (1 <= n)%Z -> (Z.of_nat (S k) + n = 5)%Z ->
  good_result HB
    (Made (_fill_hand (v_values HB)
             (set_comp (fun suit => join [v; suit])
                       (dict_get_default (v_values HB) v)) n)).
Proof.
  intros Hlen Hn H5.
  destruct (value_cards wf v) as (_ & H1 & H2 & H3).
  apply fill_good_result; auto.
  - rewrite H3, Hlen. exact H5.
  - apply length_nonempty with (n := k). now rewrite H3.
Qed.

Lemma trips_good : good_result HB (_trips HB).
Proof.
  unfold _trips.
  match goal with |- good_result _ (first_match ?t ?f ?l) =>
    destruct (first_match_inv t f l) as [[-> _] | (v & _ & Ht & ->)] end;
    [exact I |].
  apply Nat.eqb_eq in Ht. apply kind_good with (k := 2); auto; lia.
Qed.

Lemma one_pair_good : good_result HB (_one_pair HB).
Proof.
  unfold _one_pair.
  match goal with |- good_result _ (first_match ?t ?f ?l) =>
    destruct (first_match_inv t f l) as [[-> _] | (v & _ & Ht & ->)] end;
    [exact I |].
  apply Nat.eqb_eq in Ht. apply kind_good with (k := 1); auto; lia.
Qed.

Lemma quads_cards (v : string) :
  length (dict_get_default (v_values HB) v) = 4 ->
  let made := set_comp (fun suit => join [v; suit])
                       (set_of_list ["s"; "h"; "d"; "c"]) in
  NoDup made /\ incl made (v_cards HB) /\ length made = 4.
Proof.
  intros Hlen. simpl. unfold set_comp.
  change (set_of_list ["s"; "h"; "d"; "c"]) with four_suits.
  assert (Hn : NoDup (map (fun suit => join [v; suit]) (iter four_suits))).
  { apply (NoDup_map_append v). apply iter_NoDup.
    unfold four_suits. repeat constructor; simpl; intuition discriminate. }
  rewrite set_of_list_fresh by exact Hn. repeat split; auto.
  - assert (Hall : incl four_suits (dict_get_default (v_values HB) v)).
    { apply NoDup_length_incl.
      - apply (values_NoDup wf).
      - rewrite Hlen. simpl. lia.
      - intros s Hs. now apply (values_card wf) in Hs. }
    intros c Hc. apply in_map_iff in Hc. destruct Hc as [s [<- Hs]].
    rewrite iter_In in Hs. rewrite join2. apply (values_card wf). auto.
  - now rewrite length_map, iter_length.
Qed.

Lemma quads_good : good_result HB (_quads HB).
Proof.
  unfold _quads. cbv zeta.
  match goal with |- good_result _ (first_match ?t ?f ?l) =>
    destruct (first_match_inv t f l) as [[-> _] | (v & _ & Ht & ->)] end;
    [exact I |].
  cbv beta zeta.
  apply Nat.eqb_eq in Ht. destruct (quads_cards v Ht) as (H1 & H2 & H3).
  apply fill_good_result; auto.
  - lia.
  - rewrite H3. reflexivity.
  - apply length_nonempty with (n := 3). exact H3.
Qed.

Lemma values_known (v : string) (k : nat) :
  length (dict_get_default (v_values HB) v) = S k -> In v all_values.
Proof.
  intros H. destruct (dict_get_default (v_values HB) v) as [| s l] eqn:E;
    [discriminate |].
  assert (Hs : In s (dict_get_default (v_values HB) v)) by (rewrite E; now left).
  now apply (values_card wf) in Hs.
Qed.

(** The cards of two different values do not meet. *)
Lemma two_values_NoDup (v1 v2 : string) (l1 l2 : list string) :
  In v1 all_values -> In v2 all_values -> v2 <> v1 ->
  NoDup l1 -> NoDup l2 ->
  NoDup (map (fun s => join [v1; s]) l1 ++ map (fun s => join [v2; s]) l2).
Proof.
  intros H1 H2 Hne Hn1 Hn2. apply NoDup_app.
  - now apply (NoDup_map_append v1).
  - now apply (NoDup_map_append v2).
  - intros c Hc1 Hc2. rewrite in_map_iff in Hc1, Hc2.
    destruct Hc1 as [s [<- Hs]], Hc2 as [t [E Ht]]. rewrite !join2 in E.
    apply append_value_inj in E; auto. destruct E; congruence.
Qed.

Lemma two_pair_inner_good (v1 : string) (vs : list string) :
  length (dict_get_default (v_values HB) v1) = 2 ->
  match two_pair_inner HB v1 vs with
  | Some d => good_result HB d
  | None => True
  end.
Proof.
  intros H1. induction vs as [| v2 rest IH]; simpl; [exact I |].
  destruct ((length (dict_get_default (v_values HB) v2) =? 2)%nat
            && negb (String.eqb v2 v1)) eqn:E; [| exact IH].
  apply andb_true_iff in E. destruct E as [H2 Hne].
  apply Nat.eqb_eq in H2. apply negb_true_iff in Hne.
  apply String.eqb_neq in Hne.
  set (l1 := iter (dict_get_default (v_values HB) v1)).
  set (l2 := iter (dict_get_default (v_values HB) v2)).
  assert (Hn : NoDup (map (fun s => join [v1; s]) l1 ++ map (fun s => join [v2; s]) l2)).
  { apply two_values_NoDup; auto.
    - now apply values_known with (k := 1).
    - now apply values_known with (k := 1).
    - apply iter_NoDup, (values_NoDup wf).
    - apply iter_NoDup, (values_NoDup wf). }
  assert (E1 : fold_left (fun acc suit => set_add (join [v1; suit]) acc) l1 []
               = map (fun s => join [v1; s]) l1).
  { rewrite fold_add_fresh; [reflexivity |]. simpl.
    apply NoDup_app_remove_r in Hn. exact Hn. }
  rewrite E1. rewrite fold_add_fresh by exact Hn.
  apply fill_good_result; auto.
  - intros c Hc. apply in_app_or in Hc. rewrite !in_map_iff in Hc.
    destruct Hc as [[s [<- Hs]] | [s [<- Hs]]]; rewrite join2;
      apply (values_card wf); unfold l1, l2 in Hs; now rewrite iter_In in Hs.
  - lia.
  - rewrite length_app, !length_map. unfold l1, l2. rewrite !iter_length, H1, H2.
    reflexivity.
  - intros E. apply (f_equal (@length string)) in E.
    rewrite length_app, !length_map in E. unfold l1 in E.
    rewrite iter_length, H1 in E. simpl in E. discriminate.
Qed.

Lemma two_pair_outer_good (vs : list string) :
  good_result HB (two_pair_outer HB vs).
Proof.
  induction vs as [| v1 rest IH]; cbn [two_pair_outer]; [exact I |].
  destruct (length (dict_get_default (v_values HB) v1) =? 2)%nat eqn:E; [| exact IH].
  apply Nat.eqb_eq in E. pose proof (two_pair_inner_good v1 all_values E) as H.
  destruct (two_pair_inner HB v1 all_values); [exact H | exact IH].
Qed.

Lemma two_pair_good : good_result HB (_two_pair HB).
Proof. apply two_pair_outer_good. Qed.

End Kickers.

(** ** Windows of the rank sequence *)

Ltac nodup_list := repeat constructor; simpl; intuition discriminate.

Lemma all_values_NoDup : NoDup all_values.
Proof.
  replace all_values with (set_of_list all_values) by (vm_compute; reflexivity).
  apply set_of_list_NoDup.
Qed.

Lemma window_slices :
  map (fun i => slice (all_values ++ ["A"]) i 5) (seq 0 10) = window_values.
Proof. vm_compute. reflexivity. Qed.

Lemma window_values_ok (w : list string) :
  In w window_values -> NoDup w /\ incl w all_values /\ length w = 5.
Proof.
  intros H. vm_compute in H.
  repeat (destruct H as [<- | H];
          [split; [nodup_list | split; [| reflexivity]];
           apply issubset_incl; vm_compute; reflexivity |]).
  destruct H.
Qed.

Lemma slice_map (A B : Type) (f : A -> B) (l : list A) (i n : nat) :
  slice (map f l) i n = map f (slice l i n).
Proof. unfold slice. now rewrite skipn_map, firstn_map. Qed.

Lemma NoDup_map_value (suit : string) (l : list string) :
  incl l all_values -> NoDup l -> NoDup (map (fun v => join [v; suit]) l).
Proof.
  intros Hi Hn. induction Hn as [| x l Hx Hl IH]; simpl; constructor.
  - rewrite in_map_iff. intros [y [Hy Hin]]. rewrite !join2 in Hy.
    apply append_value_inj in Hy.
    + destruct Hy. congruence.
    + apply Hi. now right.
    + apply Hi. now left.
  - apply IH. intros y Hy. apply Hi. now right.
Qed.

(** ** Flush and straight flush *)

Lemma flush_loop_exact (suit : string) (in_suit : pyset) (vs : list string)
      (best : pyset) :
  length best < 5 ->
  NoDup (best ++ map (fun v => join [v; suit])
                     (filter (fun v => mem v in_suit) vs)) ->
  flush_loop suit in_suit vs best
  = best ++ map (fun v => join [v; suit])
                (firstn (5 - length best) (filter (fun v => mem v in_suit) vs)).
Proof.
  revert best. induction vs as [| value rest IH]; intros best Hlt;
    cbn [flush_loop filter].
  - intros _. rewrite firstn_nil. simpl. now rewrite app_nil_r.
  - destruct (mem value in_suit) eqn:E; intros Hn.
    + cbn [map] in Hn.
      assert (Hx : ~ In (join [value; suit]) best).
      { apply NoDup_remove_2 in Hn. intro Hx. apply Hn, in_or_app. now left. }
      rewrite set_add_new by exact Hx.
      assert (Hn' : NoDup ((best ++ [join [value; suit]])
                             ++ map (fun v => join [v; suit])
                                    (filter (fun v => mem v in_suit) rest)))
        by now rewrite <- app_assoc.
      assert (Hlen : length (best ++ [join [value; suit]]) = S (length best))
        by (rewrite length_app; simpl; lia).
      destruct (Nat.eqb_spec (length (best ++ [join [value; suit]])) 5) as [H5 | H5].
      * replace (5 - length best) with 1 by lia. reflexivity.
      * rewrite IH by (auto; lia). rewrite Hlen.
        replace (5 - length best) with (S (5 - S (length best))) by lia.
        cbn [firstn map]. now rewrite <- app_assoc.
    + destruct (Nat.eqb_spec (length best) 5) as [H5 | H5]; [lia |].
      apply IH; assumption.
Qed.

Lemma in_firstn (A : Type) (n : nat) (l : list A) (x : A) :
  In x (firstn n l) -> In x l.
Proof.
  intros H. rewrite <- (firstn_skipn n l). apply in_or_app. now left.
Qed.

Lemma NoDup_firstn_map (A B : Type) (f : A -> B) (n : nat) (l : list A) :
  NoDup (map f l) -> NoDup (map f (firstn n l)).
Proof.
  intros H. rewrite <- (firstn_skipn n l), map_app in H.
  now apply NoDup_app_remove_r in H.
Qed.

Section Suited.

Variable HB : HBoard_view.
Hypothesis wf : wf_view HB.

Lemma flush_good : good_result HB (_flush HB).
Proof.
  unfold _flush.
  match goal with |- good_result _ (first_match ?t ?f ?l) =>
    destruct (first_match_inv t f l) as [[-> _] | (suit & _ & Ht & ->)] end;
    [exact I |].
  cbv beta. apply Nat.leb_le in Ht.
  set (in_suit := dict_get_default (v_suits HB) suit) in *.
  set (fl := filter (fun v => mem v in_suit) all_values).
  assert (Hin : forall v, In v fl <-> In v in_suit).
  { intros v. unfold fl. rewrite filter_In, mem_In. split; [tauto |].
    intros H. split; [| assumption]. now apply (suits_card wf) in H. }
  assert (Hfl : NoDup fl) by apply NoDup_filter, all_values_NoDup.
  assert (Hlen : length fl = length in_suit).
  { apply NoDup_same_length; auto. apply (suits_NoDup wf). }
  assert (Hn : NoDup (map (fun v => join [v; suit]) fl)).
  { apply NoDup_map_value; auto. intros v Hv. apply Hin in Hv.
    now apply (suits_card wf) in Hv. }
  assert (Ex : flush_loop suit in_suit all_values []
               = map (fun v => join [v; suit]) (firstn 5 fl)).
  { rewrite flush_loop_exact; [reflexivity | cbn [length]; lia | exact Hn]. }
  rewrite Ex.
  assert (H5 : length (map (fun v => join [v; suit]) (firstn 5 fl)) = 5).
  { rewrite length_map, firstn_length_le; lia. }
  split; [| apply length_nonempty with (n := 4); exact H5].
  repeat split.
  - now apply NoDup_firstn_map.
  - intros c Hc. apply in_map_iff in Hc. destruct Hc as [v [<- Hv]].
    apply in_firstn, Hin in Hv. rewrite join2. now apply (suits_card wf).
  - lia.
  - lia.
Qed.

Lemma straight_flush_good : good_result HB (_straight_flush HB).
Proof.
  unfold _straight_flush.
  destruct (truthy_str (v_pflush HB) && truthy_list (v_pstraight HB));
    [| exact I].
  cbv zeta.
  match goal with |- good_result _ (first_match ?t ?f ?l) =>
    destruct (first_match_inv t f l) as [[-> _] | (st & Hs & Ht & ->)] end;
    [exact I |].
  cbv beta. apply in_map_iff in Hs. destruct Hs as [i [<- Hi]].
  rewrite slice_map in *.
  assert (Hw : In (slice (all_values ++ ["A"]) i 5) window_values).
  { rewrite <- window_slices. apply in_map_iff. now exists i. }
  destruct (window_values_ok Hw) as (W1 & W2 & W3).
  set (w := slice (all_values ++ ["A"]) i 5) in *.
  match goal with
  | |- context [lower ?x] => set (psuit := lower x) in *
  end.
  assert (Hn : NoDup (map (fun value => join [value; psuit]) w))
    by now apply NoDup_map_value.
  rewrite set_of_list_fresh in * by exact Hn.
  apply issubset_incl in Ht.
  assert (H5 : length (map (fun value => join [value; psuit]) w) = 5)
    by now rewrite length_map.
  split; [| apply length_nonempty with (n := 4); exact H5].
  repeat split; auto; lia.
Qed.

End Suited.

(** ** Draws *)

Lemma draw_lt (n : nat) (r : rng) : 0 < n -> fst (draw n r) < n.
Proof.
  intros H. destruct r as [| x r]; simpl; [assumption |].
  apply Nat.mod_upper_bound. lia.
Qed.

Lemma bind_ret_fst (A B : Type) (m : Rand A) (g : A -> B) (r : rng) :
  fst ((x <- m ;; ret (g x)) r) = g (fst (m r)).
Proof. unfold bind, ret. destruct (m r). reflexivity. Qed.

Lemma mapM_cons (A B : Type) (f : A -> Rand B) (x : A) (xs : list A) (r : rng) :
  fst (mapM f (x :: xs) r)
  = fst (f x r) :: fst (mapM f xs (snd (f x r))).
Proof.
  simpl. unfold bind, ret. destruct (f x r) as [y r1]. simpl.
  destruct (mapM f xs r1). reflexivity.
Qed.

Lemma remove_nth_length (A : Type) (i : nat) (l : list A) :
  i < length l -> length (remove_nth i l) = length l - 1.
Proof.
  revert i. induction l as [| x l IH]; intros i H; simpl in *; [lia |].
  destruct i as [| i]; simpl; [lia |].
  rewrite IH by lia. destruct l; simpl in *; lia.
Qed.

Lemma remove_nth_In (A : Type) (i : nat) (l : list A) (x : A) :
  In x (remove_nth i l) -> In x l.
Proof.
  revert i. induction l as [| y l IH]; intros i H.
  - destruct i; destruct H.
  - destruct i as [| i]; simpl in *; [auto |].
    destruct H as [H | H]; eauto.
Qed.

Lemma remove_nth_fresh (A : Type) (i : nat) (l : list A) (d : A) :
  NoDup l -> i < length l -> ~ In (nth i l d) (remove_nth i l).
Proof.
  intros Hn. revert i. induction Hn as [| x l Hx Hl IH]; intros i H; simpl in *;
    [lia |].
  destruct i as [| i]; simpl; [assumption |].
  intros [E | Hin].
  - apply Hx. rewrite E. apply nth_In. lia.
  - apply (IH i); [lia | assumption].
Qed.

Lemma choice1_In (a : list string) (r : rng) :
  a <> [] -> In (fst (choice1 a r)) a.
Proof.
  intros H. unfold choice1. rewrite bind_ret_fst. apply nth_In, draw_lt.
  destruct a; [congruence | simpl; lia].
Qed.

Lemma choice2_spec (a : list string) (r : rng) :
  NoDup a -> 2 <= length a ->
  exists x y, fst (choice2 a r) = [x; y] /\ In x a /\ In y a /\ x <> y.
Proof.
  intros Hn Hl. unfold choice2, bind, ret.
  pose proof (draw_lt r (n := length a)) as Hi.
  destruct (draw (length a) r) as [i r1]. simpl in Hi.
  pose proof (draw_lt r1 (n := length a - 1)) as Hj.
  destruct (draw (length a - 1) r1) as [j r2]. simpl in Hj. simpl.
  assert (Hi' : i < length a) by (apply Hi; lia).
  assert (Hj' : j < length (remove_nth i a))
    by (rewrite remove_nth_length by exact Hi'; apply Hj; lia).
  exists (nth i a EmptyString), (nth j (remove_nth i a) EmptyString). repeat split.
  - now apply nth_In.
  - apply remove_nth_In with (i := i). now apply nth_In.
  - intros E. apply (remove_nth_fresh EmptyString Hn Hi'). rewrite E. now apply nth_In.
Qed.

(** ** Full house and straight *)

Lemma set_union_fresh (a b : pyset) : NoDup (a ++ b) -> set_union a b = a ++ b.
Proof.
  intros H. unfold set_union.
  rewrite (fold_add_fresh (fun x => x)); rewrite map_id; [reflexivity | exact H].
Qed.

Lemma settled_ret (HB : HBoard_view) (d : detected) :
  good_result HB d -> settled HB (ret d).
Proof.
  intros H. destruct d as [| bh]; [left | right]; intros r; simpl; auto.
  destruct H. exists bh. auto.
Qed.

Section Drawn.

Variable HB : HBoard_view.
Hypothesis wf : wf_view HB.

Lemma full_house_inner_spec (v1 : string) (vs : list string) :
  length (dict_get_default (v_values HB) v1) = 3 ->
  match full_house_inner HB v1 vs with
  | Some m => forall r, exists bh, fst (m r) = Made bh /\ good HB bh /\ bh <> []
  | None => True
  end.
Proof.
  intros H1. induction vs as [| v2 rest IH]; cbn [full_house_inner]; [exact I |].
  destruct ((2 <=? length (dict_get_default (v_values HB) v2))%nat
            && negb (String.eqb v2 v1)) eqn:E; [| exact IH].
  apply andb_true_iff in E. destruct E as [H2 Hne].
  apply Nat.leb_le in H2. apply negb_true_iff in Hne.
  apply String.eqb_neq in Hne.
  intros r. cbv zeta. rewrite bind_ret_fst.
  destruct (value_cards wf v1) as (T1 & T2 & T3 & T4). simpl in T1. rewrite T1.
  change (fun s : string => (v1 ++ s)%string) with (fun s : string => join [v1; s]).
  set (l1 := iter (dict_get_default (v_values HB) v1)).
  set (l2 := iter (dict_get_default (v_values HB) v2)).
  destruct (choice2_spec r (a := l2)) as (x & y & -> & Hx & Hy & Hxy).
  { apply iter_NoDup, (values_NoDup wf). }
  { unfold l2. now rewrite iter_length. }
  assert (Hv1 : In v1 all_values) by now apply (values_known wf) with (k := 2).
  assert (Hv2 : In v2 all_values).
  { unfold l2 in Hx. rewrite iter_In in Hx. now apply (values_card wf) in Hx. }
  assert (Hn : NoDup (map (fun s => join [v1; s]) l1
                        ++ map (fun s => join [v2; s]) [x; y])).
  { apply two_values_NoDup; auto.
    - apply iter_NoDup, (values_NoDup wf).
    - repeat constructor; simpl; intuition. }
  assert (Hp : set_of_list (map (fun suit => join [v2; suit]) [x; y])
               = map (fun s => join [v2; s]) [x; y]).
  { apply set_of_list_fresh. now apply NoDup_app_remove_l in Hn. }
  rewrite Hp, set_union_fresh by exact Hn.
  eexists. split; [reflexivity |].
  assert (H5 : length (map (fun s => join [v1; s]) l1
                         ++ map (fun s => join [v2; s]) [x; y]) = 5).
  { rewrite length_app, !length_map. unfold l1. rewrite iter_length, H1. reflexivity. }
  split; [| apply length_nonempty with (n := 4); exact H5].
  repeat split; auto; try lia.
  intros c Hc. apply in_app_or in Hc. rewrite !in_map_iff in Hc.
  destruct Hc as [[s [<- Hs]] | [s [<- Hs]]]; cbv beta; rewrite ?join2;
    apply (values_card wf).
  - unfold l1 in Hs. now rewrite iter_In in Hs.
  - unfold l2 in Hx, Hy. rewrite iter_In in Hx, Hy.
    destruct Hs as [<- | [<- | []]]; assumption.
Qed.

Lemma full_house_outer_settled (vs : list string) :
  settled HB (full_house_outer HB vs).
Proof.
  induction vs as [| v1 rest IH]; cbn [full_house_outer].
  - left. reflexivity.
  - destruct (length (dict_get_default (v_values HB) v1) =? 3)%nat eqn:E;
      [| exact IH].
    apply Nat.eqb_eq in E. pose proof (full_house_inner_spec v1 all_values E) as H.
    destruct (full_house_inner HB v1 all_values); [right; exact H | exact IH].
Qed.

Lemma full_house_settled : settled HB (_full_house HB).
Proof. apply full_house_outer_settled. Qed.

Lemma picked_spec (l : list string) (r : rng) :
  (forall v, In v l -> In v all_values /\ dict_get_default (v_values HB) v <> []) ->
  let picked :=
    fst (mapM (fun value =>
                 suit <- choice1 (iter (dict_get_default (v_values HB) value)) ;;
                 ret (join [value; suit])) l r) in
  map value_of picked = l /\ incl picked (v_cards HB).
Proof.
  revert r. induction l as [| v l IH]; intros r H; cbv zeta.
  - split; [reflexivity | intros c []].
  - rewrite mapM_cons, bind_ret_fst.
    destruct (H v (or_introl eq_refl)) as [Hv Hne].
    assert (Hs : In (fst (choice1 (iter (dict_get_default (v_values HB) v)) r))
                    (dict_get_default (v_values HB) v)).
    { rewrite <- iter_In. apply choice1_In. intros E. apply Hne.
      apply (f_equal (@length string)) in E. rewrite iter_length in E.
      destruct (dict_get_default (v_values HB) v); [reflexivity | discriminate]. }
    match goal with |- context [mapM ?f l ?r1] =>
      destruct (IH r1) as [I1 I2]; [intros w Hw; apply H; now right |]
    end.
    cbv zeta in I1, I2. split.
    + cbn [map]. rewrite I1, join2, value_of_value by exact Hv. reflexivity.
    + intros c [<- | Hc]; [| now apply I2].
      rewrite join2. now apply (values_card wf).
Qed.

Lemma straight_loop_settled (ps : list string) :
  (forall w, In w ps -> In w ten_windows) ->
  settled HB (straight_loop HB ps).
Proof.
  induction ps as [| w rest IH]; intros Hps; cbn [straight_loop].
  - left. reflexivity.
  - cbv zeta.
    destruct (issubset (set_of_list (chars w))
                       (set_of_list (dict_keys (v_values HB)))) eqn:E.
    + right. intros r. rewrite bind_ret_fst.
      assert (Hw : In (chars w) window_values).
      { apply in_map. apply Hps. now left. }
      destruct (window_values_ok Hw) as (W1 & W2 & W3).
      apply issubset_incl in E.
      destruct (picked_spec (chars w) r) as [P1 P2].
      { intros v Hv. split; [now apply W2 |].
        assert (Hk : In v (dict_keys (v_values HB))).
        { apply set_of_list_In, E, set_of_list_In, Hv. }
        apply dict_mem_keys, (ix_mem (wf_values wf)) in Hk.
        destruct Hk as (c & Hc & Hkey).
        assert (Hin : In (suit_of c) (dict_get_default (v_values HB) v)).
        { apply (ix_in (wf_values wf)). exists c. auto. }
        intros E0. rewrite E0 in Hin. destruct Hin. }
      cbv zeta in P1, P2.
      match goal with |- context [mapM ?f (chars w) r] =>
        set (picked := fst (mapM f (chars w) r)) in *
      end.
      assert (Hn : NoDup picked).
      { apply NoDup_map_inv with (f := value_of). now rewrite P1. }
      rewrite set_of_list_fresh by exact Hn.
      exists picked. split; [reflexivity |].
      assert (H5 : length picked = 5).
      { rewrite <- W3, <- P1. now rewrite length_map. }
      split; [| apply length_nonempty with (n := 4); exact H5].
      repeat split; auto; lia.
    + apply IH. intros w' Hw'. apply Hps. now right.
Qed.

Lemma straight_settled : settled HB (_straight HB).
Proof. apply straight_loop_settled, (wf_pstraight wf). Qed.

End Drawn.

(** ** The resolver *)

Lemma best_hand_loop_cons (HB : HBoard_view)
      (f : HBoard_view -> Rand detected) (name : string)
      (rest : list ((HBoard_view -> Rand detected) * string)) (r : rng) :
  best_hand_loop HB ((f, name) :: rest) r
  = if truthy (fst (f HB r))
    then ((fst (f HB (snd (f HB r))), name), snd (f HB (snd (f HB r))))
    else best_hand_loop HB rest (snd (f HB r)).
Proof.
  cbn [best_hand_loop]. unfold bind, ret. destruct (f HB r) as [d r1]. simpl.
  destruct (truthy d); [destruct (f HB r1) |]; reflexivity.
Qed.

Lemma nonempty_truthy (bh : pyset) : bh <> [] -> truthy (Made bh) = true.
Proof. destruct bh; [congruence | reflexivity]. Qed.

Lemma settled_truthy (HB : HBoard_view) (m : Rand detected) :
  settled HB m ->
  (forall r, truthy (fst (m r)) = false)
  \/ (forall r, truthy (fst (m r)) = true
                /\ exists bh, fst (m r) = Made bh /\ good HB bh).
Proof.
  intros [H | H]; [left | right]; intros r.
  - now rewrite H.
  - destruct (H r) as (bh & E & Hg & Hne). rewrite E. split.
    + now apply nonempty_truthy.
    + now exists bh.
Qed.

Lemma phands_settled (HB : HBoard_view) :
  wf_view HB -> Forall (fun fn => settled HB (fst fn HB)) phands.
Proof.
  intros wf.
  assert (H1 : settled HB (ret (_straight_flush HB)))
    by (apply settled_ret; now apply straight_flush_good).
  assert (H2 : settled HB (ret (_quads HB)))
    by (apply settled_ret; now apply quads_good).
  assert (H3 : settled HB (_full_house HB)) by now apply full_house_settled.
  assert (H4 : settled HB (ret (_flush HB)))
    by (apply settled_ret; now apply flush_good).
  assert (H5 : settled HB (_straight HB)) by now apply straight_settled.
  assert (H6 : settled HB (ret (_trips HB)))
    by (apply settled_ret; now apply trips_good).
  assert (H7 : settled HB (ret (_two_pair HB)))
    by (apply settled_ret; now apply two_pair_good).
  assert (H8 : settled HB (ret (_one_pair HB)))
    by (apply settled_ret; now apply one_pair_good).
  unfold phands.
  repeat (apply Forall_cons; [cbn beta iota delta [fst]; assumption |]).
  apply Forall_nil.
Qed.

Lemma best_hand_loop_good (HB : HBoard_view)
      (funcs : list ((HBoard_view -> Rand detected) * string)) :
  wf_view HB -> Forall (fun fn => settled HB (fst fn HB)) funcs ->
  forall r, exists bh,
    fst (fst (best_hand_loop HB funcs r)) = Made bh /\ good HB bh.
Proof.
  intros wf Hall. induction Hall as [| [f name] rest Hf Hrest IH]; intros r.
  - cbn [best_hand_loop]. unfold ret. cbn [fst].
    eexists. split; [reflexivity |].
    apply fill_hand_good; auto.
    + constructor.
    + intros c [].
    + lia.
  - rewrite best_hand_loop_cons. cbn [fst] in Hf.
    destruct (settled_truthy Hf) as [H | H].
    + rewrite H. apply IH.
    + destruct (H r) as [-> _]. cbn [fst]. apply H.
Qed.

Lemma best_hand_good (HB : HBoard_view) (r : rng) :
  wf_view HB ->
  exists bh, fst (fst (_best_hand HB r)) = Made bh /\ good HB bh.
Proof.
  intros wf. apply best_hand_loop_good; [exact wf | now apply phands_settled].
Qed.

(** ** What the constructors establish *)

Lemma str_to_set_loop_spec (deck : pyset) (cards_str : string)
      (range : list nat) (acc s : pyset) :
  str_to_set_loop deck cards_str range acc = OK s ->
  s = fold_left (fun a i => set_add (token cards_str i) a) range acc
  /\ forall i, In i range -> In (token cards_str i) deck.
Proof.
  revert acc. induction range as [| i rest IH]; intros acc H; simpl in *.
  - inversion H. split; [reflexivity | intros i []].
  - destruct (mem (token cards_str i) deck) eqn:E; simpl in H; [| discriminate].
    apply IH in H. destruct H as [H1 H2]. split; [assumption |].
    intros j [<- | Hj]; [now apply mem_In | auto].
Qed.

Lemma str_to_set_loop_ok (deck : pyset) (cards_str : string)
      (range : list nat) (acc : pyset) :
  (forall i, In i range -> In (token cards_str i) deck) ->
  str_to_set_loop deck cards_str range acc
  = OK (fold_left (fun a i => set_add (token cards_str i) a) range acc).
Proof.
  revert acc. induction range as [| i rest IH]; intros acc H; simpl.
  - reflexivity.
  - assert (E : mem (token cards_str i) deck = true)
      by (apply mem_In, H; now left).
    rewrite E. simpl. apply IH. intros j Hj. apply H. now right.
Qed.

Lemma fold_tokens (cards_str : string) (range : list nat) (acc : pyset) :
  fold_left (fun a i => set_add (token cards_str i) a) range acc
  = fold_left (fun a x => set_add x a) (map (token cards_str) range) acc.
Proof.
  revert acc. induction range as [| i rest IH]; intros acc; simpl; auto.
Qed.

Lemma str_to_set_spec (cards_str : string) (s : pyset) :
  _str_to_set cards_str = OK s ->
  String.length cards_str mod 2 = 0
  /\ s = set_of_list (tokens cards_str)
  /\ forall c, In c (tokens cards_str) -> In c deck52.
Proof.
  unfold _str_to_set. cbv zeta.
  destruct (Nat.eqb_spec (String.length cards_str mod 2) 0) as [E | E];
    simpl; [| discriminate].
  intros H. apply str_to_set_loop_spec in H. destruct H as [H1 H2].
  split; [assumption |]. split.
  - rewrite H1. apply fold_tokens.
  - intros c Hc. unfold tokens in Hc. apply in_map_iff in Hc.
    destruct Hc as [i [<- Hi]]. apply gen_deck_In. auto.
Qed.

Lemma valid_set_loop_spec (deck : pyset) (l : list string) :
  (valid_set_loop deck l = OK true /\ forall c, In c l -> In c deck)
  \/ (valid_set_loop deck l = Err InvalidCardsSet
      /\ exists c, In c l /\ ~ In c deck).
Proof.
  induction l as [| c l IH]; simpl.
  - left. split; [reflexivity | intros c []].
  - destruct (mem c deck) eqn:E; simpl.
    + apply mem_In in E. destruct IH as [[H1 H2] | [H1 (x & Hx & Hn)]].
      * left. split; [assumption | intros x [<- | Hx]; auto].
      * right. split; [assumption |]. exists x. auto.
    + apply mem_false in E. right. split; [reflexivity |]. exists c. auto.
Qed.

Lemma valid_set_spec (s : pyset) :
  (_valid_set s = OK true /\ forall c, In c s -> In c deck52)
  \/ (_valid_set s = Err InvalidCardsSet /\ exists c, In c s /\ ~ In c deck52).
Proof.
  unfold _valid_set.
  destruct (valid_set_loop_spec _gen_deck (iter s)) as [[H1 H2] | [H1 (c & Hc & Hn)]].
  - left. split; [assumption |]. intros c Hc. apply gen_deck_In, H2, iter_In, Hc.
  - right. split; [assumption |]. exists c. rewrite iter_In in Hc.
    rewrite gen_deck_In in Hn. auto.
Qed.

Lemma valid_set_ok (s : pyset) (b : bool) :
  _valid_set s = OK b -> forall c, In c s -> In c deck52.
Proof.
  intros H. destruct (valid_set_spec s) as [[_ H2] | [H1 _]]; [assumption |].
  congruence.
Qed.

Lemma as_set_NoDup (x : arg) (s : pyset) :
  wf_arg x -> as_set x = OK s -> NoDup s.
Proof.
  destruct x as [str | l]; simpl; intros Hw H.
  - apply str_to_set_spec in H. destruct H as (_ & -> & _).
    apply set_of_list_NoDup.
  - inversion H. now subst.
Qed.

Lemma Cards_init_set (s : pyset) (C : Cards) :
  Cards_init (PySet s) = OK C ->
  C = mkCards s (_gen_values s) (_gen_suits s)
  /\ forall c, In c s -> In c deck52.
Proof.
  unfold Cards_init. simpl. destruct (_valid_set s) as [b | e] eqn:E; simpl;
    [| discriminate].
  intros H. inversion H. split; [reflexivity |]. now apply valid_set_ok with (b := b).
Qed.

Lemma pstraight_windows (board : pyset) (w : string) :
  In w (_pstraight board) -> In w ten_windows.
Proof.
  unfold _pstraight. cbv zeta. rewrite window_slices. intros H.
  apply in_map_iff in H. destruct H as [x [<- Hx]]. apply filter_In in Hx.
  destruct Hx as [Hx _].
  replace ten_windows with (map join window_values) by (vm_compute; reflexivity).
  now apply in_map.
Qed.

Lemma bindR_OK (A B : Type) (x : result A) (f : A -> result B) (b : B) :
  bindR x f = OK b -> exists a, x = OK a /\ f a = OK b.
Proof. destruct x as [a | e]; simpl; [eauto | discriminate]. Qed.

Lemma view_init_wf (hand flop turn river : arg) (HB : HBoard_view) :
  wf_arg hand ->
  HBoard_view_init hand flop turn river = OK HB -> wf_view HB.
Proof.
  intros Hw H. unfold HBoard_view_init in H.
  apply bindR_OK in H. destruct H as (h & Eh & H).
  apply bindR_OK in H. destruct H as (f & Ef & H).
  apply bindR_OK in H. destruct H as (b0 & Ev & H).
  apply bindR_OK in H. destruct H as (Hd & EH & H).
  cbv zeta in H.
  apply bindR_OK in H. destruct H as ([[[a b] t] rv] & Es & H).
  apply bindR_OK in H. destruct H as (C & EC & H).
  apply Cards_init_set in EC. destruct EC as [-> Hdeck].
  cbn [cards values suits] in H. inversion H; subst HB; clear H.
  assert (Hh : NoDup h) by now apply as_set_NoDup with (x := hand).
  assert (Ha : NoDup a).
  { destruct (truthy_arg turn).
    - apply bindR_OK in Es. destruct Es as (tn & Et & Es).
      apply bindR_OK in Es. destruct Es as (b1 & Evt & Es).
      destruct (truthy_arg river).
      + apply bindR_OK in Es. destruct Es as (rn & Er & Es).
        apply bindR_OK in Es. destruct Es as (b2 & Evr & Es).
        inversion Es; subst. repeat apply set_union_NoDup. exact Hh.
      + inversion Es; subst. repeat apply set_union_NoDup. exact Hh.
    - inversion Es; subst. apply set_union_NoDup. exact Hh. }
  constructor; cbn [v_cards v_values v_suits v_pstraight].
  - exact Ha.
  - exact Hdeck.
  - apply gen_values_spec.
  - apply gen_suits_spec.
  - apply pstraight_windows.
Qed.

(** ** The best hand is drawn from the cards and has five of them *)

(** C1.  For every aggregate the constructor accepts, the best hand is a
    set of cards (no card twice) taken from the aggregate's cards, of size
    at most 5, and of size below 5 only when the aggregate itself holds
    fewer than 5 cards. *)
Theorem best_hand_subset_size (hand flop turn river : arg) (r : rng)
        (hb : HBoard) :
  wf_arg hand ->
  fst (HBoard_init hand flop turn river r) = OK hb ->
  exists bh,
    best_hand hb = Made bh
    /\ NoDup bh
    /\ incl bh (v_cards (view hb))
    /\ length bh <= 5
    /\ (length bh < 5 -> length (v_cards (view hb)) < 5).
Proof.
  intros Hw H. unfold HBoard_init in H.
  destruct (HBoard_view_init hand flop turn river) as [HB | e] eqn:E;
    [| discriminate].
  apply view_init_wf in E; [| exact Hw].
  destruct (best_hand_good r E) as (bh & Hbh & Hg).
  unfold bind, ret in H. destruct (_best_hand HB r) as [[made name] r'].
  cbn [fst snd] in H, Hbh. inversion H; subst hb; clear H. cbn [best_hand view].
  exists bh. split; [assumption | exact Hg].
Qed.

(** ** The detectors are tried from the strongest category down *)

Lemma detectors_settled (HB : HBoard_view) :
  wf_view HB ->
  settled HB (pure _straight_flush HB) /\ settled HB (pure _quads HB)
  /\ settled HB (_full_house HB) /\ settled HB (pure _flush HB)
  /\ settled HB (_straight HB) /\ settled HB (pure _trips HB)
  /\ settled HB (pure _two_pair HB) /\ settled HB (pure _one_pair HB).
Proof.
  intros wf. pose proof (phands_settled wf) as H. unfold phands in H.
  repeat match type of H with
         | Forall _ (_ :: _) =>
             let Hx := fresh "Hx" in
             let Hr := fresh "Hr" in
             inversion H as [| ? ? Hx Hr]; subst; clear H; rename Hr into H;
             cbn beta iota delta [fst] in Hx
         end.
  unfold pure. repeat split; assumption.
Qed.

Lemma settled_cases (HB : HBoard_view) (f : HBoard_view -> Rand detected) :
  settled HB (f HB) ->
  miss f HB \/ (forall r, truthy (fst (f HB r)) = true).
Proof.
  intros H. destruct (settled_truthy H) as [M | T]; [now left | right].
  intros r. apply T.
Qed.

Ltac resolver_step f H Eo :=
  rewrite best_hand_loop_cons in Eo;
  let M := fresh "M" in
  let T := fresh "T" in
  destruct (@settled_cases _ f H) as [M | T];
  [ pose proof M as M'; unfold miss in M'; rewrite M' in Eo; clear M'; right
  | rewrite T in Eo; cbn [fst] in Eo; left; repeat (split; [assumption |]);
    eexists; exact Eo ].

(** C2.  On a valid aggregate the resolver returns the result and the
    label of the first detector that matches, the detectors being taken in
    the order Straight Flush, Four of a Kind, Full House, Flush, Straight,
    Three of a Kind, Two Pair, Pair; with no match it returns the five
    best cards and the label "none".  In particular a straight flush that
    is detected is what is returned. *)
Theorem detectors_descending_order (hand flop turn river : arg)
        (HB : HBoard_view) (r : rng) :
  wf_arg hand ->
  HBoard_view_init hand flop turn river = OK HB ->
  let out := fst (_best_hand HB r) in
  (hit (pure _straight_flush) "Straight Flush" HB out
   \/ (miss (pure _straight_flush) HB
       /\ hit (pure _quads) "Four of a Kind" HB out)
   \/ (miss (pure _straight_flush) HB /\ miss (pure _quads) HB
       /\ hit _full_house "Full House" HB out)
   \/ (miss (pure _straight_flush) HB /\ miss (pure _quads) HB
       /\ miss _full_house HB
       /\ hit (pure _flush) "Flush" HB out)
   \/ (miss (pure _straight_flush) HB /\ miss (pure _quads) HB
       /\ miss _full_house HB /\ miss (pure _flush) HB
       /\ hit _straight "Straight" HB out)
   \/ (miss (pure _straight_flush) HB /\ miss (pure _quads) HB
       /\ miss _full_house HB /\ miss (pure _flush) HB /\ miss _straight HB
       /\ hit (pure _trips) "Three of a Kind" HB out)
   \/ (miss (pure _straight_flush) HB /\ miss (pure _quads) HB
       /\ miss _full_house HB /\ miss (pure _flush) HB /\ miss _straight HB
       /\ miss (pure _trips) HB
       /\ hit (pure _two_pair) "Two Pair" HB out)
   \/ (miss (pure _straight_flush) HB /\ miss (pure _quads) HB
       /\ miss _full_house HB /\ miss (pure _flush) HB /\ miss _straight HB
       /\ miss (pure _trips) HB /\ miss (pure _two_pair) HB
       /\ hit (pure _one_pair) "Pair" HB out)
   \/ (miss (pure _straight_flush) HB /\ miss (pure _quads) HB
       /\ miss _full_house HB /\ miss (pure _flush) HB /\ miss _straight HB
       /\ miss (pure _trips) HB /\ miss (pure _two_pair) HB
       /\ miss (pure _one_pair) HB
       /\ out = (Made (_fill_hand (v_values HB) [] 5), "none")))
  /\ (truthy (_straight_flush HB) = true ->
      out = (_straight_flush HB, "Straight Flush")).
Proof.
  intros Hw Hinit. apply view_init_wf in Hinit; [| exact Hw].
  destruct (detectors_settled Hinit)
    as (H1 & H2 & H3 & H4 & H5 & H6 & H7 & H8).
  cbv zeta. split.
  - remember (fst (_best_hand HB r)) as out eqn:Eo.
    unfold _best_hand, phands in Eo.
    change (fun HB0 => ret (_straight_flush HB0)) with (pure _straight_flush) in Eo.
    change (fun HB0 => ret (_quads HB0)) with (pure _quads) in Eo.
    change (fun HB0 => ret (_flush HB0)) with (pure _flush) in Eo.
    change (fun HB0 => ret (_trips HB0)) with (pure _trips) in Eo.
    change (fun HB0 => ret (_two_pair HB0)) with (pure _two_pair) in Eo.
    change (fun HB0 => ret (_one_pair HB0)) with (pure _one_pair) in Eo.
    resolver_step (pure _straight_flush) H1 Eo.
    resolver_step (pure _quads) H2 Eo.
    resolver_step _full_house H3 Eo.
    resolver_step (pure _flush) H4 Eo.
    resolver_step _straight H5 Eo.
    resolver_step (pure _trips) H6 Eo.
    resolver_step (pure _two_pair) H7 Eo.
    resolver_step (pure _one_pair) H8 Eo.
    repeat (split; [assumption |]). exact Eo.
  - intros Hsf. unfold _best_hand, phands. rewrite best_hand_loop_cons.
    unfold ret at 1 2 3. cbn [fst snd]. rewrite Hsf. reflexivity.
Qed.

(** ** What depends on the draws *)

Lemma phands_draws (HB : HBoard_view) : Forall (draws_only_in_two HB) phands.
Proof.
  unfold phands, draws_only_in_two.
  repeat (apply Forall_cons;
          [cbn [fst snd];
           first [ left; reflexivity
                 | right; left; reflexivity
                 | right; right; intros; reflexivity ] |]).
  apply Forall_nil.
Qed.

Lemma best_hand_loop_det (HB : HBoard_view)
      (funcs : list ((HBoard_view -> Rand detected) * string)) :
  Forall (fun fn => settled HB (fst fn HB)) funcs ->
  Forall (draws_only_in_two HB) funcs ->
  forall r1 r2,
    snd (fst (best_hand_loop HB funcs r1)) = snd (fst (best_hand_loop HB funcs r2))
    /\ (fst (fst (best_hand_loop HB funcs r1))
        = fst (fst (best_hand_loop HB funcs r2))
        \/ snd (fst (best_hand_loop HB funcs r1)) = "Full House"
        \/ snd (fst (best_hand_loop HB funcs r1)) = "Straight").
Proof.
  intros Hs. induction Hs as [| [f name] rest Hf Hrest IH]; intros Hd r1 r2.
  - cbn [best_hand_loop]. unfold ret. cbn [fst snd].
    split; [reflexivity | left; reflexivity].
  - inversion Hd as [| ? ? Hd1 Hd2]; subst. rewrite !best_hand_loop_cons.
    cbn [fst] in Hf. destruct (settled_truthy Hf) as [M | T].
    + rewrite !M. now apply IH.
    + rewrite (proj1 (T r1)), (proj1 (T r2)). cbn [fst snd].
      split; [reflexivity |]. unfold draws_only_in_two in Hd1. cbn [fst snd] in Hd1.
      destruct Hd1 as [-> | [-> | Hp]]; auto.
Qed.

(** ** Potential straights *)

Lemma map_filter_comm (A B : Type) (f : A -> B) (P : A -> bool) (Q : B -> bool)
      (l : list A) :
  (forall x, In x l -> P x = Q (f x)) ->
  map f (filter P l) = filter Q (map f l).
Proof.
  induction l as [| x l IH]; intros H; simpl; [reflexivity |].
  rewrite <- (H x (or_introl eq_refl)).
  destruct (P x); simpl; rewrite IH; auto; intros y Hy; apply H; now right.
Qed.

Lemma filter_none (A : Type) (P : A -> bool) (l : list A) :
  (forall x, In x l -> P x = false) -> filter P l = [].
Proof.
  induction l as [| x l IH]; intros H; cbn [filter]; [reflexivity |].
  rewrite (H x (or_introl eq_refl)). apply IH. intros y Hy. apply H. now right.
Qed.

Lemma chars_join_window (x : list string) :
  In x window_values -> chars (join x) = x.
Proof.
  intros H. vm_compute in H.
  repeat (destruct H as [<- | H]; [reflexivity |]). destruct H.
Qed.

Lemma present_spec (board : pyset) (v : string) :
  present board v = true <-> exists c, In c board /\ value_of c = v.
Proof.
  unfold present. rewrite existsb_exists.
  split; intros [c [H1 H2]]; exists c; split; auto.
  - now apply String.eqb_eq.
  - now apply String.eqb_eq.
Qed.

Lemma window_inter_hits (board : pyset) (x : list string) :
  In x window_values ->
  length (set_inter (set_of_list (dict_keys (_gen_values board))) (set_of_list x))
  = window_hits board (join x).
Proof.
  intros Hx. unfold window_hits. rewrite (chars_join_window Hx).
  destruct (window_values_ok Hx) as (Hn & _ & _).
  rewrite (set_of_list_fresh Hn). unfold set_inter.
  apply NoDup_same_length.
  - apply NoDup_filter, set_of_list_NoDup.
  - now apply NoDup_filter.
  - intros v. rewrite !filter_In, mem_In, set_of_list_In, present_spec.
    rewrite <- dict_mem_keys, (ix_mem (gen_values_spec board)). tauto.
Qed.

Lemma pstraight_spec (board : pyset) :
  _pstraight board = filter (fun w => (3 <=? window_hits board w)%nat) ten_windows.
Proof.
  unfold _pstraight. cbv zeta. rewrite window_slices.
  replace ten_windows with (map join window_values) by (vm_compute; reflexivity).
  apply map_filter_comm. intros x Hx. now rewrite window_inter_hits.
Qed.

(** C8.  The potential straights of a board are exactly those of the ten
    windows, in the order from the ace-high one down to the five-high one,
    of which at least three values occur on the board; each is the string
    of its five values, highest first, and the ten windows are the
    5-value windows of the 14-symbol rank sequence.  With no such window
    the list is empty. *)
Theorem pstraight_windows_with_three_values (board : pyset) :
  (forall c, In c board -> In c _gen_deck) ->
  _pstraight board
  = filter (fun w => (3 <=? window_hits board w)%nat) ten_windows
  /\ ten_windows
     = map (fun k => join (rev (slice rank_sequence (9 - k) 5))) (seq 0 10)
  /\ ((forall w, In w ten_windows -> window_hits board w < 3) ->
      _pstraight board = []).
Proof.
  intros _. split; [apply pstraight_spec |]. split; [vm_compute; reflexivity |].
  intros H. rewrite pstraight_spec. apply filter_none.
  intros w Hw. apply Nat.leb_gt. now apply H.
Qed.

(** ** Building an aggregate from four sets *)

Lemma valid_set_pass (l : pyset) : all_in_deck l = true -> _valid_set l = OK true.
Proof.
  intros H. unfold all_in_deck in H. rewrite forallb_forall in H.
  destruct (valid_set_spec l) as [[E _] | [_ (c & Hc & Hn)]]; [assumption |].
  exfalso. apply Hn. apply mem_In. auto.
Qed.

Lemma Cards_init_pass (l : pyset) :
  all_in_deck l = true ->
  Cards_init (PySet l) = OK (mkCards l (_gen_values l) (_gen_suits l)).
Proof.
  intros H. unfold Cards_init. cbn [as_set bindR]. rewrite valid_set_pass by assumption.
  reflexivity.
Qed.

Lemma Hand_init_pass (l : pyset) :
  all_in_deck l = true -> length l = 2 ->
  Hand_init (PySet l)
  = OK (mkHand (mkCards l (_gen_values l) (_gen_suits l)) l
               (_pair (_gen_values l)) (_suited (_gen_suits l)) (_connected l)).
Proof.
  intros H H2. unfold Hand_init. cbn [as_set bindR].
  rewrite valid_set_pass by assumption. cbn [bindR]. rewrite H2. cbn [Nat.eqb negb].
  rewrite Cards_init_pass by assumption. reflexivity.
Qed.

Lemma view_init_sets (h f t rv : pyset) :
  all_in_deck (set_union (set_union (set_union h f) t) rv) = true ->
  length h = 2 -> t <> [] -> rv <> [] ->
  let all_cards := set_union (set_union (set_union h f) t) rv in
  let board := set_union (set_union f t) rv in
  HBoard_view_init (PySet h) (PySet f) (PySet t) (PySet rv)
  = OK (mkView (mkHand (mkCards h (_gen_values h) (_gen_suits h)) h
                       (_pair (_gen_values h)) (_suited (_gen_suits h))
                       (_connected h))
               all_cards (_gen_values all_cards) (_gen_suits all_cards)
               (PySet f) (PySet t) (PySet rv) board
               (_pstraight board) (_pflush board)).
Proof.
  intros Hall H2 Ht Hr. cbv zeta.
  assert (Hsub : forall a b, all_in_deck (set_union a b) = true ->
                             all_in_deck a = true /\ all_in_deck b = true).
  { intros a b H. unfold all_in_deck in *. rewrite forallb_forall in H.
    split; apply forallb_forall; intros c Hc; apply H, set_union_In; auto. }
  destruct (Hsub _ _ Hall) as [Hhft Hrv].
  destruct (Hsub _ _ Hhft) as [Hhf Htn].
  destruct (Hsub _ _ Hhf) as [Hh Hf].
  unfold HBoard_view_init. cbn [as_set bindR].
  rewrite valid_set_pass by assumption. cbn [bindR].
  rewrite Hand_init_pass by assumption. cbn [bindR].
  destruct t as [| t0 t]; [congruence |]. destruct rv as [| r0 rv]; [congruence |].
  cbn [truthy_arg as_set bindR].
  rewrite valid_set_pass by assumption. cbn [bindR].
  rewrite valid_set_pass by assumption. cbn [bindR].
  rewrite Cards_init_pass by assumption. reflexivity.
Qed.

(** ** Reading an index whatever the order of enumeration *)

Lemma canon_values_spec (l : pyset) :
  index_spec value_of suit_of l (canon_values l).
Proof. apply (index_fold_spec l (index_spec_nil value_of suit_of)). Qed.

Lemma canon_suits_spec (l : pyset) :
  index_spec suit_of value_of l (canon_suits l).
Proof. apply (index_fold_spec l (index_spec_nil suit_of value_of)). Qed.

Lemma index_spec_keys (key item : string -> string) (l : list string)
      (d d' : dict) (k : string) :
  index_spec key item l d -> index_spec key item l d' ->
  In k (dict_keys d) -> In k (dict_keys d').
Proof.
  intros H H' Hk. apply dict_mem_keys. apply dict_mem_keys in Hk.
  apply (ix_mem H'). now apply (ix_mem H).
Qed.

Lemma index_spec_single (key item : string -> string) (l : list string)
      (d d' : dict) (k s : string) :
  index_spec key item l d -> index_spec key item l d' ->
  dict_get_default d' k = [s] -> dict_get_default d k = [s].
Proof.
  intros H H' E.
  assert (P : Permutation [s] (dict_get_default d k)).
  { rewrite <- E. apply NoDup_Permutation.
    - apply (ix_nodup H').
    - apply (ix_nodup H).
    - intros x. rewrite (ix_in H), (ix_in H'). reflexivity. }
  now apply Permutation_length_1_inv in P.
Qed.

Lemma iter_single (s : string) : iter [s] = [s].
Proof. apply Permutation_length_1_inv, Permutation_sym, iter_perm. Qed.

Lemma choice1_single (s : string) (r : rng) : fst (choice1 [s] r) = s.
Proof.
  unfold choice1. rewrite bind_ret_fst. destruct r as [| x r]; simpl; [reflexivity |].
  destruct (x mod 1) eqn:E; [reflexivity |].
  pose proof (Nat.mod_upper_bound x 1). lia.
Qed.

Lemma first_match_none (A : Type) (test : A -> bool) (found : A -> detected)
      (xs : list A) :
  (forall x, In x xs -> test x = false) -> first_match test found xs = PFalse.
Proof.
  induction xs as [| x xs IH]; intros H; cbn [first_match]; [reflexivity |].
  rewrite (H x (or_introl eq_refl)). apply IH. intros y Hy. apply H. now right.
Qed.

Section Canon.

Variable HB : HBoard_view.
Variable cs : pyset.
Hypothesis Hv : index_spec value_of suit_of cs (v_values HB).
Hypothesis Hs : index_spec suit_of value_of cs (v_suits HB).

Lemma values_len (k : string) :
  length (dict_get_default (v_values HB) k)
  = length (dict_get_default (canon_values cs) k).
Proof. apply index_spec_length with (1 := Hv), canon_values_spec. Qed.

Lemma suits_len (k : string) :
  length (dict_get_default (v_suits HB) k)
  = length (dict_get_default (canon_suits cs) k).
Proof. apply index_spec_length with (1 := Hs), canon_suits_spec. Qed.

Lemma quads_none :
  forallb (fun k => negb (length (dict_get_default (canon_values cs) k) =? 4)%nat)
          (dict_keys (canon_values cs)) = true ->
  _quads HB = PFalse.
Proof.
  intros H. rewrite forallb_forall in H. unfold _quads. cbv zeta.
  apply first_match_none. intros k Hk. rewrite values_len.
  apply negb_true_iff, H.
  apply index_spec_keys with (1 := Hv) (2 := canon_values_spec cs), Hk.
Qed.

Lemma flush_none :
  forallb (fun k => negb (5 <=? length (dict_get_default (canon_suits cs) k))%nat)
          (dict_keys (canon_suits cs)) = true ->
  _flush HB = PFalse.
Proof.
  intros H. rewrite forallb_forall in H. unfold _flush.
  apply first_match_none. intros k Hk. rewrite suits_len.
  apply negb_true_iff, H.
  apply index_spec_keys with (1 := Hs) (2 := canon_suits_spec cs), Hk.
Qed.

Lemma full_house_outer_none (vs : list string) (r : rng) :
  forallb (fun v => negb (length (dict_get_default (canon_values cs) v) =? 3)%nat)
          vs = true ->
  full_house_outer HB vs r = (PFalse, r).
Proof.
  induction vs as [| v vs IH]; intros H; cbn [full_house_outer]; [reflexivity |].
  cbn [forallb] in H. apply andb_true_iff in H. destruct H as [H1 H2].
  rewrite values_len. apply negb_true_iff in H1. rewrite H1. now apply IH.
Qed.

Lemma picked_single (l : list string) (r : rng) :
  forallb (fun v => (length (dict_get_default (canon_values cs) v) =? 1)%nat) l
  = true ->
  fst (mapM (fun value =>
               suit <- choice1 (iter (dict_get_default (v_values HB) value)) ;;
               ret (join [value; suit])) l r)
  = map (fun v => join [v; hd EmptyString (dict_get_default (canon_values cs) v)]) l.
Proof.
  revert r. induction l as [| v l IH]; intros r H; [reflexivity |].
  cbn [forallb] in H. apply andb_true_iff in H. destruct H as [H1 H2].
  rewrite mapM_cons, bind_ret_fst, IH by exact H2. cbn [map]. f_equal.
  apply Nat.eqb_eq in H1.
  destruct (dict_get_default (canon_values cs) v) as [| s [| s' rest]] eqn:E;
    try discriminate.
  rewrite (index_spec_single v Hv (canon_values_spec cs) E).
  rewrite iter_single, choice1_single. reflexivity.
Qed.

Lemma straight_first (w : string) (rest : list string) (r : rng) :
  v_pstraight HB = w :: rest ->
  forallb (fun v => dict_mem (canon_values cs) v) (chars w) = true ->
  forallb (fun v => (length (dict_get_default (canon_values cs) v) =? 1)%nat)
          (chars w) = true ->
  fst (_straight HB r)
  = Made (set_of_list
            (map (fun v => join [v; hd EmptyString
                                       (dict_get_default (canon_values cs) v)])
                 (chars w))).
Proof.
  intros E Hk H1. unfold _straight. rewrite E. cbn [straight_loop]. cbv zeta.
  assert (Hsub : issubset (set_of_list (chars w))
                          (set_of_list (dict_keys (v_values HB))) = true).
  { apply issubset_incl. intros v Hin. rewrite set_of_list_In in Hin.
    rewrite set_of_list_In.
    rewrite forallb_forall in Hk. specialize (Hk v Hin).
    apply dict_mem_keys in Hk.
    apply index_spec_keys with (1 := canon_values_spec cs) (2 := Hv), Hk. }
  rewrite Hsub, bind_ret_fst, picked_single by exact H1. reflexivity.
Qed.

End Canon.

Lemma pflush_loop_none (suits : dict) (keys : list string) :
  (forall k, In k keys ->
             (3 <=? length (dict_get_default suits k))%nat = false) ->
  pflush_loop suits keys = None.
Proof.
  induction keys as [| k keys IH]; intros H; cbn [pflush_loop]; [reflexivity |].
  rewrite (H k (or_introl eq_refl)). apply IH. intros k' Hk'. apply H. now right.
Qed.

Lemma pflush_none (board : pyset) :
  forallb (fun k => negb (3 <=? length (dict_get_default (canon_suits board) k))%nat)
          (dict_keys (canon_suits board)) = true ->
  _pflush board = None.
Proof.
  intros H. rewrite forallb_forall in H. unfold _pflush. cbv zeta.
  apply pflush_loop_none. intros k Hk.
  rewrite (index_spec_length k (gen_suits_spec board) (canon_suits_spec board)).
  apply negb_true_iff, H.
  apply index_spec_keys with (1 := gen_suits_spec board)
                             (2 := canon_suits_spec board), Hk.
Qed.

(** ** The aggregate of the class's docstring *)

(** C3.  Hand Kh Td, flop 5h 7d 9c, turn Js, river Qh: the potential
    straights are exactly KQJT9, QJT98, JT987 and 98765, there is no
    potential flush, and the best hand is the straight Kh Qh Js Td 9c,
    whatever the order of enumeration and the draws. *)
Theorem docstring_scenario (r : rng) :
  exists hb,
    fst (HBoard_init (PySet ["Kh"; "Td"]) (PySet ["5h"; "7d"; "9c"])
                     (PySet ["Js"]) (PySet ["Qh"]) r) = OK hb
    /\ v_pstraight (view hb) = ["KQJT9"; "QJT98"; "JT987"; "98765"]
    /\ v_pflush (view hb) = None
    /\ (exists bh, best_hand hb = Made bh /\ NoDup bh
                   /\ forall c, In c bh <-> In c ["Kh"; "Js"; "Td"; "Qh"; "9c"])
    /\ best_hand_type hb = "Straight".
Proof.
  unfold HBoard_init.
  rewrite view_init_sets;
    [| vm_compute; reflexivity | reflexivity | discriminate | discriminate ].
  cbv zeta.
  replace (set_union (set_union (set_union ["Kh"; "Td"] ["5h"; "7d"; "9c"]) ["Js"])
                     ["Qh"])
    with ["Kh"; "Td"; "5h"; "7d"; "9c"; "Js"; "Qh"] by (vm_compute; reflexivity).
  replace (set_union (set_union ["5h"; "7d"; "9c"] ["Js"]) ["Qh"])
    with ["5h"; "7d"; "9c"; "Js"; "Qh"] by (vm_compute; reflexivity).
  set (cs := ["Kh"; "Td"; "5h"; "7d"; "9c"; "Js"; "Qh"]).
  set (board := ["5h"; "7d"; "9c"; "Js"; "Qh"]).
  assert (Eps : _pstraight board = ["KQJT9"; "QJT98"; "JT987"; "98765"]).
  { rewrite pstraight_spec. vm_compute. reflexivity. }
  assert (Epf : _pflush board = None).
  { apply pflush_none. vm_compute. reflexivity. }
  rewrite Eps, Epf.
  match goal with |- context [_best_hand ?hb] => set (HB := hb) end.
  assert (Hv : index_spec value_of suit_of cs (v_values HB))
    by apply gen_values_spec.
  assert (Hs : index_spec suit_of value_of cs (v_suits HB))
    by apply gen_suits_spec.
  assert (E1 : _straight_flush HB = PFalse) by reflexivity.
  assert (E2 : _quads HB = PFalse).
  { apply quads_none with (cs := cs); [exact Hv | vm_compute; reflexivity]. }
  assert (E3 : forall r0, _full_house HB r0 = (PFalse, r0)).
  { intros r0. apply full_house_outer_none with (cs := cs);
      [exact Hv | vm_compute; reflexivity]. }
  assert (E4 : _flush HB = PFalse).
  { apply flush_none with (cs := cs); [exact Hs | vm_compute; reflexivity]. }
  assert (E5 : forall r0, fst (_straight HB r0)
                          = Made ["Kh"; "Qh"; "Js"; "Td"; "9c"]).
  { intros r0.
    rewrite straight_first with (cs := cs) (w := "KQJT9")
                                (rest := ["QJT98"; "JT987"; "98765"]);
      [vm_compute; reflexivity | exact Hv | reflexivity
       | vm_compute; reflexivity | vm_compute; reflexivity]. }
  unfold bind at 1. unfold _best_hand, phands.
  rewrite best_hand_loop_cons. unfold ret at 1 2 3. cbn [fst snd].
  rewrite E1. cbn [truthy].
  rewrite best_hand_loop_cons. unfold ret at 1 2 3. cbn [fst snd].
  rewrite E2. cbn [truthy].
  rewrite best_hand_loop_cons, !E3. cbn [fst snd truthy].
  rewrite best_hand_loop_cons. unfold ret at 1 2 3. cbn [fst snd].
  rewrite E4. cbn [truthy].
  rewrite best_hand_loop_cons, !E5. cbn [fst snd truthy ret].
  eexists. split; [reflexivity |].
  cbn [view best_hand best_hand_type v_pstraight v_pflush].
  split; [reflexivity |]. split; [reflexivity |]. split; [| reflexivity].
  exists ["Kh"; "Qh"; "Js"; "Td"; "9c"]. split; [reflexivity |].
  split; [nodup_list |].
  apply set_eqb_spec. vm_compute. reflexivity.
Qed.

(** ** Hands *)

Lemma valid_set_cases (s : pyset) :
  (_valid_set s = OK true /\ forall c, In c s -> In c _gen_deck)
  \/ (_valid_set s = Err InvalidCardsSet /\ exists c, In c s /\ ~ In c _gen_deck).
Proof.
  destruct (valid_set_spec s) as [[H1 H2] | [H1 (c & Hc & Hn)]]; [left | right];
    split; auto.
  - intros c Hc. apply gen_deck_In. auto.
  - exists c. rewrite gen_deck_In. auto.
Qed.

Lemma Hand_init_valid (x : arg) (s : pyset) :
  as_set x = OK s -> (forall c, In c s -> In c _gen_deck) ->
  Hand_init x
  = if (length s =? 2)%nat
    then OK (mkHand (mkCards s (_gen_values s) (_gen_suits s)) s
                    (_pair (_gen_values s)) (_suited (_gen_suits s))
                    (_connected s))
    else Err InvalidHand.
Proof.
  intros Es Hd. unfold Hand_init. rewrite Es. cbn [bindR].
  destruct (valid_set_cases s) as [[E _] | [_ (c & Hc & Hn)]];
    [| exfalso; auto].
  rewrite E. cbn [bindR]. destruct (length s =? 2)%nat; cbn [negb]; [| reflexivity].
  unfold Cards_init. cbn [as_set bindR]. rewrite E. reflexivity.
Qed.

Lemma Hand_init_OK (x : arg) (H : Hand) :
  Hand_init x = OK H ->
  exists s, as_set x = OK s /\ length s = 2
            /\ (forall c, In c s -> In c _gen_deck)
            /\ H = mkHand (mkCards s (_gen_values s) (_gen_suits s)) s
                          (_pair (_gen_values s)) (_suited (_gen_suits s))
                          (_connected s).
Proof.
  intros E. pose proof E as E0. unfold Hand_init in E.
  apply bindR_OK in E. destruct E as (s & Es & E).
  apply bindR_OK in E. destruct E as (b & Ev & _).
  assert (Hd : forall c, In c s -> In c _gen_deck).
  { destruct (valid_set_cases s) as [[_ Hd] | [Hd _]]; [assumption | congruence]. }
  rewrite (Hand_init_valid x Es Hd) in E0. exists s.
  destruct (Nat.eqb_spec (length s) 2) as [H2 | H2]; [| discriminate].
  inversion E0. auto.
Qed.

Lemma connectors_windows :
  connectors
  = map (fun i => [nth i rank_sequence EmptyString;
                   nth (S i) rank_sequence EmptyString])
        (seq 0 13).
Proof. vm_compute. reflexivity. Qed.

Lemma rank_sequence_adjacent (i : nat) :
  i < 13 -> nth i rank_sequence EmptyString <> nth (S i) rank_sequence EmptyString.
Proof.
  intros H. do 13 (destruct i as [| i]; [discriminate |]). lia.
Qed.

Lemma pair_set_eq (v1 v2 a b : string) :
  a <> b ->
  (forall x, (x = v1 \/ x = v2) <-> (x = a \/ x = b))
  <-> (v1 = a /\ v2 = b) \/ (v2 = a /\ v1 = b).
Proof.
  intros Hab. split.
  - intros H.
    destruct (proj2 (H a) (or_introl eq_refl)) as [Ea | Ea];
      destruct (proj2 (H b) (or_intror eq_refl)) as [Eb | Eb];
      try congruence; auto.
  - intros [[-> ->] | [-> ->]] x; tauto.
Qed.

Lemma connected_two (c1 c2 : string) :
  _connected [c1; c2] = true
  <-> exists i, i < 13
                /\ ((value_of c1 = nth i rank_sequence EmptyString
                     /\ value_of c2 = nth (S i) rank_sequence EmptyString)
                    \/ (value_of c2 = nth i rank_sequence EmptyString
                        /\ value_of c1 = nth (S i) rank_sequence EmptyString)).
Proof.
  unfold _connected. rewrite existsb_exists, connectors_windows.
  assert (Hin : forall x, In x (set_comp value_of [c1; c2])
                          <-> x = value_of c1 \/ x = value_of c2).
  { intros x. rewrite set_comp_In. split.
    - intros [c [[<- | [<- | []]] <-]]; auto.
    - intros [-> | ->]; [exists c1 | exists c2]; simpl; auto. }
  split.
  - intros [w [Hw E]]. apply in_map_iff in Hw. destruct Hw as [i [<- Hi]].
    apply in_seq in Hi. exists i. split; [lia |].
    apply (pair_set_eq (value_of c1) (value_of c2));
      [apply rank_sequence_adjacent; lia |].
    intros x. rewrite set_eqb_spec in E. rewrite <- Hin, E. simpl. intuition congruence.
  - intros [i [Hi H]].
    exists [nth i rank_sequence EmptyString; nth (S i) rank_sequence EmptyString]. split.
    + apply in_map_iff. exists i. split; [reflexivity | apply in_seq; lia].
    + apply set_eqb_spec. intros x. rewrite Hin.
      apply (pair_set_eq (value_of c1) (value_of c2)) with (x := x) in H;
        [| apply rank_sequence_adjacent; lia].
      rewrite H. simpl. intuition congruence.
Qed.

(** C7.  A valid hand has two cards, and it is connected exactly when
    its two values are, in either order, two neighbours of the 14-symbol
    rank sequence, which has 13 such pairs; ace and deuce are neighbours,
    and so are king and ace. *)
Theorem connected_iff_window (x : arg) (H : Hand) :
  Hand_init x = OK H ->
  exists c1 c2,
    hand H = [c1; c2]
    /\ (connected H = true
        <-> exists i, i < 13
                      /\ ((value_of c1 = nth i rank_sequence EmptyString
                           /\ value_of c2 = nth (S i) rank_sequence EmptyString)
                          \/ (value_of c2 = nth i rank_sequence EmptyString
                              /\ value_of c1 = nth (S i) rank_sequence EmptyString)))
    /\ ((value_of c1 = "A" /\ value_of c2 = "2")
        \/ (value_of c1 = "2" /\ value_of c2 = "A") -> connected H = true)
    /\ ((value_of c1 = "K" /\ value_of c2 = "A")
        \/ (value_of c1 = "A" /\ value_of c2 = "K") -> connected H = true).
Proof.
  intros E. apply Hand_init_OK in E. destruct E as (s & _ & H2 & _ & ->).
  destruct s as [| c1 [| c2 [| c3 s]]]; try discriminate.
  exists c1, c2. cbn [hand connected]. split; [reflexivity |].
  split; [apply connected_two |]. split; intros Hv; apply connected_two.
  - exists 0. split; [lia |]. unfold rank_sequence. cbn [nth]. tauto.
  - exists 12. split; [lia |]. unfold rank_sequence. cbn [nth]. tauto.
Qed.

(** ** The cardinality of a hand *)

(** C9.  A parse error or a card outside the deck is reported first,
    whatever the number of cards; with valid cards only, the constructor
    fails with InvalidHand exactly when the set does not hold two cards,
    and the attributes are those of the two-card set that passed. *)
Theorem hand_cardinality_check (x : arg) :
  (forall e, as_set x = Err e -> Hand_init x = Err e /\ e = InvalidCardsString)
  /\ (forall s, as_set x = OK s ->
                (exists c, In c s /\ ~ In c _gen_deck) ->
                Hand_init x = Err InvalidCardsSet)
  /\ (forall s, as_set x = OK s ->
                (forall c, In c s -> In c _gen_deck) ->
                (Hand_init x = Err InvalidHand <-> length s <> 2)
                /\ (length s = 2 ->
                    exists H, Hand_init x = OK H /\ hand H = s
                              /\ pair H = _pair (_gen_values s)
                              /\ suited H = _suited (_gen_suits s)
                              /\ connected H = _connected s)).
Proof.
  split; [| split].
  - intros e E. unfold Hand_init. rewrite E. split; [reflexivity |].
    destruct x as [str | l]; [| discriminate]. unfold as_set, _str_to_set in E.
    cbv zeta in E. destruct (negb _) in E; [congruence |].
    revert E. generalize (@nil string).
    induction (seq 0 (String.length str / 2)) as [| i rest IH]; intros acc E;
      cbn [str_to_set_loop] in E; [discriminate |].
    destruct (negb _) in E; [congruence | eauto].
  - intros s E [c [Hc Hn]]. unfold Hand_init. rewrite E. cbn [bindR].
    destruct (valid_set_cases s) as [[_ Hd] | [Ev _]]; [exfalso; auto |].
    rewrite Ev. reflexivity.
  - intros s E Hd. rewrite (Hand_init_valid x E Hd).
    destruct (Nat.eqb_spec (length s) 2) as [H2 | H2]; split.
    + split; [discriminate | contradiction].
    + intros _. eexists. split; [reflexivity |].
      cbn [hand pair suited connected]. auto.
    + split; auto.
    + contradiction.
Qed.

(** ** Card-code strings *)

Lemma two_chars (c : string) :
  String.length c = 2 -> exists a b, c = String a (String b EmptyString).
Proof.
  destruct c as [| a [| b [| d c]]]; simpl; try discriminate. eauto.
Qed.

Lemma append_assoc (a b c : string) :
  ((a ++ b) ++ c)%string = (a ++ (b ++ c))%string.
Proof. induction a as [| x a IH]; simpl; [reflexivity | now rewrite IH]. Qed.

Lemma append_empty (a : string) : (a ++ EmptyString)%string = a.
Proof. induction a as [| x a IH]; simpl; [reflexivity | now rewrite IH]. Qed.

Lemma fold_join_flat (l : list string) (acc : string) :
  fold_left (fun cards_str card => join [cards_str; card]) l acc
  = (acc ++ flat l)%string.
Proof.
  revert acc. induction l as [| c l IH]; intros acc; simpl.
  - now rewrite append_empty.
  - rewrite IH, join2. apply append_assoc.
Qed.

Lemma half_SS (n : nat) : S (S n) / 2 = S (n / 2).
Proof.
  replace (S (S n)) with (n + 1 * 2) by lia. rewrite Nat.div_add by lia. lia.
Qed.

Lemma tokens_cons (a b : ascii) (rest : string) :
  tokens (String a (String b rest))
  = String a (String b EmptyString) :: tokens rest.
Proof.
  unfold tokens. cbn [String.length]. rewrite half_SS.
  cbn [seq map]. f_equal.
  - unfold token. cbn. now rewrite substring_0_0.
  - rewrite <- seq_shift, map_map. apply map_ext. intros i. unfold token.
    replace (2 * S i) with (S (S (2 * i))) by lia. reflexivity.
Qed.

Lemma tokens_flat (l : list string) :
  (forall c, In c l -> String.length c = 2) -> tokens (flat l) = l.
Proof.
  induction l as [| c l IH]; intros H; [reflexivity |].
  destruct (two_chars c (H c (or_introl eq_refl))) as (a & b & ->).
  cbn [flat fold_right append]. fold (flat l). rewrite tokens_cons, IH; auto.
  intros c Hc. apply H. now right.
Qed.

Lemma str_to_set_cases (s : string) :
  (String.length s mod 2 <> 0 /\ _str_to_set s = Err InvalidCardsString)
  \/ (String.length s mod 2 = 0 /\ (exists c, In c (tokens s) /\ ~ In c _gen_deck)
      /\ _str_to_set s = Err InvalidCardsString)
  \/ (String.length s mod 2 = 0 /\ (forall c, In c (tokens s) -> In c _gen_deck)
      /\ _str_to_set s = OK (set_of_list (tokens s))).
Proof.
  unfold _str_to_set. cbv zeta.
  destruct (Nat.eqb_spec (String.length s mod 2) 0) as [E | E]; cbn [negb];
    [right | now left].
  unfold tokens, set_of_list. rewrite <- fold_tokens.
  generalize (@nil string) as acc.
  induction (seq 0 (String.length s / 2)) as [| i rest IH]; intros acc.
  - right. split; [assumption |]. split; [intros c [] | reflexivity].
  - cbn [str_to_set_loop map fold_left].
    destruct (mem (token s i) _gen_deck) eqn:Em; cbn [negb].
    + apply mem_In in Em.
      destruct (IH (set_add (token s i) acc))
        as [(_ & (c & Hc & Hn) & Er) | (_ & Hall & Er)].
      * left. split; [assumption |]. split; [| exact Er].
        exists c. split; [now right | assumption].
      * right. split; [assumption |]. split; [| exact Er].
        intros c [<- | Hc]; auto.
    + apply mem_false in Em. left. split; [assumption |].
      split; [| reflexivity]. exists (token s i). split; [now left | assumption].
Qed.

Lemma Cards_init_str (s : string) :
  String.length s mod 2 = 0 ->
  (forall c, In c (tokens s) -> In c _gen_deck) ->
  Cards_init (Str s)
  = OK (mkCards (set_of_list (tokens s)) (_gen_values (set_of_list (tokens s)))
                (_gen_suits (set_of_list (tokens s)))).
Proof.
  intros He Hall. unfold Cards_init. cbn [as_set].
  destruct (str_to_set_cases s) as [[Ho _] | [(_ & (c & Hc & Hn) & _) | (_ & _ & E)]];
    [contradiction | exfalso; auto |].
  rewrite E. cbn [bindR].
  destruct (valid_set_cases (set_of_list (tokens s)))
    as [[Ev _] | [_ (c & Hc & Hn)]].
  - rewrite Ev. reflexivity.
  - exfalso. apply Hn, Hall. now apply set_of_list_In.
Qed.

Lemma set_of_list_shorter (l : list string) :
  length (set_of_list l) <= length l
  /\ (~ NoDup l -> length (set_of_list l) < length l).
Proof.
  assert (Hle : length (set_of_list l) <= length l).
  { apply NoDup_incl_length; [apply set_of_list_NoDup |].
    intros c Hc. now apply set_of_list_In. }
  split; [assumption |]. intros Hn.
  destruct (Nat.eq_dec (length (set_of_list l)) (length l)) as [E | E]; [| lia].
  exfalso. apply Hn.
  apply NoDup_incl_NoDup with (l := set_of_list l);
    [apply set_of_list_NoDup | lia |].
  intros c Hc. now apply set_of_list_In.
Qed.

(** C10.  A string of valid tokens always parses, and its card set is
    the set of its distinct tokens: a token that occurs twice counts once,
    so the set is smaller than the list of tokens as soon as one repeats.
    A hand given as the same card twice therefore parses to one card and
    fails with InvalidHand. *)
Theorem duplicate_tokens_collapse :
  (forall s,
      String.length s mod 2 = 0 ->
      (forall c, In c (tokens s) -> In c _gen_deck) ->
      exists C,
        Cards_init (Str s) = OK C
        /\ cards C = set_of_list (tokens s)
        /\ NoDup (cards C)
        /\ (forall c, In c (cards C) <-> In c (tokens s))
        /\ length (cards C) <= length (tokens s)
        /\ (~ NoDup (tokens s) -> length (cards C) < length (tokens s)))
  /\ (forall c,
         In c _gen_deck ->
         as_set (Str (c ++ c)) = OK [c]
         /\ Hand_init (Str (c ++ c)) = Err InvalidHand).
Proof.
  split.
  - intros s He Hall. eexists. split; [now apply Cards_init_str |].
    cbn [cards]. split; [reflexivity |]. split; [apply set_of_list_NoDup |].
    split; [intros c; apply set_of_list_In |]. apply set_of_list_shorter.
  - intros c Hc. pose proof Hc as Hd. apply gen_deck_In, deck52_card in Hd.
    destruct Hd as (_ & _ & _ & H2). destruct (two_chars c H2) as (a & b & ->).
    set (k := String a (String b EmptyString)) in *.
    assert (Et : tokens (k ++ k) = [k; k]).
    { unfold k. cbn [append]. now rewrite !tokens_cons. }
    assert (Es : as_set (Str (k ++ k)) = OK [k]).
    { cbn [as_set].
      destruct (str_to_set_cases (k ++ k))
        as [[Ho _] | [(_ & (c & Hin & Hn) & _) | (_ & _ & E)]].
      - exfalso. apply Ho. reflexivity.
      - exfalso. rewrite Et in Hin. destruct Hin as [<- | [<- | []]]; auto.
      - rewrite E, Et. unfold set_of_list. cbn [fold_left].
        unfold set_add at 2. cbn [mem existsb app].
        unfold set_add. cbn [mem existsb]. rewrite String.eqb_refl. reflexivity. }
    split; [exact Es |].
    rewrite (Hand_init_valid _ Es); [reflexivity |].
    intros c [<- | []]. exact Hc.
Qed.

(** ** Rendering a parsed string *)

(** C5, as the code has it.  Rendering the card set parsed from a string
    gives the distinct tokens of the string, in some order; it gives back
    all the tokens of the string when no token occurs twice. *)
Theorem render_parse_tokens (s : string) (C : Cards) :
  Cards_init (Str s) = OK C ->
  Permutation (tokens (Cards_str C)) (set_of_list (tokens s))
  /\ (NoDup (tokens s) -> Permutation (tokens (Cards_str C)) (tokens s)).
Proof.
  intros E.
  destruct (str_to_set_cases s) as [[_ Er] | [(_ & _ & Er) | (He & Hall & _)]];
    try (unfold Cards_init in E; cbn [as_set] in E; rewrite Er in E; discriminate).
  rewrite (Cards_init_str s He Hall) in E. inversion E; subst C; clear E.
  unfold Cards_str. cbn [cards]. rewrite fold_join_flat. cbn [append].
  assert (Ht : tokens (flat (iter (set_of_list (tokens s))))
               = iter (set_of_list (tokens s))).
  { apply tokens_flat. intros c Hc. rewrite iter_In, set_of_list_In in Hc.
    apply Hall, gen_deck_In, deck52_card in Hc. tauto. }
  rewrite Ht. split; [apply iter_perm |].
  intros Hn. rewrite <- (set_of_list_fresh Hn) at 2. apply iter_perm.
Qed.

(** ** Errors of the Cards constructor *)

(** C4, as the code has it.  A string of odd length fails with
    InvalidCardsString, and so does a string of even length one of whose
    tokens is not a card of the deck; no string fails with InvalidCardsSet,
    which is the failure of a set holding a card outside the deck. *)
Theorem cards_string_errors (s : string) :
  (String.length s mod 2 <> 0 -> Cards_init (Str s) = Err InvalidCardsString)
  /\ (String.length s mod 2 = 0 ->
      (exists c, In c (tokens s) /\ ~ In c _gen_deck) ->
      Cards_init (Str s) = Err InvalidCardsString)
  /\ Cards_init (Str s) <> Err InvalidCardsSet
  /\ (forall l, (exists c, In c l /\ ~ In c _gen_deck) ->
                Cards_init (PySet l) = Err InvalidCardsSet).
Proof.
  assert (Hs : String.length s mod 2 <> 0
               \/ (exists c, In c (tokens s) /\ ~ In c _gen_deck) ->
               Cards_init (Str s) = Err InvalidCardsString).
  { intros H. unfold Cards_init. cbn [as_set].
    destruct (str_to_set_cases s) as [[_ Er] | [(_ & _ & Er) | (He & Hall & _)]];
      try (rewrite Er; reflexivity).
    exfalso. destruct H as [H | (c & Hc & Hn)]; auto. }
  split; [auto |]. split; [auto |]. split.
  - destruct (str_to_set_cases s) as [[Ho _] | [(_ & Hb & _) | (He & Hall & _)]].
    + rewrite Hs by auto. discriminate.
    + rewrite Hs by auto. discriminate.
    + rewrite (Cards_init_str s He Hall). discriminate.
  - intros l (c & Hc & Hn). unfold Cards_init. cbn [as_set bindR].
    destruct (valid_set_cases l) as [[_ Hd] | [Ev _]]; [exfalso; auto |].
    rewrite Ev. reflexivity.
Qed.

(** * Further properties of the code *)

(** ** The deck and the validity check *)

Lemma deck52_NoDup : NoDup deck52.
Proof.
  replace deck52 with (set_of_list deck52) by (vm_compute; reflexivity).
  apply set_of_list_NoDup.
Qed.

(** X1.  Whatever the order in which sets are enumerated, [_gen_deck]
    builds 52 cards, no card twice, and they are exactly the strings made
    of one of the 13 values followed by one of the 4 suits. *)
Theorem gen_deck_is_the_52_cards :
  NoDup _gen_deck
  /\ length _gen_deck = 52
  /\ forall c, In c _gen_deck
               <-> exists v s, In v all_values /\ In s four_suits
                               /\ c = (v ++ s)%string.
Proof.
  assert (Hn : NoDup _gen_deck) by apply set_of_list_NoDup.
  split; [exact Hn |]. split.
  - change 52 with (length deck52). apply NoDup_same_length; auto.
    + apply deck52_NoDup.
    + apply gen_deck_In.
  - intros c. rewrite gen_deck_In. unfold deck52. rewrite in_flat_map. split.
    + intros [v [Hv Hc]]. apply in_map_iff in Hc. destruct Hc as [s [<- Hs]].
      exists v, s. auto.
    + intros (v & s & Hv & Hs & ->). exists v. split; [assumption |].
      apply in_map_iff. exists s. auto.
Qed.

(** X2.  [_valid_set] returns [True] exactly when every member is a card
    of the deck, in particular on the empty set; it raises
    'Invalid Cards Set' exactly when some member is not, and it never
    returns [False]. *)
Theorem valid_set_result (s : pyset) :
  (_valid_set s = OK true <-> forall c, In c s -> In c _gen_deck)
  /\ (_valid_set s = Err InvalidCardsSet
      <-> exists c, In c s /\ ~ In c _gen_deck)
  /\ _valid_set s <> OK false
  /\ _valid_set [] = OK true.
Proof.
  assert (He : _valid_set [] = OK true).
  { destruct (valid_set_cases []) as [[E _] | [_ (c & Hc & _)]]; [exact E |].
    destruct Hc. }
  destruct (valid_set_cases s) as [[E Hall] | [E (c & Hc & Hn)]]; rewrite E.
  - split; [tauto |]. split; [| split; [discriminate | exact He]].
    split; [discriminate |]. intros (c & Hc & Hn). exfalso. auto.
  - split; [| split; [| split; [discriminate | exact He]]].
    + split; [discriminate |]. intros Hall. exfalso. auto.
    + split; [intros _; exists c; auto | reflexivity].
Qed.

(** ** The two indices *)

Lemma dict_get_default_Some (d : dict) (k : string) (l : pyset) :
  dict_get d k = Some l -> dict_get_default d k = l.
Proof. unfold dict_get_default. now intros ->. Qed.

Lemma index_entry (key item : string -> string) (l : list string) (d : dict)
      (k : string) (e : pyset) :
  index_spec key item l d -> dict_get d k = Some e ->
  e <> [] /\ NoDup e
  /\ forall x, In x e <-> exists c, In c l /\ key c = k /\ item c = x.
Proof.
  intros H E. pose proof (dict_get_default_Some _ _ E) as Ed.
  split; [| split].
  - assert (Hm : dict_mem d k = true) by (unfold dict_mem; now rewrite E).
    apply (ix_mem H) in Hm. destruct Hm as (c & Hc & Hk).
    assert (Hin : In (item c) e).
    { rewrite <- Ed. apply (ix_in H). exists c. auto. }
    intros E0. rewrite E0 in Hin. destruct Hin.
  - rewrite <- Ed. apply (ix_nodup H).
  - intros x. rewrite <- Ed. apply (ix_in H).
Qed.

Lemma split_card (v s : string) :
  In v all_values -> String.length (v ++ s) = 2 ->
  value_of (v ++ s) = v /\ suit_of (v ++ s) = s.
Proof.
  intros Hv Hl. destruct (all_values_char Hv) as [a ->].
  destruct s as [| b [| b' s]]; simpl in Hl; try discriminate.
  split; reflexivity.
Qed.

Lemma split_card_suit (v s : string) :
  In s four_suits -> String.length (v ++ s) = 2 ->
  value_of (v ++ s) = v /\ suit_of (v ++ s) = s.
Proof.
  intros Hs Hl.
  assert (Es : exists b, s = String b EmptyString).
  { vm_compute in Hs.
    repeat (destruct Hs as [<- | Hs]; [eexists; reflexivity |]). destruct Hs. }
  destruct Es as [b ->].
  destruct v as [| a [| a' v]]; simpl in Hl; try discriminate.
  - split; reflexivity.
  - destruct v; simpl in Hl; discriminate.
Qed.

Section IndexFacts.

Variables key item : string -> string.
Variable cards : pyset.
Variable d : dict.
Hypothesis Hix : index_spec key item cards d.

Lemma index_keys_iff (k : string) :
  In k (dict_keys d) <-> exists c, In c cards /\ key c = k.
Proof. rewrite <- dict_mem_keys. apply (ix_mem Hix). Qed.

Lemma index_none_iff (k : string) :
  dict_get d k = None <-> forall c, In c cards -> key c <> k.
Proof.
  pose proof (ix_mem Hix k) as Hm. unfold dict_mem in Hm.
  destruct (dict_get d k) as [e |]; split.
  - discriminate.
  - intros Hall. destruct (proj1 Hm eq_refl) as (c & Hc & Hk).
    exfalso. now apply (Hall c).
  - intros _ c Hc Hk.
    assert (Hex : exists c, In c cards /\ key c = k) by eauto.
    apply Hm in Hex. discriminate.
  - reflexivity.
Qed.

End IndexFacts.

(** X3.  The value index of a set of deck cards has one key per value
    that occurs, no key twice and only the 13 values; the entry of a value
    is the non-empty duplicate-free set of the suits in which the value
    occurs, and a value that does not occur has no entry. *)
Theorem gen_values_index (cards : pyset) :
  (forall c, In c cards -> In c _gen_deck) ->
  let values := _gen_values cards in
  NoDup (dict_keys values)
  /\ (forall v, In v (dict_keys values)
                <-> exists c, In c cards /\ value_of c = v)
  /\ (forall v, In v (dict_keys values) -> In v all_values)
  /\ (forall v suits,
         dict_get values v = Some suits ->
         suits <> [] /\ NoDup suits /\ incl suits four_suits
         /\ forall s, In s suits <-> In (v ++ s)%string cards)
  /\ (forall v, dict_get values v = None
                <-> forall c, In c cards -> value_of c <> v).
Proof.
  intros Hd. cbv zeta. pose proof (gen_values_spec cards) as H.
  assert (Hcard : forall c, In c cards ->
                            (value_of c ++ suit_of c)%string = c
                            /\ In (value_of c) all_values
                            /\ In (suit_of c) four_suits
                            /\ String.length c = 2).
  { intros c Hc. now apply Hd, gen_deck_In, deck52_card in Hc. }
  assert (Hkeys : forall v, In v (dict_keys (_gen_values cards)) ->
                            In v all_values).
  { intros v Hv. apply (index_keys_iff H) in Hv.
    destruct Hv as (c & Hc & <-). now apply Hcard. }
  split; [apply (ix_keys_nodup H) |].
  split; [intros v; apply (index_keys_iff H) |].
  split; [exact Hkeys |]. split; [| intros v; apply (index_none_iff H)].
  intros v suits E. destruct (index_entry v H E) as (H1 & H2 & H3).
  assert (Hv : In v all_values).
  { apply Hkeys, dict_mem_keys. unfold dict_mem. now rewrite E. }
  split; [assumption |]. split; [assumption |]. split.
  - intros s Hs. apply H3 in Hs. destruct Hs as (c & Hc & _ & <-).
    now apply Hcard.
  - intros s. rewrite H3. split.
    + intros (c & Hc & <- & <-). destruct (Hcard c Hc) as (E' & _).
      now rewrite E'.
    + intros Hc. exists (v ++ s)%string. split; [assumption |].
      apply split_card; [assumption | now apply Hcard].
Qed.

(** X4.  The suit index is the mirror image: one key per suit that
    occurs, among the 4 suits, and the entry of a suit is the non-empty
    duplicate-free set of the values that occur in that suit. *)
Theorem gen_suits_index (cards : pyset) :
  (forall c, In c cards -> In c _gen_deck) ->
  let suits := _gen_suits cards in
  NoDup (dict_keys suits)
  /\ (forall s, In s (dict_keys suits)
                <-> exists c, In c cards /\ suit_of c = s)
  /\ (forall s, In s (dict_keys suits) -> In s four_suits)
  /\ (forall s values,
         dict_get suits s = Some values ->
         values <> [] /\ NoDup values /\ incl values all_values
         /\ forall v, In v values <-> In (v ++ s)%string cards)
  /\ (forall s, dict_get suits s = None
                <-> forall c, In c cards -> suit_of c <> s).
Proof.
  intros Hd. cbv zeta. pose proof (gen_suits_spec cards) as H.
  assert (Hcard : forall c, In c cards ->
                            (value_of c ++ suit_of c)%string = c
                            /\ In (value_of c) all_values
                            /\ In (suit_of c) four_suits
                            /\ String.length c = 2).
  { intros c Hc. now apply Hd, gen_deck_In, deck52_card in Hc. }
  assert (Hkeys : forall s, In s (dict_keys (_gen_suits cards)) ->
                            In s four_suits).
  { intros s Hs. apply (index_keys_iff H) in Hs.
    destruct Hs as (c & Hc & <-). now apply Hcard. }
  split; [apply (ix_keys_nodup H) |].
  split; [intros s; apply (index_keys_iff H) |].
  split; [exact Hkeys |]. split; [| intros s; apply (index_none_iff H)].
  intros s values E. destruct (index_entry s H E) as (H1 & H2 & H3).
  split; [assumption |]. split; [assumption |]. split.
  - intros v Hv. apply H3 in Hv. destruct Hv as (c & Hc & _ & <-).
    now apply Hcard.
  - intros v. rewrite H3. split.
    + intros (c & Hc & <- & <-). destruct (Hcard c Hc) as (E' & _).
      now rewrite E'.
    + intros Hc. exists (v ++ s)%string. split; [assumption |].
      apply and_comm. apply split_card_suit; [| now apply Hcard].
      apply Hkeys, dict_mem_keys. unfold dict_mem. now rewrite E.
Qed.

Lemma dict_total_set (d : dict) (k : string) (v : pyset) :
  dict_total (dict_set d k v) + length (dict_get_default d k)
  = dict_total d + length v.
Proof.
  unfold dict_total, dict_get_default.
  induction d as [| [k0 v0] d IH]; cbn [dict_set dict_get].
  - simpl. lia.
  - destruct (String.eqb k k0); simpl in *; lia.
Qed.

Lemma index_fold_total (key item : string -> string) (l l0 : list string)
      (d : dict) :
  index_spec key item l0 d ->
  NoDup (l0 ++ l) ->
  (forall c c', In c (l0 ++ l) -> In c' (l0 ++ l) ->
                key c = key c' -> item c = item c' -> c = c') ->
  dict_total (fold_left (index_step key item) l d) = dict_total d + length l.
Proof.
  revert l0 d. induction l as [| c l IH]; intros l0 d H Hn Hinj;
    cbn [fold_left length]; [lia |].
  assert (Hfresh : ~ In (item c) (dict_get_default d (key c))).
  { intros Hin. apply (ix_in H) in Hin. destruct Hin as (c' & Hc' & Hk & Hi).
    assert (E : c' = c).
    { apply Hinj; auto; apply in_or_app; [now left | right; now left]. }
    subst c'. apply NoDup_remove_2 in Hn. apply Hn, in_or_app. now left. }
  assert (Hstep : dict_total (index_step key item d c) = dict_total d + 1).
  { unfold index_step. destruct (dict_mem d (key c)) eqn:E.
    - pose proof (dict_total_set d (key c)
                    (set_union (dict_get_default d (key c)) [item c])) as T.
      unfold set_union in T. cbn [fold_left] in T.
      rewrite set_add_new in T by exact Hfresh. rewrite length_app in T.
      cbn [length] in T. unfold set_union. cbn [fold_left].
      rewrite set_add_new by exact Hfresh. lia.
    - pose proof (dict_total_set d (key c) [item c]) as T.
      rewrite (dict_mem_false_default _ _ E) in T. cbn [length] in T. lia. }
  rewrite (IH (l0 ++ [c])).
  - rewrite Hstep. lia.
  - now apply index_step_spec.
  - now rewrite <- app_assoc.
  - intros x y Hx Hy. rewrite <- app_assoc in Hx, Hy. now apply Hinj.
Qed.

Lemma deck_card_inj (c c' : string) :
  In c deck52 -> In c' deck52 ->
  value_of c = value_of c' -> suit_of c = suit_of c' -> c = c'.
Proof.
  intros Hc Hc' Hv Hs.
  apply deck52_card in Hc. apply deck52_card in Hc'.
  destruct Hc as (<- & _), Hc' as (<- & _). now rewrite Hv, Hs.
Qed.

(** X5.  Each index splits the cards: for a set of deck cards the sizes
    of the entries of the value index add up to the number of cards, and
    so do those of the suit index. *)
Theorem index_entries_count_the_cards (cards : pyset) :
  NoDup cards -> (forall c, In c cards -> In c _gen_deck) ->
  dict_total (_gen_values cards) = length cards
  /\ dict_total (_gen_suits cards) = length cards.
Proof.
  intros Hn Hd.
  assert (Hi : forall c, In c ([] ++ iter cards) -> In c deck52).
  { intros c Hc. cbn [app] in Hc. apply gen_deck_In, Hd, iter_In, Hc. }
  assert (Hn' : NoDup ([] ++ iter cards)) by now apply iter_NoDup.
  split.
  - assert (T : dict_total (_gen_values cards) = dict_total [] + length (iter cards)).
    { apply (index_fold_total (iter cards) (index_spec_nil value_of suit_of) Hn').
      intros c c' Hc Hc'. apply deck_card_inj; auto. }
    rewrite T. cbn. apply iter_length.
  - assert (T : dict_total (_gen_suits cards) = dict_total [] + length (iter cards)).
    { apply (index_fold_total (iter cards) (index_spec_nil suit_of value_of) Hn').
      intros c c' Hc Hc' Hs Hv. apply deck_card_inj; auto. }
    rewrite T. cbn. apply iter_length.
Qed.

(** ** The attributes of a hand *)

Lemma two_keys_length (keys : list string) (v1 v2 : string) :
  NoDup keys -> (forall k, In k keys <-> k = v1 \/ k = v2) ->
  (length keys = 1 <-> v1 = v2).
Proof.
  intros Hn Hk. destruct (string_dec v1 v2) as [E | E].
  - split; [auto | intros _].
    apply (NoDup_same_length (b := [v1]) Hn).
    + repeat constructor. intros [].
    + intros k. rewrite Hk. subst v2. simpl. intuition congruence.
  - split; [| contradiction]. intros H1.
    assert (H2 : length keys = 2).
    { apply (NoDup_same_length (b := [v1; v2]) Hn).
      - repeat constructor; simpl; intuition congruence.
      - intros k. rewrite Hk. simpl. intuition congruence. }
    lia.
Qed.

Lemma index_two (key item : string -> string) (c1 c2 : string) (d : dict) :
  index_spec key item [c1; c2] d ->
  ((length d =? 1)%nat = true <-> key c1 = key c2).
Proof.
  intros H. rewrite Nat.eqb_eq.
  replace (length d) with (length (dict_keys d))
    by (unfold dict_keys; apply length_map).
  apply two_keys_length; [apply (ix_keys_nodup H) |].
  intros k. rewrite (index_keys_iff H). split.
  - intros (c & [<- | [<- | []]] & <-); auto.
  - intros [-> | ->]; [exists c1 | exists c2]; simpl; auto.
Qed.

(** X6.  A hand that the constructor accepts has two cards; it is a pair
    exactly when they have the same value and suited exactly when they
    have the same suit.  A pair is never connected, and two different
    cards are never both a pair and suited. *)
Theorem hand_attributes (x : arg) (H : Hand) :
  Hand_init x = OK H ->
  exists c1 c2,
    hand H = [c1; c2]
    /\ (pair H = true <-> value_of c1 = value_of c2)
    /\ (suited H = true <-> suit_of c1 = suit_of c2)
    /\ (pair H = true -> connected H = false)
    /\ (wf_arg x -> c1 <> c2 /\ (pair H = true -> suited H = false)).
Proof.
  intros E. apply Hand_init_OK in E. destruct E as (s & Es & H2 & Hd & ->).
  destruct s as [| c1 [| c2 [| c3 s]]]; try discriminate.
  exists c1, c2. cbn [hand pair suited connected].
  assert (Hp : _pair (_gen_values [c1; c2]) = true
               <-> value_of c1 = value_of c2)
    by apply (index_two (gen_values_spec [c1; c2])).
  assert (Hs : _suited (_gen_suits [c1; c2]) = true
               <-> suit_of c1 = suit_of c2)
    by apply (index_two (gen_suits_spec [c1; c2])).
  split; [reflexivity |]. split; [exact Hp |]. split; [exact Hs |]. split.
  - intros Hpair. apply Hp in Hpair.
    destruct (_connected [c1; c2]) eqn:Ec; [| reflexivity].
    apply connected_two in Ec. destruct Ec as (i & Hi & Hor).
    pose proof (rank_sequence_adjacent Hi) as Hne.
    destruct Hor as [[E1 E2] | [E1 E2]]; congruence.
  - intros Hw. apply (as_set_NoDup x Hw) in Es.
    assert (Hne : c1 <> c2).
    { inversion Es as [| ? ? Hn _]; subst. intros ->. apply Hn. now left. }
    split; [exact Hne |]. intros Hpair. apply Hp in Hpair.
    destruct (_suited (_gen_suits [c1; c2])) eqn:Esu; [| reflexivity].
    exfalso. apply Hne. apply deck_card_inj; auto.
    + apply gen_deck_In, Hd. now left.
    + apply gen_deck_In, Hd. right. now left.
    + now apply Hs.
Qed.

(** ** The kicker fill *)

Lemma index_of_head (x : string) (l : list string) : index_of x (x :: l) = 0.
Proof. cbn [index_of]. now rewrite String.eqb_refl. Qed.

Lemma index_of_tail (x y : string) (l : list string) :
  x <> y -> index_of x (y :: l) = S (index_of x l).
Proof.
  intros H. cbn [index_of]. apply String.eqb_neq in H. now rewrite H.
Qed.

Lemma index_of_cons_le (x x' y : string) (l : list string) :
  x <> y -> index_of x' l <= index_of x l ->
  index_of x' (y :: l) <= index_of x (y :: l).
Proof.
  intros H Hle. rewrite (index_of_tail l H). cbn [index_of].
  destruct (String.eqb x' y); lia.
Qed.

Lemma fill_values_highest (values : dict) (vs : list string)
      (dead : pyset) (n : Z) :
  NoDup dead -> (1 <= n)%Z ->
  forall k, In k (fill_values values vs dead n) -> ~ In k dead ->
  forall v s, In v vs -> In s (dict_get_default values v) ->
              ~ In (v ++ s)%string (fill_values values vs dead n) ->
  exists v' s', k = (v' ++ s')%string /\ In v' vs
                /\ In s' (dict_get_default values v')
                /\ index_of v' vs <= index_of v vs.
Proof.
  revert dead n. induction vs as [| value rest IH]; intros dead n Hd Hn;
    cbn [fill_values]; [intros k _ _ v s [] |].
  destruct (dict_mem values value) eqn:E.
  - pose proof (fill_suits_spec value (iter (dict_get_default values value))
                                Hd Hn) as Hs.
    destruct (fill_suits value (iter (dict_get_default values value)) dead n)
      as [d | [d1 n']].
    + destruct Hs as (H1 & H2 & H3 & H4).
      intros k Hk Hnk v s Hv Hsv Hskip.
      destruct (H3 k Hk) as [Hin | (s' & Hs' & ->)]; [contradiction |].
      exists value, s'. rewrite iter_In in Hs'.
      repeat split; auto; [now left | rewrite index_of_head; lia].
    + destruct Hs as (H1 & H2 & H3 & H4 & H5 & H6).
      destruct (fill_values_spec values rest H1 H4) as (_ & I2 & _).
      cbv zeta in I2.
      intros k Hk Hnk v s Hv Hsv Hskip.
      assert (Hne : v <> value).
      { intros ->. apply Hskip, I2, H6. now rewrite iter_In. }
      destruct Hv as [Hv | Hv]; [congruence |].
      destruct (mem k d1) eqn:Ek.
      * apply mem_In in Ek. destruct (H3 k Ek) as [Hin | (s' & Hs' & ->)];
          [contradiction |].
        exists value, s'. rewrite iter_In in Hs'.
        repeat split; auto; [now left | rewrite index_of_head; lia].
      * apply mem_false in Ek.
        destruct (IH d1 n' H1 H4 k Hk Ek v s Hv Hsv Hskip)
          as (v' & s' & -> & Hv' & Hs' & Hle).
        exists v', s'. repeat split; auto; [now right |].
        now apply index_of_cons_le.
  - intros k Hk Hnk v s Hv Hsv Hskip.
    assert (Hne : v <> value).
    { intros ->. rewrite (dict_mem_false_default _ _ E) in Hsv. destruct Hsv. }
    destruct Hv as [Hv | Hv]; [congruence |].
    destruct (IH dead n Hd Hn k Hk Hnk v s Hv Hsv Hskip)
      as (v' & s' & -> & Hv' & Hs' & Hle).
    exists v', s'. repeat split; auto; [now right |].
    now apply index_of_cons_le.
Qed.

Lemma fill_suits_unbounded (value : string) (suits : list string)
      (dead : pyset) (n : Z) :
  (n <= 0)%Z ->
  exists d n', fill_suits value suits dead n = inr (d, n')
               /\ (n' <= 0)%Z /\ incl dead d
               /\ forall s, In s suits -> In (value ++ s)%string d.
Proof.
  revert dead n. induction suits as [| suit rest IH]; intros dead n Hn;
    cbn [fill_suits].
  - exists dead, n. repeat split; auto using incl_refl. intros s [].
  - rewrite join2. destruct (mem (value ++ suit)%string dead) eqn:E;
      cbn [negb].
    + apply mem_In in E. destruct (IH dead n Hn) as (d & n' & Ef & Hn' & Hi & Ha).
      exists d, n'. repeat split; auto. intros s [<- | Hs]; auto.
    + destruct (Z.eqb_spec (n - 1) 0) as [Hz | Hz]; [lia |].
      destruct (IH (set_add (value ++ suit)%string dead) (n - 1)%Z)
        as (d & n' & Ef & Hn' & Hi & Ha); [lia |].
      exists d, n'. repeat split; auto.
      * intros c Hc. apply Hi, set_add_In. now left.
      * intros s [<- | Hs]; auto. apply Hi, set_add_In. now right.
Qed.

Lemma fill_values_unbounded (values : dict) (vs : list string)
      (dead : pyset) (n : Z) :
  (n <= 0)%Z ->
  incl dead (fill_values values vs dead n)
  /\ forall v s, In v vs -> In s (dict_get_default values v) ->
                 In (v ++ s)%string (fill_values values vs dead n).
Proof.
  revert dead n. induction vs as [| value rest IH]; intros dead n Hn;
    cbn [fill_values].
  - split; [apply incl_refl | intros v s []].
  - destruct (dict_mem values value) eqn:E.
    + destruct (fill_suits_unbounded value
                  (iter (dict_get_default values value)) dead Hn)
        as (d & n' & -> & Hn' & Hi & Ha).
      destruct (IH d n' Hn') as [I1 I2]. split.
      * eapply incl_tran; eauto.
      * intros v s [<- | Hv] Hs; auto. apply I1, Ha. now rewrite iter_In.
    + destruct (IH dead n Hn) as [I1 I2]. split; [assumption |].
      intros v s [<- | Hv] Hs; auto.
      rewrite (dict_mem_false_default _ _ E) in Hs. destruct Hs.
Qed.

Section Fill.

Variable cards : pyset.
Hypothesis Hn : NoDup cards.
Hypothesis Hd : forall c, In c cards -> In c _gen_deck.

Lemma index_card (v s : string) :
  In s (dict_get_default (_gen_values cards) v) ->
  In (v ++ s)%string cards /\ In v all_values.
Proof.
  intros H. apply (ix_in (gen_values_spec cards)) in H.
  destruct H as (c & Hc & <- & <-).
  pose proof Hc as Hc'. apply Hd, gen_deck_In, deck52_card in Hc'.
  destruct Hc' as (E & Hv & _). rewrite E. auto.
Qed.

Lemma card_index (c : string) :
  In c cards ->
  c = (value_of c ++ suit_of c)%string /\ In (value_of c) all_values
  /\ In (suit_of c) (dict_get_default (_gen_values cards) (value_of c)).
Proof.
  intros Hc. pose proof Hc as Hc'. apply Hd, gen_deck_In, deck52_card in Hc'.
  destruct Hc' as (E & Hv & _). repeat split; auto.
  apply (ix_in (gen_values_spec cards)). exists c. auto.
Qed.

(** X7.  For the value index of a set of distinct deck cards, filling a
    duplicate-free set of dead cards with [n] kickers (n at least 1) keeps
    the dead cards, adds only cards of the indexed set, never a card
    twice, and stops at [n] added cards or when no indexed card is left:
    the result has as many cards as the dead cards plus min(n, the number
    of indexed cards that are not dead).  When the dead cards are
    themselves cards of the indexed set, as in every call of the
    detectors, this is min(dead + n, all). *)
Theorem fill_hand_size (dead : pyset) (n : Z) :
  NoDup dead -> (1 <= n)%Z ->
  let d := _fill_hand (_gen_values cards) dead n in
  let fresh := filter (fun c => negb (mem c dead)) cards in
  NoDup d /\ incl dead d
  /\ (forall c, In c d -> In c dead \/ In c cards)
  /\ Z.of_nat (length d)
     = (Z.of_nat (length dead) + Z.min n (Z.of_nat (length fresh)))%Z
  /\ (incl dead cards ->
      incl d cards
      /\ Z.of_nat (length d)
         = Z.min (Z.of_nat (length dead) + n) (Z.of_nat (length cards))).
Proof.
  intros Hdd H1. cbv zeta. unfold _fill_hand.
  destruct (fill_values_spec (_gen_values cards) all_values Hdd H1)
    as (F1 & F2 & F3 & F4 & F5).
  set (d := fill_values (_gen_values cards) all_values dead n) in *.
  set (fresh := filter (fun c => negb (mem c dead)) cards).
  assert (Hfrom : forall c, In c d -> In c dead \/ In c cards).
  { intros c Hc. destruct (F3 c Hc) as [H | (v & s & Hv & Hs & ->)]; auto.
    right. now apply index_card. }
  assert (Hfresh : forall c, In c fresh <-> In c cards /\ ~ In c dead).
  { intros c. unfold fresh. rewrite filter_In, negb_true_iff, mem_false.
    reflexivity. }
  assert (Hnf : NoDup (dead ++ fresh)).
  { apply NoDup_app; [exact Hdd | now apply NoDup_filter |].
    intros c Hc Hc'. apply Hfresh in Hc'. tauto. }
  assert (Hup : incl d (dead ++ fresh)).
  { intros c Hc. apply in_or_app.
    destruct (in_dec string_dec c dead) as [Hin | Hout]; [now left |].
    right. apply Hfresh. destruct (Hfrom c Hc); tauto. }
  pose proof (NoDup_incl_length F1 Hup) as Hle. rewrite length_app in Hle.
  assert (Hlen : Z.of_nat (length d)
                 = (Z.of_nat (length dead)
                    + Z.min n (Z.of_nat (length fresh)))%Z).
  { destruct F5 as [F5 | F5]; [clear - F5 Hle; lia |].
    assert (Hall : incl (dead ++ fresh) d).
    { intros c Hc. apply in_app_or in Hc. destruct Hc as [Hc | Hc];
        [now apply F2 |].
      apply Hfresh in Hc. destruct Hc as [Hc _].
      destruct (card_index c Hc) as (E & Hv & Hs). rewrite E. now apply F5. }
    pose proof (NoDup_incl_length Hnf Hall) as Hge.
    rewrite length_app in Hge. clear - Hle Hge F4. lia. }
  split; [exact F1 |]. split; [exact F2 |]. split; [exact Hfrom |].
  split; [exact Hlen |]. intros Hi. split.
  - intros c Hc. destruct (Hfrom c Hc); auto.
  - assert (Hsplit : length cards = length dead + length fresh).
    { rewrite <- (filter_length (fun c => mem c dead) cards). fold fresh.
      f_equal. apply NoDup_same_length; [now apply NoDup_filter | exact Hdd |].
      intros c. rewrite filter_In, mem_In. split; [tauto |].
      intros Hc. split; [now apply Hi | exact Hc]. }
    clear - Hlen Hsplit. lia.
Qed.

(** X8.  The kickers are the highest cards available: a card that the
    fill added never has a lower value than a card of the aggregate that
    it left out (the ace is highest and never counts as low here). *)
Theorem fill_hand_takes_highest (dead : pyset) (n : Z) (k c : string) :
  NoDup dead -> (1 <= n)%Z ->
  In k (_fill_hand (_gen_values cards) dead n) -> ~ In k dead ->
  In c cards -> ~ In c (_fill_hand (_gen_values cards) dead n) ->
  rank (value_of k) <= rank (value_of c).
Proof.
  intros Hdd H1 Hk Hnk Hc Hskip. unfold _fill_hand in *.
  destruct (card_index c Hc) as (E & Hv & Hs). rewrite E in Hskip.
  destruct (fill_values_highest (_gen_values cards) all_values Hdd H1 k Hk Hnk
              (value_of c) (suit_of c) Hv Hs Hskip)
    as (v' & s' & -> & Hv' & Hs' & Hle).
  unfold rank. now rewrite (value_of_value s' Hv').
Qed.

(** X9.  A count of zero or less is no bound: the test [n == 0] comes
    after the decrement and never holds, so the fill adds every card of
    the index. *)
Theorem fill_hand_without_bound (dead : pyset) (n : Z) :
  (n <= 0)%Z ->
  incl dead (_fill_hand (_gen_values cards) dead n)
  /\ incl cards (_fill_hand (_gen_values cards) dead n).
Proof.
  intros H0. unfold _fill_hand.
  destruct (fill_values_unbounded (_gen_values cards) all_values dead H0)
    as [F1 F2].
  split; [assumption |]. intros c Hc.
  destruct (card_index c Hc) as (E & Hv & Hs). rewrite E. now apply F2.
Qed.

End Fill.

(** ** What the category says about the best hand *)

Lemma resolver_cases (HB : HBoard_view) (r : rng) :
  wf_view HB ->
  let out := fst (_best_hand HB r) in
  hit (pure _straight_flush) "Straight Flush" HB out
  \/ (miss (pure _straight_flush) HB
      /\ hit (pure _quads) "Four of a Kind" HB out)
  \/ (miss (pure _straight_flush) HB /\ miss (pure _quads) HB
      /\ hit _full_house "Full House" HB out)
  \/ (miss (pure _straight_flush) HB /\ miss (pure _quads) HB
      /\ miss _full_house HB
      /\ hit (pure _flush) "Flush" HB out)
  \/ (miss (pure _straight_flush) HB /\ miss (pure _quads) HB
      /\ miss _full_house HB /\ miss (pure _flush) HB
      /\ hit _straight "Straight" HB out)
  \/ (miss (pure _straight_flush) HB /\ miss (pure _quads) HB
      /\ miss _full_house HB /\ miss (pure _flush) HB /\ miss _straight HB
      /\ hit (pure _trips) "Three of a Kind" HB out)
  \/ (miss (pure _straight_flush) HB /\ miss (pure _quads) HB
      /\ miss _full_house HB /\ miss (pure _flush) HB /\ miss _straight HB
      /\ miss (pure _trips) HB
      /\ hit (pure _two_pair) "Two Pair" HB out)
  \/ (miss (pure _straight_flush) HB /\ miss (pure _quads) HB
      /\ miss _full_house HB /\ miss (pure _flush) HB /\ miss _straight HB
      /\ miss (pure _trips) HB /\ miss (pure _two_pair) HB
      /\ hit (pure _one_pair) "Pair" HB out)
  \/ (miss (pure _straight_flush) HB /\ miss (pure _quads) HB
      /\ miss _full_house HB /\ miss (pure _flush) HB /\ miss _straight HB
      /\ miss (pure _trips) HB /\ miss (pure _two_pair) HB
      /\ miss (pure _one_pair) HB
      /\ out = (Made (_fill_hand (v_values HB) [] 5), "none")).
Proof.
  intros wf.
  destruct (detectors_settled wf) as (H1 & H2 & H3 & H4 & H5 & H6 & H7 & H8).
  cbv zeta. remember (fst (_best_hand HB r)) as out eqn:Eo.
  unfold _best_hand, phands in Eo.
  change (fun HB0 => ret (_straight_flush HB0)) with (pure _straight_flush) in Eo.
  change (fun HB0 => ret (_quads HB0)) with (pure _quads) in Eo.
  change (fun HB0 => ret (_flush HB0)) with (pure _flush) in Eo.
  change (fun HB0 => ret (_trips HB0)) with (pure _trips) in Eo.
  change (fun HB0 => ret (_two_pair HB0)) with (pure _two_pair) in Eo.
  change (fun HB0 => ret (_one_pair HB0)) with (pure _one_pair) in Eo.
  resolver_step (pure _straight_flush) H1 Eo.
  resolver_step (pure _quads) H2 Eo.
  resolver_step _full_house H3 Eo.
  resolver_step (pure _flush) H4 Eo.
  resolver_step _straight H5 Eo.
  resolver_step (pure _trips) H6 Eo.
  resolver_step (pure _two_pair) H7 Eo.
  resolver_step (pure _one_pair) H8 Eo.
  repeat (split; [assumption |]). exact Eo.
Qed.

(** The resolver's answer, read from its label. *)
Ltac by_label Hlab :=
  repeat match goal with
         | H : hit _ _ _ _ |- _ =>
             let T := fresh "T" in
             let r' := fresh "r" in
             let E := fresh "E" in
             destruct H as [T [r' E]]
         | H : _ /\ _ |- _ => destruct H
         end;
  match goal with
  | E : fst (_best_hand _ _) = _ |- _ =>
      rewrite E in Hlab; cbn [snd] in Hlab; try discriminate Hlab;
      rewrite E; cbn [fst snd]
  end.

Lemma miss_pure (HB : HBoard_view) (d : HBoard_view -> detected) :
  good_result HB (d HB) -> miss (pure d) HB -> d HB = PFalse.
Proof.
  intros Hg Hm. specialize (Hm []). unfold pure, ret in Hm. cbn [fst] in Hm.
  destruct (d HB) as [| bh]; [reflexivity |]. destruct Hg as [_ Hne].
  rewrite (nonempty_truthy Hne) in Hm. discriminate.
Qed.

Lemma first_match_split (A : Type) (test : A -> bool) (found : A -> detected)
      (xs : list A) :
  (first_match test found xs = PFalse /\ forall x, In x xs -> test x = false)
  \/ exists pre x post,
       xs = pre ++ x :: post
       /\ (forall y, In y pre -> test y = false)
       /\ test x = true
       /\ first_match test found xs = found x.
Proof.
  induction xs as [| x xs IH]; cbn [first_match].
  - left. split; [reflexivity | intros x []].
  - destruct (test x) eqn:E.
    + right. exists [], x, xs. repeat split; auto. intros y [].
    + destruct IH as [[H1 H2] | (pre & y & post & -> & Hp & Ht & Ef)].
      * left. split; [assumption | intros z [<- | Hz]; auto].
      * right. exists (x :: pre), y, post. repeat split; auto.
        intros z [<- | Hz]; auto.
Qed.

Lemma index_of_app_notin (w : string) (pre l : list string) :
  ~ In w pre -> index_of w (pre ++ l) = length pre + index_of w l.
Proof.
  induction pre as [| y pre IH]; intros H; [reflexivity |].
  cbn [app length]. rewrite index_of_tail.
  - rewrite IH; [lia |]. intros Hin. apply H. now right.
  - intros ->. apply H. now left.
Qed.

(** The first element that passes a test comes before every other one
    that passes it. *)
Lemma first_passing_rank (test : string -> bool) (pre post : list string)
      (x w : string) :
  (forall y, In y pre -> test y = false) -> test x = true -> test w = true ->
  index_of x (pre ++ x :: post) <= index_of w (pre ++ x :: post).
Proof.
  intros Hp Hx Hw.
  assert (Nx : ~ In x pre) by (intros H; apply Hp in H; congruence).
  assert (Nw : ~ In w pre) by (intros H; apply Hp in H; congruence).
  rewrite !index_of_app_notin by assumption. rewrite index_of_head. lia.
Qed.

Section Shapes.

Variable HB : HBoard_view.
Hypothesis wf : wf_view HB.

Lemma entry_at_most_four (v : string) :
  length (dict_get_default (v_values HB) v) <= 4.
Proof.
  change 4 with (length four_suits).
  apply NoDup_incl_length; [apply (values_NoDup wf) |].
  intros s Hs. now apply (values_card wf) in Hs.
Qed.

Lemma entry_unknown_value (v : string) :
  ~ In v all_values -> dict_get_default (v_values HB) v = [].
Proof.
  intros Hv. destruct (dict_get_default (v_values HB) v) as [| s l] eqn:E;
    [reflexivity |].
  exfalso. apply Hv.
  assert (Hs : In s (dict_get_default (v_values HB) v)) by (rewrite E; now left).
  now apply (values_card wf) in Hs.
Qed.

Lemma card_entry (c : string) :
  In c (v_cards HB) ->
  In (suit_of c) (dict_get_default (v_values HB) (value_of c))
  /\ In (value_of c) all_values
  /\ (value_of c ++ suit_of c)%string = c.
Proof.
  intros Hc. split.
  - apply (ix_in (wf_values wf)). exists c. auto.
  - apply (wf_deck wf), deck52_card in Hc. tauto.
Qed.

Lemma cards_of_value_In (v : string) (l : list string) (x : string) :
  In x (cards_of_value v l) <-> In x l /\ value_of x = v.
Proof.
  unfold cards_of_value. rewrite filter_In, String.eqb_eq. reflexivity.
Qed.

(** A hand that holds all the cards of a value holds as many cards of
    that value as the index has suits for it. *)
Lemma kind_in_hand (v : string) (bh : pyset) :
  NoDup bh -> incl bh (v_cards HB) ->
  (forall s, In s (dict_get_default (v_values HB) v) ->
             In (v ++ s)%string bh) ->
  length (cards_of_value v bh) = length (dict_get_default (v_values HB) v).
Proof.
  intros Hn Hi Hall.
  transitivity (length (map (fun s => (v ++ s)%string)
                            (dict_get_default (v_values HB) v)));
    [| apply length_map].
  apply NoDup_same_length.
  - now apply NoDup_filter.
  - apply NoDup_map_append, (values_NoDup wf).
  - intros x. rewrite cards_of_value_In, in_map_iff. split.
    + intros [Hx <-]. destruct (card_entry x (Hi x Hx)) as (Hs & _ & E).
      exists (suit_of x). auto.
    + intros (s & <- & Hs). split; [now apply Hall |].
      apply (values_card wf) in Hs. destruct Hs as (_ & Hv & _).
      now apply value_of_value.
Qed.

Lemma count_value (v : string) :
  length (cards_of_value v (v_cards HB))
  = length (dict_get_default (v_values HB) v).
Proof.
  apply kind_in_hand; [apply (wf_nodup wf) | apply incl_refl |].
  intros s Hs. now apply (values_card wf) in Hs.
Qed.

Lemma fill_highest_wf (dead : pyset) (n : Z) (k c : string) :
  NoDup dead -> (1 <= n)%Z ->
  In k (_fill_hand (v_values HB) dead n) -> ~ In k dead ->
  In c (v_cards HB) -> ~ In c (_fill_hand (v_values HB) dead n) ->
  rank (value_of k) <= rank (value_of c).
Proof.
  intros Hdd H1 Hk Hnk Hc Hskip. unfold _fill_hand in *.
  destruct (card_entry c Hc) as (Hs & Hv & E). rewrite <- E in Hskip.
  destruct (fill_values_highest (v_values HB) all_values Hdd H1 k Hk Hnk
              (value_of c) (suit_of c) Hv Hs Hskip)
    as (v' & s' & -> & Hv' & Hs' & Hle).
  unfold rank. now rewrite (value_of_value s' Hv').
Qed.

(** A made set that holds all the cards of the value [v] and nothing
    else, filled with kickers. *)
Lemma fill_kind_content (v : string) (made : pyset) (n : Z) :
  NoDup made ->
  (forall x, In x made
             <-> exists s, In s (dict_get_default (v_values HB) v)
                           /\ x = (v ++ s)%string) ->
  made <> [] -> (1 <= n)%Z ->
  let bh := _fill_hand (v_values HB) made n in
  length (cards_of_value v bh) = length (dict_get_default (v_values HB) v)
  /\ forall k c, In k bh -> value_of k <> v ->
                 In c (v_cards HB) -> ~ In c bh ->
                 rank (value_of k) <= rank (value_of c).
Proof.
  intros Hn Hm Hne H1. cbv zeta.
  assert (Hv : In v all_values).
  { destruct made as [| x made]; [congruence |].
    destruct (proj1 (Hm x) (or_introl eq_refl)) as (s & Hs & _).
    now apply (values_card wf) in Hs. }
  unfold _fill_hand.
  destruct (fill_values_spec (v_values HB) all_values Hn H1)
    as (F1 & F2 & F3 & _).
  fold (_fill_hand (v_values HB) made n) in *.
  assert (Hincl : incl (_fill_hand (v_values HB) made n) (v_cards HB)).
  { intros c Hc. destruct (F3 c Hc) as [H | (v' & s' & _ & Hs' & ->)].
    - apply Hm in H. destruct H as (s & Hs & ->). now apply (values_card wf).
    - now apply (values_card wf). }
  split.
  - apply kind_in_hand; auto. intros s Hs. apply F2, Hm. eauto.
  - intros k c Hk Hkv Hc Hskip. apply fill_highest_wf with (dead := made) (n := n);
      auto.
    intros Hin. apply Hm in Hin. destruct Hin as (s & _ & ->).
    apply Hkv. now apply value_of_value.
Qed.

Lemma value_cards_In (v : string) (x : string) :
  In x (set_comp (fun suit => join [v; suit]) (dict_get_default (v_values HB) v))
  <-> exists s, In s (dict_get_default (v_values HB) v) /\ x = (v ++ s)%string.
Proof.
  rewrite set_comp_In. split; intros (s & Hs & E); exists s; split; auto.
Qed.

Lemma kind_detector_content (k : nat) (n : Z) (d : detected) (bh : pyset) :
  d = first_match
        (fun value => (length (dict_get_default (v_values HB) value) =? S k)%nat)
        (fun value =>
           Made (_fill_hand (v_values HB)
                   (set_comp (fun suit => join [value; suit])
                             (dict_get_default (v_values HB) value)) n))
        all_values ->
  (1 <= n)%Z -> d = Made bh ->
  exists v,
    length (cards_of_value v bh) = S k
    /\ length (dict_get_default (v_values HB) v) = S k
    /\ (forall w, length (dict_get_default (v_values HB) w) = S k ->
                  rank v <= rank w)
    /\ forall x c, In x bh -> value_of x <> v ->
                   In c (v_cards HB) -> ~ In c bh ->
                   rank (value_of x) <= rank (value_of c).
Proof.
  intros Ed H1 E. rewrite Ed in E. clear Ed.
  match type of E with first_match ?t ?f ?l = _ =>
    destruct (first_match_split t f l)
      as [[Ef _] | (pre & v & post & Es & Hp & Ht & Ef)] end;
    rewrite Ef in E; [discriminate |].
  cbv beta in Ht. apply Nat.eqb_eq in Ht. inversion E; subst bh; clear E Ef.
  exists v.
  destruct (value_cards wf v) as (_ & V2 & _ & V4).
  assert (Vne : set_comp (fun suit => join [v; suit])
                         (dict_get_default (v_values HB) v) <> []).
  { apply length_nonempty with (n := k). now rewrite V4. }
  destruct (fill_kind_content v V2 (value_cards_In v) Vne H1) as [C1 C2].
  split; [now rewrite C1 |]. split; [exact Ht |]. split; [| exact C2].
  intros w Hw. unfold rank. rewrite Es.
  apply first_passing_rank
    with (test := fun value =>
                    (length (dict_get_default (v_values HB) value) =? S k)%nat);
    auto.
  - cbv beta. now apply Nat.eqb_eq.
  - cbv beta. now apply Nat.eqb_eq.
Qed.

Lemma kind_detector_none (k : nat) (found : string -> detected) :
  (forall v, found v <> PFalse) ->
  first_match
    (fun value => (length (dict_get_default (v_values HB) value) =? S k)%nat)
    found all_values = PFalse ->
  forall v, length (dict_get_default (v_values HB) v) <> S k.
Proof.
  intros Hf E v Hl.
  match type of E with first_match ?t ?f ?l = _ =>
    destruct (first_match_inv t f l) as [[_ Hall] | (x & _ & _ & Ef)] end.
  - destruct (in_dec string_dec v all_values) as [Hv | Hv].
    + specialize (Hall v Hv). cbv beta in Hall. apply Nat.eqb_neq in Hall.
      contradiction.
    + rewrite entry_unknown_value in Hl by exact Hv. discriminate.
  - rewrite E in Ef. symmetry in Ef. now apply Hf in Ef.
Qed.

Lemma one_pair_none :
  _one_pair HB = PFalse ->
  forall v, length (dict_get_default (v_values HB) v) <> 2.
Proof. apply kind_detector_none. discriminate. Qed.

Lemma trips_none :
  _trips HB = PFalse ->
  forall v, length (dict_get_default (v_values HB) v) <> 3.
Proof. apply kind_detector_none. discriminate. Qed.

Lemma quads_none_wf :
  _quads HB = PFalse ->
  forall v, length (dict_get_default (v_values HB) v) <> 4.
Proof.
  unfold _quads. cbv zeta. intros E v Hl.
  match type of E with first_match ?t ?f ?l = _ =>
    destruct (first_match_inv t f l) as [[_ Hall] | (x & _ & _ & Ef)] end.
  - assert (Hk : In v (dict_keys (v_values HB))).
    { apply dict_mem_keys. destruct (dict_mem (v_values HB) v) eqn:Em;
        [reflexivity |].
      rewrite (dict_mem_false_default _ _ Em) in Hl. discriminate. }
    specialize (Hall v Hk). cbv beta in Hall. apply Nat.eqb_neq in Hall.
    contradiction.
  - rewrite E in Ef. discriminate.
Qed.

End Shapes.

Lemma init_unfold (hand flop turn river : arg) (r : rng) (hb : HBoard) :
  wf_arg hand ->
  fst (HBoard_init hand flop turn river r) = OK hb ->
  wf_view (view hb)
  /\ HBoard_view_init hand flop turn river = OK (view hb)
  /\ best_hand hb = fst (fst (_best_hand (view hb) r))
  /\ best_hand_type hb = snd (fst (_best_hand (view hb) r)).
Proof.
  intros Hw H. unfold HBoard_init in H.
  destruct (HBoard_view_init hand flop turn river) as [HB | e] eqn:E;
    [| discriminate].
  pose proof (view_init_wf _ _ _ _ Hw E) as wf.
  unfold bind, ret in H. destruct (_best_hand HB r) as [[made name] r'] eqn:Eb.
  cbn [fst snd] in H. inversion H; subst hb; clear H. cbn [view best_hand best_hand_type].
  rewrite Eb. auto.
Qed.

Lemma index_of_inj (a b : string) (l : list string) :
  In a l -> In b l -> index_of a l = index_of b l -> a = b.
Proof.
  induction l as [| y l IH]; intros Ha Hb E; [destruct Ha |].
  cbn [index_of] in E.
  destruct (String.eqb_spec a y) as [-> | Na], (String.eqb_spec b y) as [-> | Nb];
    try congruence; try discriminate.
  destruct Ha as [Ha | Ha]; [congruence |].
  destruct Hb as [Hb | Hb]; [congruence |]. apply IH; auto.
Qed.

Section Kinds.

Variable HB : HBoard_view.
Hypothesis wf : wf_view HB.

Lemma two_pair_inner_None (v1 : string) (vs : list string) :
  two_pair_inner HB v1 vs = None ->
  forall v2, In v2 vs -> length (dict_get_default (v_values HB) v2) = 2 ->
             v2 = v1.
Proof.
  induction vs as [| v vs IH]; cbn [two_pair_inner]; intros E v2 Hv2 Hl;
    [destruct Hv2 |].
  destruct ((length (dict_get_default (v_values HB) v) =? 2)%nat
            && negb (String.eqb v v1)) eqn:Et; [discriminate |].
  destruct Hv2 as [<- | Hv2]; [| now apply IH].
  apply Nat.eqb_eq in Hl. rewrite Hl in Et. cbn [andb] in Et.
  apply negb_false_iff in Et. now apply String.eqb_eq.
Qed.

Lemma two_pair_inner_Some (v1 : string) (vs : list string) (d : detected) :
  two_pair_inner HB v1 vs = Some d -> d <> PFalse.
Proof.
  induction vs as [| v vs IH]; cbn [two_pair_inner]; [discriminate |].
  destruct ((length (dict_get_default (v_values HB) v) =? 2)%nat
            && negb (String.eqb v v1)); [| exact IH].
  intros E. inversion E. discriminate.
Qed.

Lemma two_pair_outer_none (vs : list string) :
  two_pair_outer HB vs = PFalse ->
  forall v1, In v1 vs -> length (dict_get_default (v_values HB) v1) = 2 ->
  forall v2, In v2 all_values ->
             length (dict_get_default (v_values HB) v2) = 2 -> v2 = v1.
Proof.
  induction vs as [| v vs IH]; cbn [two_pair_outer]; intros E v1 Hv1 Hl1;
    [destruct Hv1 |].
  destruct (length (dict_get_default (v_values HB) v) =? 2)%nat eqn:Et.
  - destruct (two_pair_inner HB v all_values) as [d |] eqn:Ei.
    + apply two_pair_inner_Some in Ei. congruence.
    + destruct Hv1 as [<- | Hv1]; [now apply two_pair_inner_None |].
      now apply IH.
  - destruct Hv1 as [<- | Hv1]; [| now apply IH].
    apply Nat.eqb_neq in Et. contradiction.
Qed.

Lemma two_pair_none (v1 v2 : string) :
  _two_pair HB = PFalse ->
  length (dict_get_default (v_values HB) v1) = 2 ->
  length (dict_get_default (v_values HB) v2) = 2 -> v2 = v1.
Proof.
  intros E H1 H2.
  apply two_pair_outer_none with (vs := all_values); auto.
  - now apply (values_known wf) with (k := 1).
  - now apply (values_known wf) with (k := 1).
Qed.

Lemma full_house_inner_None (v1 : string) (vs : list string) :
  full_house_inner HB v1 vs = None ->
  forall v2, In v2 vs -> v2 <> v1 ->
             length (dict_get_default (v_values HB) v2) < 2.
Proof.
  induction vs as [| v vs IH]; cbn [full_house_inner]; intros E v2 Hv2 Hne;
    [destruct Hv2 |].
  destruct ((2 <=? length (dict_get_default (v_values HB) v))%nat
            && negb (String.eqb v v1)) eqn:Et; [discriminate |].
  destruct Hv2 as [<- | Hv2]; [| now apply IH].
  apply String.eqb_neq in Hne. rewrite Hne in Et. cbn [negb] in Et.
  rewrite andb_true_r in Et. now apply Nat.leb_gt.
Qed.

Lemma full_house_outer_miss (vs : list string) :
  miss (fun HB0 => full_house_outer HB0 vs) HB ->
  forall v1, In v1 vs -> length (dict_get_default (v_values HB) v1) = 3 ->
  forall v2, In v2 all_values -> v2 <> v1 ->
             length (dict_get_default (v_values HB) v2) < 2.
Proof.
  unfold miss. induction vs as [| v vs IH]; cbn [full_house_outer];
    intros E v1 Hv1 Hl1; [destruct Hv1 |].
  destruct (length (dict_get_default (v_values HB) v) =? 3)%nat eqn:Et.
  - apply Nat.eqb_eq in Et.
    pose proof (full_house_inner_spec wf v all_values Et) as Hs.
    destruct (full_house_inner HB v all_values) as [m |] eqn:Ei.
    + exfalso. destruct (Hs []) as (bh & Eb & _ & Hne).
      specialize (E []). rewrite Eb, (nonempty_truthy Hne) in E. discriminate.
    + destruct Hv1 as [<- | Hv1]; [now apply full_house_inner_None |].
      now apply IH.
  - destruct Hv1 as [<- | Hv1]; [| now apply IH].
    apply Nat.eqb_neq in Et. contradiction.
Qed.

Lemma full_house_miss (v1 v2 : string) :
  miss _full_house HB ->
  length (dict_get_default (v_values HB) v1) = 3 -> v2 <> v1 ->
  length (dict_get_default (v_values HB) v2) < 2.
Proof.
  intros E H1 Hne.
  destruct (in_dec string_dec v2 all_values) as [Hv | Hv].
  - apply full_house_outer_miss with (vs := all_values) (v1 := v1); auto.
    now apply (values_known wf) with (k := 2).
  - rewrite (entry_unknown_value wf) by exact Hv. simpl. lia.
Qed.

Lemma quads_content (bh : pyset) :
  _quads HB = Made bh ->
  exists v,
    length (cards_of_value v bh) = 4
    /\ forall x c, In x bh -> value_of x <> v ->
                   In c (v_cards HB) -> ~ In c bh ->
                   rank (value_of x) <= rank (value_of c).
Proof.
  unfold _quads. cbv zeta. intros E.
  match type of E with first_match ?t ?f ?l = _ =>
    destruct (first_match_inv t f l) as [[Ef _] | (v & _ & Ht & Ef)] end;
    rewrite Ef in E; [discriminate |].
  cbv beta zeta in E, Ht. apply Nat.eqb_eq in Ht. inversion E; subst bh; clear E Ef.
  exists v. destruct (quads_cards wf v Ht) as (Q1 & Q2 & Q3). cbv zeta in Q1, Q2, Q3.
  assert (Hsame : forall s, In s four_suits
                            <-> In s (dict_get_default (v_values HB) v)).
  { intros s. split.
    - apply NoDup_length_incl.
      + apply (values_NoDup wf).
      + rewrite Ht. simpl. lia.
      + intros s' Hs'. now apply (values_card wf) in Hs'.
    - intros Hs. now apply (values_card wf) in Hs. }
  assert (Hm : forall x,
             In x (set_comp (fun suit => join [v; suit])
                            (set_of_list ["s"; "h"; "d"; "c"]))
             <-> exists s, In s (dict_get_default (v_values HB) v)
                           /\ x = (v ++ s)%string).
  { intros x. rewrite set_comp_In.
    change (set_of_list ["s"; "h"; "d"; "c"]) with four_suits.
    split; intros (s & Hs & Ex); exists s; split; auto; now apply Hsame. }
  assert (Hne : set_comp (fun suit => join [v; suit])
                         (set_of_list ["s"; "h"; "d"; "c"]) <> []).
  { apply length_nonempty with (n := 3). exact Q3. }
  destruct (fill_kind_content wf v Q1 Hm Hne (n := 1)) as [C1 C2]; [lia |].
  split; [now rewrite C1 | exact C2].
Qed.

End Kinds.

(** X10.  When the category is Four of a Kind, the best hand holds four
    cards of one value, and its other card is a highest card among those
    left.  Four cards of one value among the aggregate's cards are never
    missed: the category is then Four of a Kind, or Straight Flush. *)
Theorem four_of_a_kind_hand (hand flop turn river : arg) (r : rng)
        (hb : HBoard) :
  wf_arg hand ->
  fst (HBoard_init hand flop turn river r) = OK hb ->
  (best_hand_type hb = "Four of a Kind" ->
   exists bh v,
     best_hand hb = Made bh
     /\ length (cards_of_value v bh) = 4
     /\ forall x c, In x bh -> value_of x <> v ->
                    In c (v_cards (view hb)) -> ~ In c bh ->
                    rank (value_of x) <= rank (value_of c))
  /\ ((exists v, length (cards_of_value v (v_cards (view hb))) = 4) ->
      best_hand_type hb = "Straight Flush"
      \/ best_hand_type hb = "Four of a Kind").
Proof.
  intros Hw H. destruct (init_unfold _ _ _ _ _ Hw H) as (wf & _ & Eb & Et).
  pose proof (resolver_cases r wf) as Hc. cbv zeta in Hc.
  rewrite Eb, Et. split.
  - intros Hlab.
    destruct Hc as [Hc | [Hc | [Hc | [Hc | [Hc | [Hc | [Hc | [Hc | Hc]]]]]]]];
      by_label Hlab.
    match goal with T : forall _, truthy _ = true |- _ =>
      specialize (T []); unfold pure, ret in T; cbn [fst] in T end.
    unfold pure, ret. cbn [fst].
    destruct (_quads (view hb)) as [| bh] eqn:Eq; [discriminate |].
    destruct (quads_content wf Eq) as (v & Q1 & Q2). exists bh, v. auto.
  - intros (v & Hv). rewrite (count_value wf) in Hv.
    destruct Hc as [Hc | [Hc | Hc]].
    + left. destruct Hc as [_ [r' E]]. now rewrite E.
    + right. destruct Hc as [_ [_ [r' E]]]. now rewrite E.
    + exfalso. destruct Hc as [Hc | [Hc | [Hc | [Hc | [Hc | [Hc | Hc]]]]]];
        destruct Hc as (_ & Hq & _);
        apply (miss_pure (quads_good wf)) in Hq;
        (eapply quads_none_wf; eauto).
Qed.

Ltac take_hit :=
  match goal with
  | T : forall _, truthy _ = true |- _ =>
      specialize (T []); unfold pure, ret in T; cbn [fst] in T
  end;
  unfold pure, ret; cbn [fst].

Ltac plain_misses wf :=
  repeat match goal with
         | M : miss (pure _quads) _ |- _ =>
             apply (miss_pure (quads_good wf)) in M
         | M : miss (pure _trips) _ |- _ =>
             apply (miss_pure (trips_good wf)) in M
         | M : miss (pure _two_pair) _ |- _ =>
             apply (miss_pure (two_pair_good wf)) in M
         | M : miss (pure _one_pair) _ |- _ =>
             apply (miss_pure (one_pair_good wf)) in M
         end.

Ltac all_cases Hc :=
  destruct Hc as [Hc | [Hc | [Hc | [Hc | [Hc | [Hc | [Hc | [Hc | Hc]]]]]]]].

(** X11.  When the category is Three of a Kind, the best hand holds
    three cards of one value, no other value occurs twice among the
    aggregate's cards, and the other cards of the best hand are highest
    cards among those left. *)
Theorem three_of_a_kind_hand (hand flop turn river : arg) (r : rng)
        (hb : HBoard) :
  wf_arg hand ->
  fst (HBoard_init hand flop turn river r) = OK hb ->
  best_hand_type hb = "Three of a Kind" ->
  exists bh v,
    best_hand hb = Made bh
    /\ length (cards_of_value v bh) = 3
    /\ (forall w, w <> v -> length (cards_of_value w (v_cards (view hb))) <= 1)
    /\ forall x c, In x bh -> value_of x <> v ->
                   In c (v_cards (view hb)) -> ~ In c bh ->
                   rank (value_of x) <= rank (value_of c).
Proof.
  intros Hw H Hlab. destruct (init_unfold _ _ _ _ _ Hw H) as (wf & _ & Eb & Et).
  pose proof (resolver_cases r wf) as Hc. cbv zeta in Hc.
  rewrite Et in Hlab. rewrite Eb. all_cases Hc; by_label Hlab. take_hit.
  destruct (_trips (view hb)) as [| bh] eqn:E3; [discriminate |].
  destruct (kind_detector_content wf 2 (n := 2%Z) (d := _trips (view hb))
              (bh := bh)) as (v & K1 & K2 & _ & K4); auto; [lia |].
  exists bh, v. split; [reflexivity |]. split; [exact K1 |]. split; [| exact K4].
  intros w Hne. rewrite (count_value wf).
  match goal with M : miss _full_house _ |- _ =>
    pose proof (full_house_miss wf (v1 := v) (v2 := w) M K2 Hne) as N2 end.
  clear - N2. lia.
Qed.

(** X12.  When the category is Pair, the best hand holds two cards of
    one value, every other value occurs once at most among the
    aggregate's cards, and the other cards of the best hand are highest
    cards among those left. *)
Theorem pair_hand (hand flop turn river : arg) (r : rng) (hb : HBoard) :
  wf_arg hand ->
  fst (HBoard_init hand flop turn river r) = OK hb ->
  best_hand_type hb = "Pair" ->
  exists bh v,
    best_hand hb = Made bh
    /\ length (cards_of_value v bh) = 2
    /\ (forall w, w <> v -> length (cards_of_value w (v_cards (view hb))) <= 1)
    /\ forall x c, In x bh -> value_of x <> v ->
                   In c (v_cards (view hb)) -> ~ In c bh ->
                   rank (value_of x) <= rank (value_of c).
Proof.
  intros Hw H Hlab. destruct (init_unfold _ _ _ _ _ Hw H) as (wf & _ & Eb & Et).
  pose proof (resolver_cases r wf) as Hc. cbv zeta in Hc.
  rewrite Et in Hlab. rewrite Eb. all_cases Hc; by_label Hlab. take_hit.
  destruct (_one_pair (view hb)) as [| bh] eqn:E1; [discriminate |].
  destruct (kind_detector_content wf 1 (n := 3%Z) (d := _one_pair (view hb))
              (bh := bh)) as (v & K1 & K2 & _ & K4); auto; [lia |].
  exists bh, v. split; [reflexivity |]. split; [exact K1 |]. split; [| exact K4].
  intros w Hne. rewrite (count_value wf).
  plain_misses wf.
  pose proof (entry_at_most_four wf w) as Hfour.
  match goal with Q : _quads _ = PFalse |- _ =>
    pose proof (@quads_none_wf _ Q w) as N4 end.
  match goal with Q : _trips _ = PFalse |- _ =>
    pose proof (trips_none wf Q w) as N3 end.
  match goal with Q : _two_pair _ = PFalse |- _ =>
    pose proof (fun E => two_pair_none wf v w Q K2 E) as N2 end.
  destruct (Nat.eq_dec (length (dict_get_default (v_values (view hb)) w)) 2)
    as [E2 | E2]; [exfalso; apply Hne; exact (N2 E2) |].
  clear - Hfour N4 N3 E2. lia.
Qed.

(** X13.  When the category is "none", no two cards of the aggregate
    have the same value, and the best hand is made of the highest cards:
    each of its cards is strictly higher than each card left out. *)
Theorem high_card_hand (hand flop turn river : arg) (r : rng) (hb : HBoard) :
  wf_arg hand ->
  fst (HBoard_init hand flop turn river r) = OK hb ->
  best_hand_type hb = "none" ->
  (forall c c', In c (v_cards (view hb)) -> In c' (v_cards (view hb)) ->
                value_of c = value_of c' -> c = c')
  /\ exists bh,
       best_hand hb = Made bh
       /\ forall x c, In x bh -> In c (v_cards (view hb)) -> ~ In c bh ->
                      rank (value_of x) < rank (value_of c).
Proof.
  intros Hw H Hlab. destruct (init_unfold _ _ _ _ _ Hw H) as (wf & _ & Eb & Et).
  pose proof (resolver_cases r wf) as Hc. cbv zeta in Hc.
  rewrite Et in Hlab. rewrite Eb. all_cases Hc; by_label Hlab.
  plain_misses wf.
  assert (Hone : forall v, length (dict_get_default (v_values (view hb)) v) <= 1).
  { intros v. pose proof (entry_at_most_four wf v) as Hfour.
    match goal with Q : _quads _ = PFalse |- _ =>
      pose proof (@quads_none_wf _ Q v) as N4 end.
    match goal with Q : _trips _ = PFalse |- _ =>
      pose proof (trips_none wf Q v) as N3 end.
    match goal with Q : _one_pair _ = PFalse |- _ =>
      pose proof (one_pair_none wf Q v) as N2 end.
    clear - Hfour N4 N3 N2. lia. }
  assert (Hinj : forall c c', In c (v_cards (view hb)) ->
                              In c' (v_cards (view hb)) ->
                              value_of c = value_of c' -> c = c').
  { intros c c' Hc Hc' Ev.
    destruct (card_entry wf c Hc) as (Hs & _ & E).
    destruct (card_entry wf c' Hc') as (Hs' & _ & E').
    rewrite <- Ev in Hs'. specialize (Hone (value_of c)).
    pose proof (values_NoDup wf (value_of c)) as Hnd.
    destruct (dict_get_default (v_values (view hb)) (value_of c))
      as [| s0 [| s1 l]]; simpl in Hone; [destruct Hs | | lia].
    destruct Hs as [Es0 | []], Hs' as [Es | []].
    transitivity (value_of c ++ suit_of c)%string; [symmetry; exact E |].
    transitivity (value_of c' ++ suit_of c')%string; [| exact E'].
    rewrite Ev, <- Es0, <- Es. reflexivity. }
  split; [exact Hinj |].
  eexists. split; [reflexivity |]. intros x c Hx Hc Hskip.
  assert (Hle : rank (value_of x) <= rank (value_of c)).
  { apply (fill_highest_wf wf) with (dead := []) (n := 5%Z); auto.
    - constructor.
    - lia. }
  assert (Hxc : In x (v_cards (view hb))).
  { destruct (fill_hand_good wf (dead := []) (n := 5%Z)) as (_ & Hi & _); auto.
    - constructor.
    - intros y [].
    - lia. }
  assert (Hne : rank (value_of x) <> rank (value_of c)).
  { intros E. apply index_of_inj in E.
    - apply Hinj in E; auto. subst c. contradiction.
    - now apply (card_entry wf).
    - now apply (card_entry wf). }
  clear - Hle Hne. lia.
Qed.

(** ** Two pair and full house *)

Lemma cards_of_value_app (v : string) (a b : list string) :
  cards_of_value v (a ++ b) = cards_of_value v a ++ cards_of_value v b.
Proof. apply filter_app. Qed.

Lemma cards_of_value_same (v : string) (l : list string) :
  (forall x, In x l -> value_of x = v) -> cards_of_value v l = l.
Proof.
  induction l as [| x l IH]; intros H; [reflexivity |].
  unfold cards_of_value in *. cbn [filter].
  destruct (String.eqb_spec (value_of x) v) as [_ | N].
  - f_equal. apply IH. intros y Hy. apply H. now right.
  - exfalso. apply N, H. now left.
Qed.

Lemma cards_of_value_other (v : string) (l : list string) :
  (forall x, In x l -> value_of x <> v) -> cards_of_value v l = [].
Proof.
  induction l as [| x l IH]; intros H; [reflexivity |].
  unfold cards_of_value in *. cbn [filter].
  destruct (String.eqb_spec (value_of x) v) as [E | _].
  - exfalso. apply (H x); [now left | exact E].
  - apply IH. intros y Hy. apply H. now right.
Qed.

Section Pairs.

Variable HB : HBoard_view.
Hypothesis wf : wf_view HB.

Lemma fill_made_content (made : pyset) (n : Z) :
  NoDup made -> incl made (v_cards HB) -> (1 <= n)%Z ->
  let bh := _fill_hand (v_values HB) made n in
  NoDup bh /\ incl made bh /\ incl bh (v_cards HB)
  /\ forall k c, In k bh -> ~ In k made -> In c (v_cards HB) -> ~ In c bh ->
                 rank (value_of k) <= rank (value_of c).
Proof.
  intros Hn Hi H1. cbv zeta. unfold _fill_hand.
  destruct (fill_values_spec (v_values HB) all_values Hn H1)
    as (F1 & F2 & F3 & _).
  fold (_fill_hand (v_values HB) made n) in *.
  split; [exact F1 |]. split; [exact F2 |]. split.
  - intros c Hc. destruct (F3 c Hc) as [H | (v' & s' & _ & Hs' & ->)];
      [now apply Hi | now apply (values_card wf)].
  - intros k c Hk Hnk Hc Hskip.
    now apply (fill_highest_wf wf) with (dead := made) (n := n).
Qed.

Lemma two_pair_made (v1 v2 : string) :
  length (dict_get_default (v_values HB) v1) = 2 ->
  length (dict_get_default (v_values HB) v2) = 2 -> v2 <> v1 ->
  let made :=
    fold_left (fun acc suit => set_add (join [v2; suit]) acc)
              (iter (dict_get_default (v_values HB) v2))
      (fold_left (fun acc suit => set_add (join [v1; suit]) acc)
                 (iter (dict_get_default (v_values HB) v1)) []) in
  NoDup made /\ incl made (v_cards HB)
  /\ (forall s, In s (dict_get_default (v_values HB) v1) ->
                In (v1 ++ s)%string made)
  /\ (forall s, In s (dict_get_default (v_values HB) v2) ->
                In (v2 ++ s)%string made)
  /\ forall x, In x made -> value_of x = v1 \/ value_of x = v2.
Proof.
  intros H1 H2 Hne. cbv zeta.
  set (l1 := iter (dict_get_default (v_values HB) v1)).
  set (l2 := iter (dict_get_default (v_values HB) v2)).
  assert (Hv1 : In v1 all_values) by now apply (values_known wf) with (k := 1).
  assert (Hv2 : In v2 all_values) by now apply (values_known wf) with (k := 1).
  assert (Hn : NoDup (map (fun s => join [v1; s]) l1
                        ++ map (fun s => join [v2; s]) l2)).
  { apply two_values_NoDup; auto; apply iter_NoDup, (values_NoDup wf). }
  assert (E1 : fold_left (fun acc suit => set_add (join [v1; suit]) acc) l1 []
               = map (fun s => join [v1; s]) l1).
  { rewrite fold_add_fresh; [reflexivity |]. simpl.
    apply NoDup_app_remove_r in Hn. exact Hn. }
  rewrite E1. rewrite fold_add_fresh by exact Hn.
  split; [exact Hn |]. split; [| split; [| split]].
  - intros c Hc. apply in_app_or in Hc. rewrite !in_map_iff in Hc.
    destruct Hc as [[s [<- Hs]] | [s [<- Hs]]]; rewrite join2;
      apply (values_card wf); unfold l1, l2 in Hs; now rewrite iter_In in Hs.
  - intros s Hs. apply in_or_app. left. apply in_map_iff. exists s.
    split; [apply join2 |]. unfold l1. now rewrite iter_In.
  - intros s Hs. apply in_or_app. right. apply in_map_iff. exists s.
    split; [apply join2 |]. unfold l2. now rewrite iter_In.
  - intros x Hx. apply in_app_or in Hx. rewrite !in_map_iff in Hx.
    destruct Hx as [[s [<- _]] | [s [<- _]]]; rewrite join2; [left | right];
      now apply value_of_value.
Qed.

Lemma two_pair_inner_content (v1 : string) (vs : list string) (d : detected) :
  length (dict_get_default (v_values HB) v1) = 2 ->
  two_pair_inner HB v1 vs = Some d ->
  exists v2 bh,
    d = Made bh
    /\ In v2 vs
    /\ length (dict_get_default (v_values HB) v2) = 2
    /\ v2 <> v1
    /\ (forall w, In w vs ->
                  length (dict_get_default (v_values HB) w) = 2 -> w <> v1 ->
                  index_of v2 vs <= index_of w vs)
    /\ length (cards_of_value v1 bh) = 2
    /\ length (cards_of_value v2 bh) = 2
    /\ forall x c, In x bh -> value_of x <> v1 -> value_of x <> v2 ->
                   In c (v_cards HB) -> ~ In c bh ->
                   rank (value_of x) <= rank (value_of c).
Proof.
  intros H1. induction vs as [| v vs IH]; cbn [two_pair_inner]; intros E;
    [discriminate |].
  destruct ((length (dict_get_default (v_values HB) v) =? 2)%nat
            && negb (String.eqb v v1)) eqn:Et.
  - apply andb_true_iff in Et. destruct Et as [H2 Hne].
    apply Nat.eqb_eq in H2. apply negb_true_iff, String.eqb_neq in Hne.
    injection E as <-.
    destruct (two_pair_made H1 H2 Hne) as (M1 & M2 & M3 & M4 & M5).
    cbv zeta in M1, M2, M3, M4, M5.
    destruct (fill_made_content M1 M2 (n := 1%Z)) as (B1 & B2 & B3 & B4);
      [lia |]. cbv zeta in B1, B2, B3, B4.
    exists v. eexists. split; [reflexivity |]. split; [now left |].
    split; [exact H2 |]. split; [exact Hne |]. split; [| split; [| split]].
    + intros w _ _ _. rewrite index_of_head. apply Nat.le_0_l.
    + rewrite (kind_in_hand wf v1 B1 B3); [exact H1 |].
      intros s Hs. now apply B2, M3.
    + rewrite (kind_in_hand wf v B1 B3); [exact H2 |].
      intros s Hs. now apply B2, M4.
    + intros x c Hx N1 N2 Hc Hs. apply B4; auto.
      intros Hin. apply M5 in Hin. tauto.
  - destruct (IH E) as (v2 & bh & Ed & Hin & L2 & Hne & Hidx & Hrest).
    exists v2, bh. split; [exact Ed |]. split; [now right |].
    split; [exact L2 |]. split; [exact Hne |]. split; [| exact Hrest].
    assert (Hx : forall w, length (dict_get_default (v_values HB) w) = 2 ->
                           w <> v1 -> w <> v).
    { intros w Hl Hw ->. apply Nat.eqb_eq in Hl. rewrite Hl in Et.
      apply String.eqb_neq in Hw. rewrite Hw in Et. discriminate. }
    intros w [-> | Hw] Hl Hnw.
    + exfalso. now apply (Hx w Hl Hnw).
    + apply index_of_cons_le; [now apply Hx | now apply Hidx].
Qed.

Lemma two_pair_outer_content (vs : list string) (bh : pyset) :
  NoDup vs -> incl vs all_values ->
  two_pair_outer HB vs = Made bh ->
  exists v1 v2,
    In v1 vs
    /\ length (dict_get_default (v_values HB) v1) = 2
    /\ length (dict_get_default (v_values HB) v2) = 2
    /\ v2 <> v1
    /\ (forall w, In w vs ->
                  length (dict_get_default (v_values HB) w) = 2 ->
                  index_of v1 vs <= index_of w vs)
    /\ (forall w, length (dict_get_default (v_values HB) w) = 2 -> w <> v1 ->
                  rank v2 <= rank w)
    /\ length (cards_of_value v1 bh) = 2
    /\ length (cards_of_value v2 bh) = 2
    /\ forall x c, In x bh -> value_of x <> v1 -> value_of x <> v2 ->
                   In c (v_cards HB) -> ~ In c bh ->
                   rank (value_of x) <= rank (value_of c).
Proof.
  induction vs as [| v vs IH]; cbn [two_pair_outer]; intros Hn Hi E;
    [discriminate |].
  inversion Hn as [| ? ? Hv Hn']; subst.
  assert (Hi' : incl vs all_values) by (intros y Hy; apply Hi; now right).
  destruct (length (dict_get_default (v_values HB) v) =? 2)%nat eqn:Et.
  - apply Nat.eqb_eq in Et.
    destruct (two_pair_inner HB v all_values) as [d |] eqn:Ei.
    + destruct (two_pair_inner_content v all_values Et Ei)
        as (v2 & bh' & Ed & _ & L2 & Hne & Hidx & Hrest).
      rewrite Ed in E. injection E as ->.
      exists v, v2. split; [now left |]. split; [exact Et |].
      split; [exact L2 |]. split; [exact Hne |]. split; [| split; [| exact Hrest]].
      * intros w _ _. rewrite index_of_head. apply Nat.le_0_l.
      * intros w Hl Hw. apply Hidx; auto.
        now apply (values_known wf) with (k := 1).
    + exfalso. destruct (IH Hn' Hi' E) as (v1 & v2 & I1 & L1 & _).
      assert (E1 : v1 = v) by (eapply two_pair_inner_None; eauto).
      apply Hv. now rewrite <- E1.
  - apply Nat.eqb_neq in Et.
    destruct (IH Hn' Hi' E) as (v1 & v2 & I1 & L1 & L2 & Hne & Hidx & Hrest).
    exists v1, v2. split; [now right |]. split; [exact L1 |].
    split; [exact L2 |]. split; [exact Hne |]. split; [| exact Hrest].
    intros w [-> | Hw] Hl; [contradiction |].
    apply index_of_cons_le; [| now apply Hidx].
    intros ->. contradiction.
Qed.

Lemma full_house_inner_content (v1 : string) (vs : list string)
      (m : Rand detected) :
  length (dict_get_default (v_values HB) v1) = 3 ->
  full_house_inner HB v1 vs = Some m ->
  exists v2,
    In v2 vs
    /\ 2 <= length (dict_get_default (v_values HB) v2)
    /\ v2 <> v1
    /\ (forall w, In w vs ->
                  2 <= length (dict_get_default (v_values HB) w) -> w <> v1 ->
                  index_of v2 vs <= index_of w vs)
    /\ forall r, exists bh,
         fst (m r) = Made bh
         /\ length bh = 5
         /\ length (cards_of_value v1 bh) = 3
         /\ length (cards_of_value v2 bh) = 2.
Proof.
  intros H1. induction vs as [| v vs IH]; cbn [full_house_inner]; intros E;
    [discriminate |].
  destruct ((2 <=? length (dict_get_default (v_values HB) v))%nat
            && negb (String.eqb v v1)) eqn:Et.
  - apply andb_true_iff in Et. destruct Et as [H2 Hne].
    apply Nat.leb_le in H2. apply negb_true_iff, String.eqb_neq in Hne.
    injection E as <-.
    exists v. split; [now left |]. split; [exact H2 |]. split; [exact Hne |].
    split; [intros w _ _ _; rewrite index_of_head; apply Nat.le_0_l |].
    intros r. cbv zeta. rewrite bind_ret_fst.
    destruct (value_cards wf v1) as (T1 & T2 & T3 & T4). simpl in T1. rewrite T1.
    change (fun s : string => (v1 ++ s)%string)
      with (fun s : string => join [v1; s]).
    set (l1 := iter (dict_get_default (v_values HB) v1)).
    set (l2 := iter (dict_get_default (v_values HB) v)).
    destruct (choice2_spec r (a := l2)) as (x & y & -> & Hx & Hy & Hxy).
    { apply iter_NoDup, (values_NoDup wf). }
    { unfold l2. now rewrite iter_length. }
    assert (Hv1 : In v1 all_values) by now apply (values_known wf) with (k := 2).
    assert (Hv2 : In v all_values).
    { unfold l2 in Hx. rewrite iter_In in Hx. now apply (values_card wf) in Hx. }
    assert (Hn : NoDup (map (fun s => join [v1; s]) l1
                          ++ map (fun s => join [v; s]) [x; y])).
    { apply two_values_NoDup; auto.
      - apply iter_NoDup, (values_NoDup wf).
      - repeat constructor; simpl; intuition. }
    assert (Hp : set_of_list (map (fun suit => join [v; suit]) [x; y])
                 = map (fun s => join [v; s]) [x; y]).
    { apply set_of_list_fresh. now apply NoDup_app_remove_l in Hn. }
    rewrite Hp, set_union_fresh by exact Hn.
    eexists. split; [reflexivity |].
    assert (A1 : forall c, In c (map (fun s => join [v1; s]) l1) ->
                           value_of c = v1).
    { intros c Hc. apply in_map_iff in Hc. destruct Hc as (s & <- & _).
      rewrite join2. now apply value_of_value. }
    assert (A2 : forall c, In c (map (fun s => join [v; s]) [x; y]) ->
                           value_of c = v).
    { intros c Hc. apply in_map_iff in Hc. destruct Hc as (s & <- & _).
      rewrite join2. now apply value_of_value. }
    split; [| split].
    + rewrite length_app, !length_map. unfold l1. rewrite iter_length, H1.
      reflexivity.
    + rewrite cards_of_value_app, (cards_of_value_same _ A1),
        cards_of_value_other, app_nil_r, length_map.
      * unfold l1. now rewrite iter_length.
      * intros c Hc. rewrite (A2 c Hc). exact Hne.
    + rewrite cards_of_value_app, (cards_of_value_same _ A2),
        cards_of_value_other; [reflexivity |].
      intros c Hc. rewrite (A1 c Hc). congruence.
  - destruct (IH E) as (v2 & Hin & L2 & Hne & Hidx & Hrest).
    exists v2. split; [now right |]. split; [exact L2 |]. split; [exact Hne |].
    split; [| exact Hrest].
    assert (Hx : forall w, 2 <= length (dict_get_default (v_values HB) w) ->
                           w <> v1 -> w <> v).
    { intros w Hl Hw ->. apply Nat.leb_le in Hl. rewrite Hl in Et.
      apply String.eqb_neq in Hw. rewrite Hw in Et. discriminate. }
    intros w [-> | Hw] Hl Hnw.
    + exfalso. now apply (Hx w Hl Hnw).
    + apply index_of_cons_le; [now apply Hx | now apply Hidx].
Qed.

Lemma full_house_outer_content (vs : list string) (r0 : rng) :
  NoDup vs -> incl vs all_values ->
  truthy (fst (full_house_outer HB vs r0)) = true ->
  exists v1 v2,
    In v1 vs
    /\ length (dict_get_default (v_values HB) v1) = 3
    /\ v2 <> v1
    /\ (forall w, In w vs ->
                  length (dict_get_default (v_values HB) w) = 3 ->
                  index_of v1 vs <= index_of w vs)
    /\ (forall w, 2 <= length (dict_get_default (v_values HB) w) -> w <> v1 ->
                  rank v2 <= rank w)
    /\ forall r, exists bh,
         fst (full_house_outer HB vs r) = Made bh
         /\ length bh = 5
         /\ length (cards_of_value v1 bh) = 3
         /\ length (cards_of_value v2 bh) = 2.
Proof.
  induction vs as [| v vs IH]; cbn [full_house_outer]; intros Hn Hi E;
    [discriminate |].
  inversion Hn as [| ? ? Hv Hn']; subst.
  assert (Hi' : incl vs all_values) by (intros y Hy; apply Hi; now right).
  destruct (length (dict_get_default (v_values HB) v) =? 3)%nat eqn:Et.
  - apply Nat.eqb_eq in Et.
    destruct (full_house_inner HB v all_values) as [m |] eqn:Ei.
    + destruct (full_house_inner_content v all_values Et Ei)
        as (v2 & _ & L2 & Hne & Hidx & Hrest).
      exists v, v2. split; [now left |]. split; [exact Et |].
      split; [exact Hne |]. split; [| split; [| exact Hrest]].
      * intros w _ _. rewrite index_of_head. apply Nat.le_0_l.
      * intros w Hl Hw. apply Hidx; auto.
        destruct (dict_get_default (v_values HB) w) as [| s l] eqn:Ew;
          [simpl in Hl; lia |].
        apply (values_known wf) with (k := length l). now rewrite Ew.
    + exfalso. destruct (IH Hn' Hi' E) as (v1 & v2 & I1 & L1 & _).
      assert (Hne : v1 <> v) by (intros ->; contradiction).
      assert (Hlt : length (dict_get_default (v_values HB) v1) < 2)
        by (eapply full_house_inner_None; eauto).
      rewrite L1 in Hlt. clear - Hlt. lia.
  - apply Nat.eqb_neq in Et.
    destruct (IH Hn' Hi' E) as (v1 & v2 & I1 & L1 & Hne & Hidx & Hrest).
    exists v1, v2. split; [now right |]. split; [exact L1 |].
    split; [exact Hne |]. split; [| exact Hrest].
    intros w [-> | Hw] Hl; [contradiction |].
    apply index_of_cons_le; [| now apply Hidx].
    intros ->. contradiction.
Qed.

End Pairs.

(** X14.  When the category is Two Pair, the best hand holds two cards
    of each of two values, which are the two highest values that occur
    exactly twice among the aggregate's cards, and its fifth card is a
    highest card among those left. *)
Theorem two_pair_hand (hand flop turn river : arg) (r : rng) (hb : HBoard) :
  wf_arg hand ->
  fst (HBoard_init hand flop turn river r) = OK hb ->
  best_hand_type hb = "Two Pair" ->
  exists bh v1 v2,
    best_hand hb = Made bh
    /\ rank v1 < rank v2
    /\ length (cards_of_value v1 bh) = 2
    /\ length (cards_of_value v2 bh) = 2
    /\ (forall w, length (cards_of_value w (v_cards (view hb))) = 2 ->
                  rank v1 <= rank w /\ (w <> v1 -> rank v2 <= rank w))
    /\ forall x c, In x bh -> value_of x <> v1 -> value_of x <> v2 ->
                   In c (v_cards (view hb)) -> ~ In c bh ->
                   rank (value_of x) <= rank (value_of c).
Proof.
  intros Hw H Hlab. destruct (init_unfold _ _ _ _ _ Hw H) as (wf & _ & Eb & Et).
  pose proof (resolver_cases r wf) as Hc. cbv zeta in Hc.
  rewrite Et in Hlab. rewrite Eb. all_cases Hc; by_label Hlab. take_hit.
  destruct (_two_pair (view hb)) as [| bh] eqn:E2; [discriminate |].
  destruct (two_pair_outer_content wf all_values_NoDup (@incl_refl _ _) E2)
    as (v1 & v2 & I1 & L1 & L2 & Hne & Hidx & Hr & C1 & C2 & K).
  assert (I2 : In v2 all_values) by now apply (values_known wf) with (k := 1).
  assert (Hle : rank v1 <= rank v2) by (apply Hidx; auto).
  assert (Hneq : rank v1 <> rank v2).
  { intros E0. apply index_of_inj in E0; auto. }
  exists bh, v1, v2. split; [reflexivity |].
  split; [clear - Hle Hneq; lia |]. split; [exact C1 |]. split; [exact C2 |].
  split; [| exact K].
  intros w Lw. rewrite (count_value wf) in Lw. split.
  - apply Hidx; auto. now apply (values_known wf) with (k := 1).
  - intros Hw1. now apply Hr.
Qed.

(** X15.  When the category is Full House, the best hand has five
    cards, three of one value and two of another, whatever is drawn; the
    first is the highest value that occurs three times among the
    aggregate's cards, the second the highest other value that occurs
    twice or more.  Three cards of one value and two of another are never
    missed: the category is then Full House or a stronger one. *)
Theorem full_house_hand (hand flop turn river : arg) (r : rng) (hb : HBoard) :
  wf_arg hand ->
  fst (HBoard_init hand flop turn river r) = OK hb ->
  (best_hand_type hb = "Full House" ->
   exists bh v1 v2,
     best_hand hb = Made bh
     /\ length bh = 5
     /\ v2 <> v1
     /\ length (cards_of_value v1 bh) = 3
     /\ length (cards_of_value v2 bh) = 2
     /\ (forall w, length (cards_of_value w (v_cards (view hb))) = 3 ->
                   rank v1 <= rank w)
     /\ forall w, w <> v1 ->
                  2 <= length (cards_of_value w (v_cards (view hb))) ->
                  rank v2 <= rank w)
  /\ ((exists v1 v2,
         v2 <> v1
         /\ length (cards_of_value v1 (v_cards (view hb))) = 3
         /\ 2 <= length (cards_of_value v2 (v_cards (view hb)))) ->
      best_hand_type hb = "Straight Flush"
      \/ best_hand_type hb = "Four of a Kind"
      \/ best_hand_type hb = "Full House").
Proof.
  intros Hw H. destruct (init_unfold _ _ _ _ _ Hw H) as (wf & _ & Eb & Et).
  pose proof (resolver_cases r wf) as Hc. cbv zeta in Hc.
  rewrite Eb, Et. split.
  - intros Hlab. all_cases Hc; by_label Hlab.
    match goal with T : forall _, truthy _ = true |- _ =>
      destruct (@full_house_outer_content _ wf all_values [] all_values_NoDup
                  (@incl_refl _ _) (T []))
        as (v1 & v2 & I1 & L1 & Hne & Hidx & Hr & Hall) end.
    match goal with |- context [_full_house (view hb) ?r1] =>
      destruct (Hall r1) as (bh & Ebh & B5 & C1 & C2) end.
    unfold _full_house. rewrite Ebh.
    exists bh, v1, v2. split; [reflexivity |]. split; [exact B5 |].
    split; [exact Hne |]. split; [exact C1 |]. split; [exact C2 |]. split.
    + intros w Lw. rewrite (count_value wf) in Lw. apply Hidx; auto.
      now apply (values_known wf) with (k := 2).
    + intros w Hw1 Lw. rewrite (count_value wf) in Lw. now apply Hr.
  - intros (v1 & v2 & Hne & L1 & L2). rewrite (count_value wf) in L1, L2.
    destruct Hc as [Hc | [Hc | [Hc | Hc]]].
    + left. destruct Hc as [_ [r' E]]. now rewrite E.
    + right. left. destruct Hc as [_ [_ [r' E]]]. now rewrite E.
    + right. right. destruct Hc as [_ [_ [_ [r' E]]]]. now rewrite E.
    + exfalso. destruct Hc as [Hc | [Hc | [Hc | [Hc | [Hc | Hc]]]]];
        destruct Hc as (_ & _ & Hf & _);
        pose proof (full_house_miss wf Hf L1 Hne) as Hlt;
        clear - Hlt L2; lia.
Qed.

(** ** Flushes *)

Lemma in_skipn_list (A : Type) (n : nat) (l : list A) (x : A) :
  In x (skipn n l) -> In x l.
Proof.
  intros H. rewrite <- (firstn_skipn n l). apply in_or_app. now right.
Qed.

(** In a filtered list, what is among the first [n] elements comes
    before what is after them. *)
Lemma filter_firstn_before (P : string -> bool) (l : list string) (n : nat)
      (a b : string) :
  NoDup l ->
  In a (firstn n (filter P l)) -> In b (skipn n (filter P l)) ->
  index_of a l < index_of b l.
Proof.
  intros Hn. revert n. induction Hn as [| y l Hy Hl IH]; intros n Ha Hb.
  - rewrite firstn_nil in Ha. destruct Ha.
  - assert (Hin : forall z k, In z (firstn k (filter P l))
                              \/ In z (skipn k (filter P l)) -> z <> y).
    { intros z k [H | H] ->.
      - apply in_firstn, filter_In in H. tauto.
      - apply in_skipn_list, filter_In in H. tauto. }
    cbn [filter] in Ha, Hb. destruct (P y).
    + destruct n as [| n]; [destruct Ha |]. cbn [firstn skipn] in Ha, Hb.
      rewrite (index_of_tail l (Hin b n (or_intror Hb))).
      destruct Ha as [<- | Ha].
      * rewrite index_of_head. apply Nat.lt_0_succ.
      * rewrite (index_of_tail l (Hin a n (or_introl Ha))).
        apply -> Nat.succ_lt_mono. now apply IH with (n := n).
    + rewrite (index_of_tail l (Hin b n (or_intror Hb))).
      rewrite (index_of_tail l (Hin a n (or_introl Ha))).
      apply -> Nat.succ_lt_mono. now apply IH with (n := n).
Qed.

Section Flushes.

Variable HB : HBoard_view.
Hypothesis wf : wf_view HB.

Lemma cards_of_suit_In (s : string) (l : list string) (x : string) :
  In x (cards_of_suit s l) <-> In x l /\ suit_of x = s.
Proof.
  unfold cards_of_suit. rewrite filter_In, String.eqb_eq. reflexivity.
Qed.

Lemma card_suit_entry (c : string) :
  In c (v_cards HB) ->
  In (value_of c) (dict_get_default (v_suits HB) (suit_of c))
  /\ In (suit_of c) four_suits
  /\ (value_of c ++ suit_of c)%string = c.
Proof.
  intros Hc. split.
  - apply (ix_in (wf_suits wf)). exists c. auto.
  - apply (wf_deck wf), deck52_card in Hc. tauto.
Qed.

(** The index of suits has as many values for a suit as the aggregate
    has cards of that suit. *)
Lemma count_suit (s : string) :
  length (cards_of_suit s (v_cards HB))
  = length (dict_get_default (v_suits HB) s).
Proof.
  transitivity (length (map (fun v => join [v; s])
                            (dict_get_default (v_suits HB) s)));
    [| apply length_map].
  apply NoDup_same_length.
  - apply NoDup_filter, (wf_nodup wf).
  - apply NoDup_map_value; [| apply (suits_NoDup wf)].
    intros v Hv. now apply (suits_card wf) in Hv.
  - intros x. rewrite cards_of_suit_In, in_map_iff. split.
    + intros [Hx <-]. destruct (card_suit_entry x Hx) as (Hs & _ & E).
      exists (value_of x). auto.
    + intros (v & <- & Hv). rewrite join2.
      destruct (suits_card wf _ _ Hv) as (Hc & Hv' & Hs). split; [exact Hc |].
      now apply value_of_append.
Qed.

Lemma suit_unknown (s : string) :
  ~ In s (dict_keys (v_suits HB)) -> dict_get_default (v_suits HB) s = [].
Proof.
  intros Hs. apply dict_mem_false_default.
  destruct (dict_mem (v_suits HB) s) eqn:E; [| reflexivity].
  apply dict_mem_keys in E. contradiction.
Qed.

Lemma flush_miss :
  _flush HB = PFalse ->
  forall s, length (dict_get_default (v_suits HB) s) < 5.
Proof.
  unfold _flush. intros E s.
  match type of E with first_match ?t ?f ?l = _ =>
    destruct (first_match_inv t f l) as [[_ Hall] | (x & _ & _ & Ef)] end.
  - destruct (in_dec string_dec s (dict_keys (v_suits HB))) as [Hk | Hk].
    + specialize (Hall s Hk). cbv beta in Hall. now apply Nat.leb_gt.
    + rewrite (suit_unknown s Hk). apply Nat.lt_0_succ.
  - rewrite E in Ef. discriminate.
Qed.

Lemma flush_content (bh : pyset) :
  _flush HB = Made bh ->
  exists s,
    length bh = 5
    /\ (forall x, In x bh -> suit_of x = s)
    /\ forall x c, In x bh -> In c (v_cards HB) -> suit_of c = s ->
                   ~ In c bh -> rank (value_of x) < rank (value_of c).
Proof.
  unfold _flush. intros E.
  match type of E with first_match ?t ?f ?l = _ =>
    destruct (first_match_inv t f l) as [[Ef _] | (suit & _ & Ht & Ef)] end;
    rewrite Ef in E; [discriminate |].
  cbv beta in E, Ht. apply Nat.leb_le in Ht. clear Ef.
  set (in_suit := dict_get_default (v_suits HB) suit) in *.
  set (fl := filter (fun v => mem v in_suit) all_values).
  assert (Hin : forall v, In v fl <-> In v in_suit).
  { intros v. unfold fl. rewrite filter_In, mem_In. split; [tauto |].
    intros H. split; [| assumption].
    destruct (suits_card wf _ _ H) as (_ & Hv & _). exact Hv. }
  assert (Hfl : NoDup fl) by apply NoDup_filter, all_values_NoDup.
  assert (Hlen : length fl = length in_suit).
  { apply NoDup_same_length; auto. apply (suits_NoDup wf). }
  assert (Hn : NoDup (map (fun v => join [v; suit]) fl)).
  { apply NoDup_map_value; auto. intros v Hv. apply Hin in Hv.
    destruct (suits_card wf _ _ Hv) as (_ & Hv' & _). exact Hv'. }
  assert (Ex : flush_loop suit in_suit all_values []
               = map (fun v => join [v; suit]) (firstn 5 fl)).
  { rewrite flush_loop_exact; [reflexivity | cbn [length]; lia | exact Hn]. }
  rewrite Ex in E.
  assert (Ebh : bh = map (fun v => join [v; suit]) (firstn 5 fl))
    by congruence.
  clear E Ex. subst bh. exists suit.
  assert (Hcard : forall v, In v (firstn 5 fl) ->
                            In v all_values /\ In suit four_suits).
  { intros v Hv. apply in_firstn, Hin in Hv.
    apply (suits_card wf) in Hv. tauto. }
  split; [| split].
  - rewrite length_map, firstn_length_le; [reflexivity |].
    rewrite Hlen. exact Ht.
  - intros x Hx. apply in_map_iff in Hx. destruct Hx as (v & <- & Hv).
    rewrite join2. destruct (Hcard v Hv). now apply value_of_append.
  - intros x c Hx Hc Hs Hskip. apply in_map_iff in Hx.
    destruct Hx as (v & <- & Hv). rewrite join2.
    destruct (Hcard v Hv) as [Hv' Hs'].
    rewrite (value_of_value suit Hv').
    destruct (card_suit_entry c Hc) as (Hc1 & _ & Hc3). rewrite Hs in Hc1, Hc3.
    assert (Hfc : In (value_of c) fl) by now apply Hin.
    rewrite <- (firstn_skipn 5 fl) in Hfc. apply in_app_or in Hfc.
    destruct Hfc as [Hfc | Hfc].
    + exfalso. apply Hskip. apply in_map_iff. exists (value_of c).
      split; [now rewrite join2 | exact Hfc].
    + unfold rank. apply filter_firstn_before
        with (P := fun v => mem v in_suit) (n := 5); auto.
      apply all_values_NoDup.
Qed.

End Flushes.

(** X16.  When the category is Flush, the best hand is five cards of
    one suit, each of them strictly higher than every card of that suit
    left out.  Five cards of one suit among the aggregate's cards are
    never missed: the category is then Flush or a stronger one. *)
Theorem flush_hand (hand flop turn river : arg) (r : rng) (hb : HBoard) :
  wf_arg hand ->
  fst (HBoard_init hand flop turn river r) = OK hb ->
  (best_hand_type hb = "Flush" ->
   exists bh s,
     best_hand hb = Made bh
     /\ length bh = 5
     /\ (forall x, In x bh -> suit_of x = s)
     /\ forall x c, In x bh -> In c (v_cards (view hb)) -> suit_of c = s ->
                    ~ In c bh -> rank (value_of x) < rank (value_of c))
  /\ ((exists s, 5 <= length (cards_of_suit s (v_cards (view hb)))) ->
      best_hand_type hb = "Straight Flush"
      \/ best_hand_type hb = "Four of a Kind"
      \/ best_hand_type hb = "Full House"
      \/ best_hand_type hb = "Flush").
Proof.
  intros Hw H. destruct (init_unfold _ _ _ _ _ Hw H) as (wf & _ & Eb & Et).
  pose proof (resolver_cases r wf) as Hc. cbv zeta in Hc.
  rewrite Eb, Et. split.
  - intros Hlab. all_cases Hc; by_label Hlab. take_hit.
    destruct (_flush (view hb)) as [| bh] eqn:Ef; [discriminate |].
    destruct (flush_content wf Ef) as (s & F1 & F2 & F3).
    exists bh, s. auto.
  - intros (s & Hs). rewrite (count_suit wf) in Hs.
    destruct Hc as [Hc | [Hc | [Hc | [Hc | Hc]]]].
    + left. destruct Hc as [_ [r' E]]. now rewrite E.
    + right. left. destruct Hc as [_ [_ [r' E]]]. now rewrite E.
    + right. right. left. destruct Hc as [_ [_ [_ [r' E]]]]. now rewrite E.
    + right. right. right. destruct Hc as [_ [_ [_ [_ [r' E]]]]]. now rewrite E.
    + exfalso. destruct Hc as [Hc | [Hc | [Hc | [Hc | Hc]]]];
        destruct Hc as (_ & _ & _ & Hf & _);
        apply (miss_pure (flush_good wf)) in Hf;
        pose proof (@flush_miss _ Hf s) as Hlt;
        clear - Hlt Hs; lia.
Qed.

(** ** What the constructor of an aggregate stores *)

Lemma set_union_nil (a : pyset) : set_union a [] = a.
Proof. reflexivity. Qed.

Lemma truthy_arg_false (x : arg) : truthy_arg x = false -> as_set x = OK [].
Proof.
  destruct x as [[| a s] | [| c l]]; try discriminate; intros _; reflexivity.
Qed.

Lemma view_init_fields (hand0 flop turn river : arg) (HB : HBoard_view) :
  HBoard_view_init hand0 flop turn river = OK HB ->
  exists h f,
    as_set hand0 = OK h /\ as_set flop = OK f
    /\ length h = 2
    /\ hand (v_hand HB) = h
    /\ v_flop HB = PySet f
    /\ (forall c, In c (v_cards HB) <-> In c h \/ In c (v_board HB))
    /\ v_pstraight HB = _pstraight (v_board HB)
    /\ v_pflush HB = _pflush (v_board HB)
    /\ (truthy_arg turn = false ->
        v_board HB = f /\ v_turn HB = turn /\ v_river HB = river)
    /\ (truthy_arg turn = true ->
        exists t,
          as_set turn = OK t /\ v_turn HB = PySet t
          /\ (truthy_arg river = false ->
              v_board HB = set_union f t /\ v_river HB = river)
          /\ (truthy_arg river = true ->
              exists rv,
                as_set river = OK rv /\ v_river HB = PySet rv
                /\ v_board HB = set_union (set_union f t) rv)).
Proof.
  intros H.
  unfold HBoard_view_init in H.
  apply bindR_OK in H. destruct H as (h & Eh & H).
  apply bindR_OK in H. destruct H as (f & Ef & H).
  apply bindR_OK in H. destruct H as (b0 & Ev & H).
  apply bindR_OK in H. destruct H as (Hd & EH & H).
  cbv zeta in H.
  apply bindR_OK in H. destruct H as ([[[a b] t] rv] & Es & H).
  apply bindR_OK in H. destruct H as (C & EC & H).
  apply Cards_init_set in EC. destruct EC as [-> _].
  cbn [cards values suits] in H.
  apply Hand_init_OK in EH. destruct EH as (s & Es0 & L2 & _ & ->).
  cbn [as_set] in Es0. injection Es0 as <-.
  injection H as <-. cbn [v_hand v_cards v_board v_flop v_turn v_river
                           v_pstraight v_pflush hand].
  exists h, f. split; [exact Eh |]. split; [exact Ef |].
  split; [exact L2 |]. split; [reflexivity |]. split; [reflexivity |].
  destruct (truthy_arg turn) eqn:Tt.
  - apply bindR_OK in Es. destruct Es as (tn & Et & Es).
    apply bindR_OK in Es. destruct Es as (b1 & Evt & Es).
    destruct (truthy_arg river) eqn:Tr.
    + apply bindR_OK in Es. destruct Es as (rn & Er & Es).
      apply bindR_OK in Es. destruct Es as (b2 & Evr & Es).
      injection Es as <- <- <- <-.
      split; [| split; [reflexivity | split; [reflexivity |
        split; [discriminate |]]]].
      * intros c. rewrite !set_union_In. tauto.
      * intros _. exists tn. split; [exact Et |]. split; [reflexivity |].
        split; [discriminate |]. intros _. exists rn. auto.
    + injection Es as <- <- <- <-.
      split; [| split; [reflexivity | split; [reflexivity |
        split; [discriminate |]]]].
      * intros c. rewrite !set_union_In. tauto.
      * intros _. exists tn. split; [exact Et |]. split; [reflexivity |].
        split; [auto | discriminate].
  - injection Es as <- <- <- <-.
    split; [| split; [reflexivity | split; [reflexivity |
      split; [auto | discriminate]]]].
    intros c. rewrite !set_union_In. tauto.
Qed.

(** X17.  What a constructed aggregate stores: a hand of two cards;
    as cards, those of the hand and of the board together; as board, the
    flop, with the turn when one is given, and with the river when a turn
    and a river are given; the potential straights and the potential
    flush are those of the board alone.  Without a turn the river is
    stored as it was passed and is not part of the board. *)
Theorem aggregate_fields (hand0 flop turn river : arg) (r : rng) (hb : HBoard) :
  wf_arg hand0 ->
  fst (HBoard_init hand0 flop turn river r) = OK hb ->
  let HB := view hb in
  exists h f,
    as_set hand0 = OK h /\ as_set flop = OK f
    /\ length h = 2
    /\ hand (v_hand HB) = h
    /\ v_flop HB = PySet f
    /\ (forall c, In c (v_cards HB) <-> In c h \/ In c (v_board HB))
    /\ v_pstraight HB = _pstraight (v_board HB)
    /\ v_pflush HB = _pflush (v_board HB)
    /\ (truthy_arg turn = false ->
        v_board HB = f /\ v_turn HB = turn /\ v_river HB = river)
    /\ (truthy_arg turn = true ->
        exists t,
          as_set turn = OK t /\ v_turn HB = PySet t
          /\ (truthy_arg river = false ->
              v_board HB = set_union f t /\ v_river HB = river)
          /\ (truthy_arg river = true ->
              exists rv,
                as_set river = OK rv /\ v_river HB = PySet rv
                /\ v_board HB = set_union (set_union f t) rv)).
Proof.
  intros Hw H. destruct (init_unfold _ _ _ _ _ Hw H) as (_ & E & _).
  cbv zeta. now apply view_init_fields with (hand0 := hand0) (flop := flop).
Qed.

Section Reads.

Variables HB HB' : HBoard_view.
Hypothesis Hc : v_cards HB = v_cards HB'.
Hypothesis Hv : v_values HB = v_values HB'.
Hypothesis Hs : v_suits HB = v_suits HB'.
Hypothesis Hps : v_pstraight HB = v_pstraight HB'.
Hypothesis Hpf : v_pflush HB = v_pflush HB'.

Lemma straight_flush_reads : _straight_flush HB = _straight_flush HB'.
Proof. unfold _straight_flush. rewrite Hc, Hps, Hpf. reflexivity. Qed.

Lemma quads_reads : _quads HB = _quads HB'.
Proof. unfold _quads. rewrite Hv. reflexivity. Qed.

Lemma full_house_inner_reads (v1 : string) (vs : list string) :
  full_house_inner HB v1 vs = full_house_inner HB' v1 vs.
Proof.
  induction vs as [| v2 vs IH]; cbn [full_house_inner]; [reflexivity |].
  rewrite IH, Hv. reflexivity.
Qed.

Lemma full_house_reads : _full_house HB = _full_house HB'.
Proof.
  unfold _full_house. induction all_values as [| v1 vs IH];
    cbn [full_house_outer]; [reflexivity |].
  rewrite IH, full_house_inner_reads, Hv. reflexivity.
Qed.

Lemma flush_reads : _flush HB = _flush HB'.
Proof. unfold _flush. rewrite Hs. reflexivity. Qed.

Lemma straight_loop_reads (ps : list string) :
  straight_loop HB ps = straight_loop HB' ps.
Proof.
  induction ps as [| w ps IH]; cbn [straight_loop]; [reflexivity |].
  rewrite IH, Hv. reflexivity.
Qed.

Lemma straight_reads : _straight HB = _straight HB'.
Proof. unfold _straight. rewrite Hps. apply straight_loop_reads. Qed.

Lemma trips_reads : _trips HB = _trips HB'.
Proof. unfold _trips. rewrite Hv. reflexivity. Qed.

Lemma two_pair_inner_reads (v1 : string) (vs : list string) :
  two_pair_inner HB v1 vs = two_pair_inner HB' v1 vs.
Proof.
  induction vs as [| v2 vs IH]; cbn [two_pair_inner]; [reflexivity |].
  rewrite IH, Hv. reflexivity.
Qed.

Lemma two_pair_reads : _two_pair HB = _two_pair HB'.
Proof.
  unfold _two_pair. induction all_values as [| v1 vs IH];
    cbn [two_pair_outer]; [reflexivity |].
  rewrite IH, two_pair_inner_reads, Hv. reflexivity.
Qed.

Lemma one_pair_reads : _one_pair HB = _one_pair HB'.
Proof. unfold _one_pair. rewrite Hv. reflexivity. Qed.

(** The resolver reads five fields of the aggregate. *)
Lemma best_hand_reads : _best_hand HB = _best_hand HB'.
Proof.
  unfold _best_hand, phands. cbn [best_hand_loop].
  rewrite straight_flush_reads, quads_reads, full_house_reads, flush_reads,
    straight_reads, trips_reads, two_pair_reads, one_pair_reads, Hv.
  reflexivity.
Qed.

End Reads.

(** X18.  Without a turn the river is ignored: it is neither parsed nor
    validated nor added to the cards, and the constructor fails or
    succeeds, with the same cards, board, best hand and category,
    whatever is passed as river. *)
Theorem river_without_turn_is_ignored (hand0 flop turn river river' : arg)
        (r : rng) :
  truthy_arg turn = false ->
  match fst (HBoard_init hand0 flop turn river r),
        fst (HBoard_init hand0 flop turn river' r) with
  | OK hb, OK hb' =>
      best_hand hb = best_hand hb'
      /\ best_hand_type hb = best_hand_type hb'
      /\ v_cards (view hb) = v_cards (view hb')
      /\ v_board (view hb) = v_board (view hb')
      /\ v_river (view hb) = river /\ v_river (view hb') = river'
  | Err e, Err e' => e = e'
  | _, _ => False
  end.
Proof.
  intros Ht. unfold HBoard_init, HBoard_view_init. rewrite Ht.
  destruct (as_set hand0) as [h | e]; cbn [bindR]; [| reflexivity].
  destruct (as_set flop) as [f | e]; cbn [bindR]; [| reflexivity].
  destruct (_valid_set (set_union h f)) as [b | e]; cbn [bindR];
    [| reflexivity].
  destruct (Hand_init (PySet h)) as [Hd | e]; cbn [bindR]; [| reflexivity].
  cbv zeta. cbn [bindR].
  destruct (Cards_init (PySet (set_union h f))) as [C | e]; cbn [bindR];
    [| reflexivity].
  unfold bind, ret.
  match goal with |- context [_best_hand ?A r] =>
    match goal with |- context [_best_hand ?B r] =>
      tryif constr_eq A B then fail else
        rewrite (@best_hand_reads A B eq_refl eq_refl eq_refl eq_refl eq_refl)
    end
  end.
  match goal with |- context [_best_hand ?B r] =>
    destruct (_best_hand B r) as [[made name] r'] end.
  cbn [fst snd view best_hand best_hand_type v_cards v_board v_river].
  repeat split.
Qed.

(** ** Straights and straight flushes *)

Lemma NoDup_app_disjoint (A : Type) (pre l : list A) (y : A) :
  NoDup (pre ++ l) -> In y l -> ~ In y pre.
Proof.
  induction pre as [| p pre IH]; intros Hn Hy; [intros [] |].
  cbn [app] in Hn. inversion Hn as [| ? ? Hp Hn']; subst.
  intros [-> | Hin].
  - apply Hp, in_or_app. now right.
  - now apply IH.
Qed.

Lemma index_of_app_in (x : string) (l t : list string) :
  In x l -> index_of x (l ++ t) = index_of x l.
Proof.
  induction l as [| y l IH]; intros H; [destruct H |].
  cbn [app index_of]. destruct (String.eqb_spec x y) as [_ | N]; [reflexivity |].
  destruct H as [-> | H]; [congruence |]. now rewrite IH.
Qed.

(** In a list without two elements of the same key, an element comes
    before those that follow it. *)
Lemma first_in_order (A : Type) (key : A -> string) (L pre post : list A)
      (x y : A) :
  L = pre ++ x :: post -> NoDup (map key L) -> In y (x :: post) ->
  index_of (key x) (map key L) <= index_of (key y) (map key L).
Proof.
  intros -> Hn Hy. rewrite map_app in *. cbn [map] in *.
  assert (Hy' : In (key y) (key x :: map key post)).
  { destruct Hy as [-> | Hy]; [now left | right; now apply in_map]. }
  rewrite !index_of_app_notin.
  - rewrite index_of_head. apply Nat.add_le_mono_l, Nat.le_0_l.
  - now apply NoDup_app_disjoint with (l := key x :: map key post).
  - apply NoDup_app_disjoint with (l := key x :: map key post); auto.
    now left.
Qed.

Lemma filter_split (A : Type) (P : A -> bool) (L pre post : list A) (x : A) :
  filter P L = pre ++ x :: post ->
  exists pre' post', L = pre' ++ x :: post' /\ incl post post'.
Proof.
  revert pre. induction L as [| y L IH]; intros pre E; cbn [filter] in E.
  - destruct pre; discriminate.
  - destruct (P y).
    + destruct pre as [| p pre]; cbn [app] in E.
      * injection E as -> <-. exists [], L. split; [reflexivity |].
        intros z Hz. apply filter_In in Hz. tauto.
      * injection E as -> E. destruct (IH pre E) as (pre' & post' & -> & Hi).
        exists (p :: pre'), post'. auto.
    + destruct (IH pre E) as (pre' & post' & -> & Hi).
      exists (y :: pre'), post'. auto.
Qed.

Lemma window_heads :
  all_values = map (hd EmptyString) window_values ++ ["4"; "3"; "2"].
Proof. vm_compute. reflexivity. Qed.

Lemma window_heads_NoDup : NoDup (map (hd EmptyString) window_values).
Proof.
  apply NoDup_app_remove_r with (l' := ["4"; "3"; "2"]).
  rewrite <- window_heads. apply all_values_NoDup.
Qed.

Lemma rank_head (w : list string) :
  In w window_values ->
  rank (hd EmptyString w)
  = index_of (hd EmptyString w) (map (hd EmptyString) window_values).
Proof.
  intros Hw. unfold rank. rewrite window_heads at 1.
  apply index_of_app_in. now apply in_map.
Qed.

(** Of two windows, the one that comes first in the list of the ten has
    the higher first value. *)
Lemma window_order (pre post : list (list string)) (w w' : list string) :
  window_values = pre ++ w :: post -> In w' (w :: post) ->
  rank (hd EmptyString w) <= rank (hd EmptyString w').
Proof.
  intros E Hw'.
  assert (Hw : In w window_values) by (rewrite E; apply in_elt).
  assert (Hw2 : In w' window_values).
  { rewrite E. apply in_or_app. now right. }
  rewrite !rank_head by assumption.
  apply first_in_order with (pre := pre) (post := post);
    [exact E | apply window_heads_NoDup | exact Hw'].
Qed.

Lemma sf_pstraights (psuit : string) :
  map (fun i => slice (map (fun value => join [value; psuit])
                           (all_values ++ ["A"])) i 5) (seq 0 10)
  = map (map (fun value => join [value; psuit])) window_values.
Proof.
  rewrite <- window_slices, map_map. apply map_ext. intros i.
  apply slice_map.
Qed.

(** A window all of whose values occur among the cards of a hand of two
    and of a board has three of its values on the board. *)
Lemma window_on_board (h board : pyset) (w : string) :
  In w ten_windows -> length h <= 2 ->
  (forall v, In v (chars w) ->
             exists c, (In c h \/ In c board) /\ value_of c = v) ->
  3 <= window_hits board w.
Proof.
  intros Hw Hh Hall. unfold window_hits.
  assert (Hwv : In (chars w) window_values) by now apply in_map.
  destruct (window_values_ok Hwv) as (Hn & _ & H5).
  pose proof (filter_length (present board) (chars w)) as Hp.
  assert (Hm : length (filter (fun x => negb (present board x)) (chars w))
               <= length (map value_of h)).
  { apply NoDup_incl_length; [now apply NoDup_filter |].
    intros v Hv. apply filter_In in Hv. destruct Hv as [Hv Hnp].
    apply negb_true_iff in Hnp.
    destruct (Hall v Hv) as (c & [Hc | Hc] & <-).
    - now apply in_map.
    - exfalso. assert (Hpr : present board (value_of c) = true)
        by (apply present_spec; eauto).
      congruence. }
  rewrite length_map in Hm. rewrite H5 in Hp. clear - Hp Hm Hh. lia.
Qed.

Section Runs.

Variable HB : HBoard_view.
Hypothesis wf : wf_view HB.

Lemma straight_flush_content (bh : pyset) :
  _straight_flush HB = Made bh ->
  exists s w,
    In w window_values
    /\ bh = map (fun v => (v ++ s)%string) w
    /\ In s four_suits
    /\ forall w', In w' window_values ->
                  incl (map (fun v => (v ++ s)%string) w') (v_cards HB) ->
                  rank (hd EmptyString w) <= rank (hd EmptyString w').
Proof.
  unfold _straight_flush.
  destruct (truthy_str (v_pflush HB) && truthy_list (v_pstraight HB));
    [| discriminate].
  cbv zeta.
  match goal with
  | |- context [lower ?x] => set (psuit := lower x) in *
  end.
  rewrite sf_pstraights. intros E.
  match type of E with first_match ?t ?f ?l = _ =>
    destruct (first_match_split t f l)
      as [[Ef _] | (pre & x & post & Es & Hp & Ht & Ef)] end;
    rewrite Ef in E; [discriminate |].
  clear Ef. cbv beta in Ht, Hp.
  apply map_eq_app in Es. destruct Es as (Wpre & Wrest & EW & E1 & E2).
  apply map_eq_cons in E2. destruct E2 as (w & Wpost & -> & Ex & E3).
  subst x pre post.
  assert (Hw : In w window_values) by (rewrite EW; apply in_elt).
  destruct (window_values_ok Hw) as (W1 & W2 & W3).
  assert (Hn : NoDup (map (fun value => join [value; psuit]) w))
    by now apply NoDup_map_value.
  rewrite set_of_list_fresh in E, Ht by exact Hn.
  apply issubset_incl in Ht.
  assert (Ebh : bh = map (fun value => join [value; psuit]) w) by congruence.
  clear E. exists psuit, w. split; [exact Hw |]. split; [exact Ebh |].
  split.
  - destruct w as [| v0 w]; [discriminate |].
    assert (Hc : In (v0 ++ psuit)%string (v_cards HB)).
    { apply Ht. now left. }
    assert (Hv0 : In v0 all_values) by (apply W2; now left).
    destruct (deck52_card (wf_deck wf _ Hc)) as (Ec & _ & Hs & _).
    rewrite (value_of_value psuit Hv0) in Ec. apply append_inj_r in Ec.
    now rewrite <- Ec.
  - intros w' Hw' Hi. rewrite EW in Hw'. apply in_app_or in Hw'.
    destruct Hw' as [Hw' | Hw'].
    + exfalso.
      assert (Hf : issubset (set_of_list (map (fun value => join [value; psuit]) w'))
                            (v_cards HB) = false).
      { apply Hp. now apply in_map. }
      assert (Ht' : issubset (set_of_list (map (fun value => join [value; psuit]) w'))
                             (v_cards HB) = true).
      { apply issubset_incl. intros c Hc. rewrite set_of_list_In in Hc.
        apply Hi. exact Hc. }
      congruence.
    + now apply window_order with (pre := Wpre) (post := Wpost).
Qed.

Lemma straight_test_spec (w : string) :
  straight_test HB w = true
  <-> forall v, In v (chars w) -> exists c, In c (v_cards HB) /\ value_of c = v.
Proof.
  unfold straight_test. rewrite issubset_incl. split.
  - intros Hi v Hv. apply (ix_mem (wf_values wf)), dict_mem_keys.
    apply set_of_list_In, Hi, set_of_list_In, Hv.
  - intros H v Hv. rewrite set_of_list_In in Hv. rewrite set_of_list_In.
    apply dict_mem_keys, (ix_mem (wf_values wf)). now apply H.
Qed.

Lemma straight_pick (w : string) (r : rng) :
  In w ten_windows -> straight_test HB w = true ->
  exists bh,
    fst ((picked <- mapM (fun value =>
                            suit <- choice1
                                      (iter (dict_get_default (v_values HB) value)) ;;
                            ret (join [value; suit]))
                         (chars w) ;;
          ret (Made (set_of_list picked))) r) = Made bh
    /\ map value_of bh = chars w /\ length bh = 5.
Proof.
  intros Hin Ht. rewrite bind_ret_fst.
  assert (Hw : In (chars w) window_values) by now apply in_map.
  destruct (window_values_ok Hw) as (W1 & W2 & W3).
  destruct (picked_spec wf (chars w) r) as [P1 P2].
  { intros v Hv. split; [now apply W2 |].
    destruct (proj1 (straight_test_spec w) Ht v Hv) as (c & Hc & Hkey).
    assert (Hs : In (suit_of c) (dict_get_default (v_values HB) v)).
    { apply (ix_in (wf_values wf)). exists c. auto. }
    intros E0. rewrite E0 in Hs. destruct Hs. }
  cbv zeta in P1, P2.
  match goal with |- context [mapM ?f (chars w) r] =>
    set (picked := fst (mapM f (chars w) r)) in *
  end.
  assert (Hn : NoDup picked).
  { apply NoDup_map_inv with (f := value_of). now rewrite P1. }
  rewrite set_of_list_fresh by exact Hn.
  exists picked. split; [reflexivity |]. split; [exact P1 |].
  rewrite <- W3, <- P1. now rewrite length_map.
Qed.

Lemma straight_loop_content (ps : list string) (r0 : rng) :
  (forall w, In w ps -> In w ten_windows) ->
  truthy (fst (straight_loop HB ps r0)) = true ->
  exists pre w post,
    ps = pre ++ w :: post
    /\ (forall y, In y pre -> straight_test HB y = false)
    /\ straight_test HB w = true
    /\ forall r, exists bh,
         fst (straight_loop HB ps r) = Made bh
         /\ map value_of bh = chars w /\ length bh = 5.
Proof.
  induction ps as [| w rest IH]; intros Hps T; cbn [straight_loop] in *;
    [discriminate |].
  cbv zeta in *. fold (straight_test HB w) in *.
  destruct (straight_test HB w) eqn:E.
  - exists [], w, rest. split; [reflexivity |]. split; [intros y [] |].
    split; [exact E |]. intros r. apply straight_pick; auto.
    apply Hps. now left.
  - destruct IH as (pre & x & post & -> & Hp & Hx & Hall); auto.
    { intros y Hy. apply Hps. now right. }
    exists (w :: pre), x, post. split; [reflexivity |]. split; [| auto].
    intros y [<- | Hy]; auto.
Qed.

Lemma straight_loop_miss (ps : list string) :
  (forall w, In w ps -> In w ten_windows) ->
  (forall r, truthy (fst (straight_loop HB ps r)) = false) ->
  forall w, In w ps -> straight_test HB w = false.
Proof.
  induction ps as [| x rest IH]; intros Hps M w Hw; [destruct Hw |].
  cbn [straight_loop] in M. cbv zeta in M. fold (straight_test HB x) in M.
  destruct (straight_test HB x) eqn:E.
  - exfalso. destruct (straight_pick [] (Hps x (or_introl eq_refl)) E)
      as (bh & Eb & _ & H5).
    specialize (M []). rewrite Eb in M.
    destruct bh; [discriminate H5 | discriminate M].
  - destruct Hw as [<- | Hw]; [exact E |].
    apply IH; auto. intros y Hy. apply Hps. now right.
Qed.

End Runs.

(** X19.  When the category is Straight Flush, the best hand is the
    five cards of one suit whose values are those of one of the ten
    windows, and no window with a higher first value has its five cards
    of that suit among the aggregate's cards. *)
Theorem straight_flush_hand (hand0 flop turn river : arg) (r : rng)
        (hb : HBoard) :
  wf_arg hand0 ->
  fst (HBoard_init hand0 flop turn river r) = OK hb ->
  best_hand_type hb = "Straight Flush" ->
  exists bh s w,
    best_hand hb = Made bh
    /\ In w window_values
    /\ bh = map (fun v => (v ++ s)%string) w
    /\ In s four_suits
    /\ forall w', In w' window_values ->
                  incl (map (fun v => (v ++ s)%string) w') (v_cards (view hb)) ->
                  rank (hd EmptyString w) <= rank (hd EmptyString w').
Proof.
  intros Hw H Hlab. destruct (init_unfold _ _ _ _ _ Hw H) as (wf & _ & Eb & Et).
  pose proof (resolver_cases r wf) as Hc. cbv zeta in Hc.
  rewrite Et in Hlab. rewrite Eb. all_cases Hc; by_label Hlab. take_hit.
  destruct (_straight_flush (view hb)) as [| bh] eqn:Ef; [discriminate |].
  destruct (straight_flush_content wf Ef) as (s & w & S1 & S2 & S3 & S4).
  exists bh, s, w. auto.
Qed.

(** X20.  When the category is Straight, the best hand has five cards
    whose values are, in order, those of one of the ten windows, whatever
    is drawn, and no window with a higher first value has all its values
    among the aggregate's cards.  A window all of whose values occur
    among the cards is never missed: the category is then Straight or a
    stronger one. *)
Theorem straight_hand (hand0 flop turn river : arg) (r : rng) (hb : HBoard) :
  wf_arg hand0 ->
  fst (HBoard_init hand0 flop turn river r) = OK hb ->
  let occurs v := exists c, In c (v_cards (view hb)) /\ value_of c = v in
  (best_hand_type hb = "Straight" ->
   exists bh w,
     best_hand hb = Made bh
     /\ In w window_values
     /\ map value_of bh = w
     /\ length bh = 5
     /\ forall w', In w' window_values -> (forall v, In v w' -> occurs v) ->
                   rank (hd EmptyString w) <= rank (hd EmptyString w'))
  /\ ((exists w', In w' window_values /\ forall v, In v w' -> occurs v) ->
      best_hand_type hb = "Straight Flush"
      \/ best_hand_type hb = "Four of a Kind"
      \/ best_hand_type hb = "Full House"
      \/ best_hand_type hb = "Flush"
      \/ best_hand_type hb = "Straight").
Proof.
  intros Hw H occurs.
  destruct (init_unfold _ _ _ _ _ Hw H) as (wf & Einit & Eb & Et).
  destruct (view_init_fields _ _ _ _ Einit)
    as (h & f & _ & _ & L2 & _ & _ & Hcards & Hps & _).
  assert (Hon : forall s, In s ten_windows ->
                          (forall v, In v (chars s) -> occurs v) ->
                          In s (v_pstraight (view hb))
                          /\ straight_test (view hb) s = true).
  { intros s Hs Hall. split.
    - rewrite Hps, pstraight_spec. apply filter_In. split; [exact Hs |].
      apply Nat.leb_le, window_on_board with (h := h); auto.
      + rewrite L2. apply Nat.le_refl.
      + intros v Hv. destruct (Hall v Hv) as (c & Hc & Ev).
        exists c. split; [now apply Hcards | exact Ev].
    - apply (straight_test_spec wf). exact Hall. }
  pose proof (resolver_cases r wf) as Hc. cbv zeta in Hc.
  rewrite Eb, Et. split.
  - intros Hlab. all_cases Hc; by_label Hlab.
    match goal with T : forall _, truthy _ = true |- _ =>
      destruct (@straight_loop_content _ wf (v_pstraight (view hb)) []
                  (wf_pstraight wf) (T []))
        as (pre & s & post & Es & Hp & Hs & Hall) end.
    match goal with |- context [_straight (view hb) ?r1] =>
      destruct (Hall r1) as (bh & Ebh & Hv & B5) end.
    unfold _straight. rewrite Ebh.
    assert (Hs10 : In s ten_windows).
    { apply (wf_pstraight wf). rewrite Es. apply in_elt. }
    exists bh, (chars s). split; [reflexivity |].
    split; [now apply in_map |]. split; [exact Hv |]. split; [exact B5 |].
    intros w' Hw' Hocc. apply in_map_iff in Hw'.
    destruct Hw' as (s' & <- & Hs').
    destruct (Hon s' Hs' Hocc) as [Hin Ht].
    rewrite Es in Hin. apply in_app_or in Hin. destruct Hin as [Hin | Hin].
    { apply Hp in Hin. congruence. }
    rewrite Hps, pstraight_spec in Es. apply filter_split in Es.
    destruct Es as (pre' & post' & E10 & Hi).
    assert (Hin' : In s' (s :: post')).
    { destruct Hin as [-> | Hin]; [now left | right; now apply Hi]. }
    unfold window_values.
    apply window_order with (pre := map chars pre') (post := map chars post').
    + unfold window_values. rewrite E10, map_app. reflexivity.
    + change (chars s :: map chars post') with (map chars (s :: post')).
      now apply in_map.
  - intros (w' & Hw' & Hocc). apply in_map_iff in Hw'.
    destruct Hw' as (s' & <- & Hs').
    destruct (Hon s' Hs' Hocc) as [Hin Ht].
    destruct Hc as [Hc | [Hc | [Hc | [Hc | [Hc | Hc]]]]].
    + left. destruct Hc as [_ [r' E]]. now rewrite E.
    + right. left. destruct Hc as [_ [_ [r' E]]]. now rewrite E.
    + right. right. left. destruct Hc as [_ [_ [_ [r' E]]]]. now rewrite E.
    + right. right. right. left.
      destruct Hc as [_ [_ [_ [_ [r' E]]]]]. now rewrite E.
    + right. right. right. right.
      destruct Hc as [_ [_ [_ [_ [_ [r' E]]]]]]. now rewrite E.
    + exfalso. destruct Hc as [Hc | [Hc | [Hc | Hc]]];
        destruct Hc as (_ & _ & _ & _ & Hm & _);
        pose proof (@straight_loop_miss _ wf (v_pstraight (view hb))
                      (wf_pstraight wf) Hm s' Hin) as Hf;
        congruence.
Qed.

(** ** The potential flush of a board *)

Section BoardSuits.

Variable board : pyset.
Hypothesis Hn : NoDup board.
Hypothesis Hd : forall c, In c board -> In c deck52.

Lemma board_suit_entry (s v : string) :
  In v (dict_get_default (_gen_suits board) s) ->
  In (v ++ s)%string board /\ In v all_values /\ In s four_suits.
Proof.
  intros H. apply (ix_in (gen_suits_spec board)) in H.
  destruct H as (c & Hc & <- & <-).
  destruct (deck52_card (Hd _ Hc)) as (E & Hv & Hs & _).
  rewrite E. auto.
Qed.

Lemma board_count_suit (s : string) :
  length (cards_of_suit s board)
  = length (dict_get_default (_gen_suits board) s).
Proof.
  transitivity (length (map (fun v => join [v; s])
                            (dict_get_default (_gen_suits board) s)));
    [| apply length_map].
  apply NoDup_same_length.
  - now apply NoDup_filter.
  - apply NoDup_map_value; [| apply (ix_nodup (gen_suits_spec board))].
    intros v Hv. now apply board_suit_entry in Hv.
  - intros x. unfold cards_of_suit.
    rewrite filter_In, String.eqb_eq, in_map_iff. split.
    + intros [Hx <-]. exists (value_of x). split.
      * rewrite join2. apply Hd, deck52_card in Hx. tauto.
      * apply (ix_in (gen_suits_spec board)). exists x. auto.
    + intros (v & <- & Hv). rewrite join2.
      destruct (board_suit_entry _ _ Hv) as (Hc & Hv' & Hs).
      split; [exact Hc |]. now apply value_of_append.
Qed.

Lemma board_suit_key (s : string) :
  In s (dict_keys (_gen_suits board)) -> In s four_suits.
Proof.
  intros H. apply dict_mem_keys, (ix_mem (gen_suits_spec board)) in H.
  destruct H as (c & Hc & <-). apply Hd, deck52_card in Hc. tauto.
Qed.

Lemma board_suit_unknown (s : string) :
  ~ In s (dict_keys (_gen_suits board)) ->
  dict_get_default (_gen_suits board) s = [].
Proof.
  intros Hs. apply dict_mem_false_default.
  destruct (dict_mem (_gen_suits board) s) eqn:E; [| reflexivity].
  apply dict_mem_keys in E. contradiction.
Qed.

End BoardSuits.

Lemma pflush_loop_Some (suits : dict) (keys : list string) (name : string) :
  pflush_loop suits keys = Some name ->
  exists s, In s keys /\ 3 <= length (dict_get_default suits s)
            /\ name = suit_name suit_names s.
Proof.
  induction keys as [| k keys IH]; cbn [pflush_loop]; [discriminate |].
  destruct (3 <=? length (dict_get_default suits k))%nat eqn:E.
  - intros H. injection H as <-. exists k. split; [now left |].
    split; [now apply Nat.leb_le | reflexivity].
  - intros H. destruct (IH H) as (s & Hs & H3 & En). exists s.
    split; [now right |]. split; assumption.
Qed.

Lemma pflush_loop_None (suits : dict) (keys : list string) :
  pflush_loop suits keys = None ->
  forall s, In s keys -> length (dict_get_default suits s) < 3.
Proof.
  induction keys as [| k keys IH]; cbn [pflush_loop]; intros H s Hs;
    [destruct Hs |].
  destruct (3 <=? length (dict_get_default suits k))%nat eqn:E;
    [discriminate |].
  destruct Hs as [<- | Hs]; [now apply Nat.leb_gt | now apply IH].
Qed.

Lemma suit_name_initial (s : string) :
  In s four_suits -> lower (substring 0 1 (suit_name suit_names s)) = s.
Proof.
  intros H. vm_compute in H.
  repeat (destruct H as [<- | H]; [reflexivity |]). destruct H.
Qed.

(** X21.  The potential flush of a board of distinct deck cards: when
    there is one, it is the name of a suit that three cards of the board
    or more have, and the lower-case first letter of the name, which is
    what the straight-flush detector reads, is that suit; there is none
    exactly when no suit has three cards on the board. *)
Theorem pflush_three_of_a_suit (board : pyset) :
  NoDup board -> (forall c, In c board -> In c _gen_deck) ->
  (forall name,
      _pflush board = Some name ->
      exists s, In s four_suits
                /\ name = suit_name suit_names s
                /\ lower (substring 0 1 name) = s
                /\ 3 <= length (cards_of_suit s board))
  /\ (_pflush board = None
      <-> forall s, length (cards_of_suit s board) < 3).
Proof.
  intros Hn Hd.
  assert (Hd' : forall c, In c board -> In c deck52).
  { intros c Hc. now apply gen_deck_In, Hd. }
  unfold _pflush. cbv zeta. split; [| split].
  - intros name H. apply pflush_loop_Some in H.
    destruct H as (s & Hs & H3 & ->).
    assert (H4 : In s four_suits) by exact (@board_suit_key board Hd' s Hs).
    exists s. split; [exact H4 |]. split; [reflexivity |].
    split; [now apply suit_name_initial |].
    now rewrite (@board_count_suit board Hn Hd' s).
  - intros H s. rewrite (@board_count_suit board Hn Hd' s).
    destruct (in_dec string_dec s (dict_keys (_gen_suits board))) as [Hk | Hk].
    + now apply pflush_loop_None with (keys := dict_keys (_gen_suits board)).
    + rewrite (@board_suit_unknown board s Hk). apply Nat.lt_0_succ.
  - intros H. apply pflush_loop_none. intros k _. apply Nat.leb_gt.
    rewrite <- (@board_count_suit board Hn Hd' k). apply H.
Qed.

(** ** Rendering *)

Lemma length_append_str (a b : string) :
  String.length (a ++ b) = String.length a + String.length b.
Proof. induction a as [| x a IH]; simpl; [reflexivity | now rewrite IH]. Qed.

Lemma length_flat (l : list string) :
  (forall c, In c l -> String.length c = 2) ->
  String.length (flat l) = 2 * length l.
Proof.
  induction l as [| c l IH]; intros H; [reflexivity |].
  cbn [flat fold_right]. fold (flat l).
  rewrite length_append_str, IH, (H c (or_introl eq_refl)).
  - cbn [length]. lia.
  - intros c' Hc'. apply H. now right.
Qed.

Lemma flat_chars (s : string) : flat (chars s) = s.
Proof. induction s as [| a s IH]; simpl; [reflexivity | now rewrite IH]. Qed.

Lemma count_newlines_app (a b : string) :
  count_newlines (a ++ b) = count_newlines a + count_newlines b.
Proof.
  induction a as [| x a IH]; simpl; [reflexivity |]. rewrite IH. lia.
Qed.

Lemma deck_card_one_line (c : string) : In c deck52 -> count_newlines c = 0.
Proof.
  intros H.
  assert (Hall : forallb (fun c => (count_newlines c =? 0)%nat) deck52 = true)
    by (vm_compute; reflexivity).
  rewrite forallb_forall in Hall. now apply Nat.eqb_eq, Hall.
Qed.

Lemma flat_one_line (l : list string) :
  (forall c, In c l -> In c deck52) -> count_newlines (flat l) = 0.
Proof.
  induction l as [| c l IH]; intros H; [reflexivity |].
  cbn [flat fold_right]. fold (flat l).
  rewrite count_newlines_app, IH, deck_card_one_line; auto.
  - apply H. now left.
  - intros c' Hc'. apply H. now right.
Qed.

Lemma Cards_str_flat (C : Cards) : Cards_str C = flat (iter (cards C)).
Proof. unfold Cards_str. now rewrite fold_join_flat. Qed.

Lemma Cards_init_OK (x : arg) (C : Cards) :
  wf_arg x -> Cards_init x = OK C ->
  NoDup (cards C) /\ forall c, In c (cards C) -> In c deck52.
Proof.
  intros Hw H. unfold Cards_init in H.
  apply bindR_OK in H. destruct H as (s & Es & H).
  apply bindR_OK in H. destruct H as (b & Ev & H).
  injection H as <-. cbn [cards]. split.
  - now apply as_set_NoDup with (x := x).
  - now apply valid_set_ok with (b := b).
Qed.

(** X22.  Rendering a card set and parsing the string again gives the
    same cards back, in the order in which they were rendered; the string
    has two characters for each card. *)
Theorem cards_str_round_trip (x : arg) (C : Cards) :
  wf_arg x -> Cards_init x = OK C ->
  String.length (Cards_str C) = 2 * length (cards C)
  /\ exists C',
       Cards_init (Str (Cards_str C)) = OK C'
       /\ cards C' = iter (cards C)
       /\ Permutation (cards C') (cards C).
Proof.
  intros Hw H. destruct (Cards_init_OK x Hw H) as [Hn Hd].
  assert (H2 : forall c, In c (iter (cards C)) -> String.length c = 2).
  { intros c Hc. rewrite iter_In in Hc. apply Hd, deck52_card in Hc. tauto. }
  assert (Hl : String.length (Cards_str C) = 2 * length (cards C)).
  { rewrite Cards_str_flat, length_flat by exact H2. now rewrite iter_length. }
  assert (Ht : tokens (Cards_str C) = iter (cards C)).
  { rewrite Cards_str_flat. now apply tokens_flat. }
  split; [exact Hl |].
  rewrite Cards_init_str.
  - eexists. split; [reflexivity |]. cbn [cards]. rewrite Ht.
    rewrite set_of_list_fresh by (apply iter_NoDup, Hn).
    split; [reflexivity | apply iter_perm].
  - rewrite Hl, Nat.mul_comm. apply Nat.Div0.mod_mul.
  - intros c Hc. rewrite Ht, iter_In in Hc. now apply gen_deck_In, Hd.
Qed.

(** X23.  The formatter writes the prefix and then its argument: a
    string as it is, character after character, and a card set as
    [Cards.__str__] writes it. *)
Theorem formatter_output (prefix : string) :
  (forall s, _formatter prefix (Str s) = (prefix ++ s)%string)
  /\ forall C, _formatter prefix (PySet (cards C))
               = (prefix ++ Cards_str C)%string.
Proof.
  split.
  - intros s. unfold _formatter. now rewrite fold_join_flat, flat_chars.
  - intros C. unfold _formatter. now rewrite fold_join_flat, Cards_str_flat.
Qed.

(** X24.  A hand is rendered on four lines. *)
Theorem hand_str_four_lines (x : arg) (H : Hand) :
  Hand_init x = OK H -> count_newlines (Hand_str H) = 3.
Proof.
  intros E. apply Hand_init_OK in E. destruct E as (s & _ & _ & Hd & ->).
  unfold Hand_str. cbn [hand_base pair suited connected].
  assert (E0 : count_newlines
                 (Cards_str (mkCards s (_gen_values s) (_gen_suits s))) = 0).
  { rewrite Cards_str_flat. apply flat_one_line. cbn [cards].
    intros c Hc. rewrite iter_In in Hc. now apply gen_deck_In, Hd. }
  unfold join. cbn [String.concat].
  rewrite !count_newlines_app, E0.
  destruct (_pair (_gen_values s)), (_suited (_gen_suits s)), (_connected s);
    reflexivity.
Qed.

(** X25.  Rendering a constructed aggregate never fails: the best hand
    it enumerates is a set of cards, never [False]. *)
Theorem hboard_str_never_fails (hand0 flop turn river : arg) (r : rng)
        (hb : HBoard) :
  wf_arg hand0 ->
  fst (HBoard_init hand0 flop turn river r) = OK hb ->
  exists text, HBoard_str hb = Some text.
Proof.
  intros Hw H. destruct (init_unfold _ _ _ _ _ Hw H) as (wf & _ & Eb & _).
  destruct (best_hand_good r wf) as (bh & Ebh & _).
  unfold HBoard_str. cbv zeta. rewrite Eb, Ebh. eexists. reflexivity.
Qed.

(** ** What the constructor of an aggregate accepts *)

Lemma as_set_err (x : arg) (e : error) :
  as_set x = Err e -> e = InvalidCardsString.
Proof.
  destruct x as [s | l]; cbn [as_set]; [| discriminate].
  destruct (str_to_set_cases s) as [[_ E] | [(_ & _ & E) | (_ & _ & E)]];
    rewrite E; congruence.
Qed.

Lemma init_result (hand0 flop turn river : arg) (r : rng) :
  fst (HBoard_init hand0 flop turn river r)
  = match HBoard_view_init hand0 flop turn river with
    | OK HB => OK (mkHBoard HB (fst (fst (_best_hand HB r)))
                            (snd (fst (_best_hand HB r))))
    | Err e => Err e
    end.
Proof.
  unfold HBoard_init.
  destruct (HBoard_view_init hand0 flop turn river) as [HB | e];
    [| reflexivity].
  unfold bind, ret. destruct (_best_hand HB r) as [[m n] r']. reflexivity.
Qed.

Lemma Cards_init_valid (s : pyset) :
  (forall c, In c s -> In c _gen_deck) ->
  Cards_init (PySet s) = OK (mkCards s (_gen_values s) (_gen_suits s)).
Proof.
  intros H. unfold Cards_init. cbn [as_set bindR].
  destruct (valid_set_cases s) as [[E _] | [_ (c & Hc & Hn)]];
    [rewrite E; reflexivity | exfalso; auto].
Qed.

Lemma union_in_deck (a b : pyset) :
  (forall c, In c a -> In c _gen_deck) ->
  (forall c, In c b -> In c _gen_deck) ->
  forall c, In c (set_union a b) -> In c _gen_deck.
Proof. intros Ha Hb c Hc. apply set_union_In in Hc. destruct Hc; auto. Qed.

Ltac no_result := let X := fresh "X" in intros [? X]; discriminate X.

Ltac same_set :=
  repeat match goal with
         | X : OK _ = OK _ |- _ => injection X as <-
         end.

(** X26.  What the constructor of an aggregate accepts.  It succeeds
    exactly when hand and flop are accepted as sets of cards of the deck,
    the hand has two cards, the turn is accepted when one is given, and
    the river is accepted when a turn and a river are given.  It fails
    with InvalidHand exactly when hand and flop are accepted and the hand
    does not have two cards. *)
Theorem aggregate_accepted (hand0 flop turn river : arg) (r : rng) :
  ((exists hb, fst (HBoard_init hand0 flop turn river r) = OK hb)
   <-> accepted_set hand0 /\ accepted_set flop
       /\ (exists h, as_set hand0 = OK h /\ length h = 2)
       /\ (truthy_arg turn = true ->
           accepted_set turn
           /\ (truthy_arg river = true -> accepted_set river)))
  /\ (fst (HBoard_init hand0 flop turn river r) = Err InvalidHand
      <-> accepted_set hand0 /\ accepted_set flop
          /\ exists h, as_set hand0 = OK h /\ length h <> 2).
Proof.
  rewrite init_result. unfold HBoard_view_init, accepted_set.
  destruct (as_set hand0) as [h | e] eqn:Eh; cbn [bindR].
  2:{ apply as_set_err in Eh. subst e. split; split;
        [no_result | intros ([s [X _]] & _); discriminate
         | discriminate | intros ([s [X _]] & _); discriminate]. }
  destruct (as_set flop) as [f | e] eqn:Ef; cbn [bindR].
  2:{ apply as_set_err in Ef. subst e. split; split;
        [no_result | intros (_ & [s [X _]] & _); discriminate
         | discriminate | intros (_ & [s [X _]] & _); discriminate]. }
  destruct (valid_set_cases (set_union h f))
    as [[Ev Hd] | [Ev (c & Hc & Hn)]]; rewrite Ev; cbn [bindR].
  2:{ apply set_union_In in Hc.
      split; split;
        [no_result
        | intros ([s [X Hs]] & [s' [X' Hs']] & _); same_set; exfalso;
          destruct Hc; auto
        | discriminate
        | intros ([s [X Hs]] & [s' [X' Hs']] & _); same_set; exfalso;
          destruct Hc; auto]. }
  assert (Hdh : forall c, In c h -> In c _gen_deck).
  { intros c Hc. apply Hd, set_union_In. now left. }
  assert (Hdf : forall c, In c f -> In c _gen_deck).
  { intros c Hc. apply Hd, set_union_In. now right. }
  rewrite (Hand_init_valid (PySet h) eq_refl Hdh).
  destruct (Nat.eqb_spec (length h) 2) as [L2 | L2]; cbn [bindR].
  2:{ split; split.
      - no_result.
      - intros (_ & _ & (h' & X & L) & _). same_set. contradiction.
      - intros _. split; [exists h; auto |]. split; [exists f; auto |].
        exists h; auto.
      - reflexivity. }
  cbv zeta.
  assert (Hok : forall (HB : HBoard_view) (P : Prop),
             P ->
             ((exists hb,
                  OK (mkHBoard HB (fst (fst (_best_hand HB r)))
                               (snd (fst (_best_hand HB r)))) = OK hb)
              <-> (exists s, OK h = OK s /\ forall c, In c s -> In c _gen_deck)
                  /\ (exists s, OK f = OK s
                                /\ forall c, In c s -> In c _gen_deck)
                  /\ (exists h0, OK h = OK h0 /\ length h0 = 2)
                  /\ P)
             /\ (OK (mkHBoard HB (fst (fst (_best_hand HB r)))
                              (snd (fst (_best_hand HB r))))
                 = Err InvalidHand
                 <-> (exists s, OK h = OK s
                                /\ forall c, In c s -> In c _gen_deck)
                     /\ (exists s, OK f = OK s
                                   /\ forall c, In c s -> In c _gen_deck)
                     /\ exists h0, OK h = OK h0 /\ length h0 <> 2)).
  { intros HB P HP. split; split.
    - intros _. split; [exists h; auto |]. split; [exists f; auto |].
      split; [exists h; auto | exact HP].
    - intros _. eexists. reflexivity.
    - discriminate.
    - intros (_ & _ & (h' & X & L)). same_set. contradiction. }
  assert (Hno : forall (e : error) (P : Prop),
             e <> InvalidHand -> ~ P ->
             ((exists hb : HBoard, Err e = OK hb)
              <-> (exists s, OK h = OK s /\ forall c, In c s -> In c _gen_deck)
                  /\ (exists s, OK f = OK s
                                /\ forall c, In c s -> In c _gen_deck)
                  /\ (exists h0, OK h = OK h0 /\ length h0 = 2)
                  /\ P)
             /\ (@Err HBoard e = Err InvalidHand
                 <-> (exists s, OK h = OK s
                                /\ forall c, In c s -> In c _gen_deck)
                     /\ (exists s, OK f = OK s
                                   /\ forall c, In c s -> In c _gen_deck)
                     /\ exists h0, OK h = OK h0 /\ length h0 <> 2)).
  { intros e P He HP. split; split.
    - no_result.
    - intros (_ & _ & _ & X). contradiction.
    - congruence.
    - intros (_ & _ & (h' & X & L)). same_set. contradiction. }
  destruct (truthy_arg turn) eqn:Tt.
  - destruct (as_set turn) as [t | e] eqn:Et; cbv beta iota zeta delta [bindR].
    2:{ apply as_set_err in Et. subst e. apply Hno; [discriminate |].
        intros X. destruct (X eq_refl) as [[s [Y _]] _]. discriminate. }
    destruct (valid_set_cases t) as [[Evt Hdt] | [Evt (c & Hc & Hn)]];
      rewrite Evt; cbv beta iota zeta delta [bindR].
    2:{ apply Hno; [discriminate |].
        intros X. destruct (X eq_refl) as [[s [Y Hs]] _]. same_set. auto. }
    destruct (truthy_arg river) eqn:Tr.
    + destruct (as_set river) as [rv | e] eqn:Er; cbv beta iota zeta delta [bindR].
      2:{ apply as_set_err in Er. subst e. apply Hno; [discriminate |].
          intros X. destruct (X eq_refl) as [_ X'].
          destruct (X' eq_refl) as [s [Y _]]. discriminate. }
      destruct (valid_set_cases rv) as [[Evr Hdr] | [Evr (c & Hc & Hn)]];
        rewrite Evr; cbv beta iota zeta delta [bindR].
      2:{ apply Hno; [discriminate |].
          intros X. destruct (X eq_refl) as [_ X'].
          destruct (X' eq_refl) as [s [Y Hs]]. same_set. auto. }
      rewrite Cards_init_valid by (repeat apply union_in_deck; assumption).
      cbv beta iota zeta delta [bindR cards values suits]. apply Hok.
      intros _. split; [exists t; auto |]. intros _. exists rv; auto.
    + rewrite Cards_init_valid by (repeat apply union_in_deck; assumption).
      cbv beta iota zeta delta [bindR cards values suits]. apply Hok.
      intros _. split; [exists t; auto | discriminate].
  - cbv beta iota zeta delta [bindR]. rewrite Cards_init_valid by exact Hd.
    cbv beta iota zeta delta [bindR cards values suits]. apply Hok. discriminate.
Qed.

(** ** A straight flush on a board of five cards *)

(** Of five cards of one suit over a window, three are on the board when
    the hand has two cards. *)
Lemma sf_on_board (h board : pyset) (s : string) (w : list string) :
  In w window_values -> length h <= 2 ->
  (forall v, In v w -> In (v ++ s)%string h \/ In (v ++ s)%string board) ->
  3 <= length (filter (fun v => mem (v ++ s)%string board) w).
Proof.
  intros Hw Hh Hall. destruct (window_values_ok Hw) as (Hn & Hi & H5).
  pose proof (filter_length (fun v => mem (v ++ s)%string board) w) as Hp.
  assert (Hm : length (filter (fun v => negb (mem (v ++ s)%string board)) w)
               <= length h).
  { rewrite <- (length_map (fun v => join [v; s])).
    apply NoDup_incl_length.
    - apply NoDup_map_value; [| now apply NoDup_filter].
      intros v Hv. apply filter_In in Hv. apply Hi. tauto.
    - intros c Hc. apply in_map_iff in Hc. destruct Hc as (v & <- & Hv).
      apply filter_In in Hv. destruct Hv as [Hv Hnb].
      apply negb_true_iff, mem_false in Hnb. rewrite join2.
      destruct (Hall v Hv) as [H | H]; [exact H | contradiction]. }
  rewrite H5 in Hp. clear - Hp Hm Hh. lia.
Qed.

Section BoardFlush.

Variable board : pyset.
Hypothesis Hd : forall c, In c board -> In c deck52.

Lemma board_suit_count (s : string) (vs : list string) :
  NoDup vs -> In s four_suits -> incl vs all_values ->
  (forall v, In v vs -> In (v ++ s)%string board) ->
  length vs <= length (dict_get_default (_gen_suits board) s).
Proof.
  intros Hn Hs Hi Hall. apply NoDup_incl_length; [exact Hn |].
  intros v Hv. apply (ix_in (gen_suits_spec board)).
  exists (v ++ s)%string. split; [now apply Hall |].
  destruct (value_of_append (Hi v Hv) Hs). auto.
Qed.

Lemma two_suits_six (s s' : string) :
  s <> s' ->
  3 <= length (dict_get_default (_gen_suits board) s) ->
  3 <= length (dict_get_default (_gen_suits board) s') ->
  6 <= length board.
Proof.
  intros Hne H3 H3'.
  set (l := map (fun v => join [v; s]) (dict_get_default (_gen_suits board) s)
            ++ map (fun v => join [v; s'])
                   (dict_get_default (_gen_suits board) s')).
  assert (Hl : length l = length (dict_get_default (_gen_suits board) s)
                          + length (dict_get_default (_gen_suits board) s')).
  { unfold l. now rewrite length_app, !length_map. }
  assert (Hn : NoDup l).
  { unfold l. apply NoDup_app.
    - apply NoDup_map_value; [| apply (ix_nodup (gen_suits_spec board))].
      intros v Hv. now apply (@board_suit_entry board Hd) in Hv.
    - apply NoDup_map_value; [| apply (ix_nodup (gen_suits_spec board))].
      intros v Hv. now apply (@board_suit_entry board Hd) in Hv.
    - intros c Hc Hc'. apply in_map_iff in Hc, Hc'.
      destruct Hc as (v & <- & Hv), Hc' as (v' & E & Hv').
      rewrite !join2 in E.
      destruct (@board_suit_entry board Hd _ _ Hv) as (_ & A1 & A2).
      destruct (@board_suit_entry board Hd _ _ Hv') as (_ & B1 & B2).
      apply (f_equal suit_of) in E.
      rewrite (proj2 (value_of_append A1 A2)) in E.
      rewrite (proj2 (value_of_append B1 B2)) in E. congruence. }
  assert (Hi : incl l board).
  { unfold l. intros c Hc. apply in_app_or in Hc.
    destruct Hc as [Hc | Hc]; apply in_map_iff in Hc;
      destruct Hc as (v & <- & Hv); rewrite join2;
      now apply (@board_suit_entry board Hd) in Hv. }
  pose proof (NoDup_incl_length Hn Hi) as Hle.
  rewrite Hl in Hle. clear - Hle H3 H3'. lia.
Qed.

(** On a board of five cards at most, a suit that three cards have is
    the potential flush. *)
Lemma pflush_unique (s : string) :
  length board <= 5 ->
  3 <= length (dict_get_default (_gen_suits board) s) ->
  _pflush board = Some (suit_name suit_names s).
Proof.
  intros H5 H3. unfold _pflush. cbv zeta.
  destruct (pflush_loop (_gen_suits board) (dict_keys (_gen_suits board)))
    as [name |] eqn:E.
  - apply pflush_loop_Some in E. destruct E as (s' & _ & H3' & ->).
    destruct (string_dec s s') as [<- | Hne]; [reflexivity |].
    pose proof (two_suits_six Hne H3 H3') as H6. clear - H5 H6. lia.
  - exfalso.
    destruct (in_dec string_dec s (dict_keys (_gen_suits board))) as [Hk | Hk].
    + pose proof (pflush_loop_None _ _ E s Hk) as Hlt. clear - Hlt H3. lia.
    + rewrite (@board_suit_unknown board s Hk) in H3. simpl in H3. clear - H3. lia.
Qed.

End BoardFlush.

Lemma suit_name_truthy (s : string) :
  In s four_suits -> truthy_str (Some (suit_name suit_names s)) = true.
Proof.
  intros H. vm_compute in H.
  repeat (destruct H as [<- | H]; [reflexivity |]). destruct H.
Qed.

Lemma straight_flush_found (HB : HBoard_view) (s : string) (w : list string) :
  v_pflush HB = Some (suit_name suit_names s) -> In s four_suits ->
  truthy_list (v_pstraight HB) = true ->
  In w window_values ->
  incl (map (fun v => (v ++ s)%string) w) (v_cards HB) ->
  _straight_flush HB <> PFalse.
Proof.
  intros Hpf Hs Hps Hw Hi. unfold _straight_flush.
  rewrite Hpf, Hps, (suit_name_truthy Hs). cbn [andb]. cbv zeta.
  rewrite (suit_name_initial Hs), sf_pstraights.
  match goal with |- first_match ?t ?f ?l <> _ =>
    destruct (first_match_inv t f l) as [[_ Hall] | (x & _ & _ & ->)] end;
    [| discriminate].
  exfalso.
  assert (Hf : issubset (set_of_list (map (fun value => join [value; s]) w))
                        (v_cards HB) = false).
  { apply Hall. now apply in_map. }
  assert (Ht : issubset (set_of_list (map (fun value => join [value; s]) w))
                        (v_cards HB) = true).
  { apply issubset_incl. intros c Hc. rewrite set_of_list_In in Hc.
    apply Hi. exact Hc. }
  congruence.
Qed.

(** X27.  On a board of five cards at most, a straight flush is never
    missed: when the five cards of one suit over one of the ten windows
    are among the aggregate's cards, the category is Straight Flush. *)
Theorem straight_flush_never_missed (hand0 flop turn river : arg) (r : rng)
        (hb : HBoard) :
  wf_arg hand0 ->
  fst (HBoard_init hand0 flop turn river r) = OK hb ->
  length (v_board (view hb)) <= 5 ->
  (exists s w,
      In s four_suits /\ In w window_values
      /\ incl (map (fun v => (v ++ s)%string) w) (v_cards (view hb))) ->
  best_hand_type hb = "Straight Flush".
Proof.
  intros Hw H H5 (s & w & Hs & Hwin & Hi).
  destruct (init_unfold _ _ _ _ _ Hw H) as (wf & Einit & Eb & Et).
  destruct (view_init_fields _ _ _ _ Einit)
    as (h & f & _ & _ & L2 & _ & _ & Hcards & Hps & Hpf & _).
  destruct (window_values_ok Hwin) as (W1 & W2 & W3).
  assert (Hbd : forall c, In c (v_board (view hb)) -> In c deck52).
  { intros c Hc. apply (wf_deck wf), Hcards. now right. }
  assert (Hall : forall v, In v w ->
                           In (v ++ s)%string h
                           \/ In (v ++ s)%string (v_board (view hb))).
  { intros v Hv. apply Hcards, Hi. apply in_map_iff. now exists v. }
  assert (H3 : 3 <= length (dict_get_default
                              (_gen_suits (v_board (view hb))) s)).
  { eapply Nat.le_trans;
      [apply (@sf_on_board h (v_board (view hb)) s w Hwin);
       [rewrite L2; apply Nat.le_refl | exact Hall] |].
    apply (@board_suit_count (v_board (view hb)) s); auto.
    - now apply NoDup_filter.
    - intros v Hv. apply filter_In in Hv. apply W2. tauto.
    - intros v Hv. apply filter_In in Hv. destruct Hv as [_ Hv].
      now apply mem_In in Hv. }
  assert (Epf : v_pflush (view hb) = Some (suit_name suit_names s)).
  { rewrite Hpf. now apply pflush_unique. }
  assert (Eps : truthy_list (v_pstraight (view hb)) = true).
  { assert (Hin : In (join w) (v_pstraight (view hb))).
    { rewrite Hps, pstraight_spec. apply filter_In. split.
      - replace ten_windows with (map join window_values)
          by (vm_compute; reflexivity).
        now apply in_map.
      - apply Nat.leb_le, window_on_board with (h := h).
        + replace ten_windows with (map join window_values)
            by (vm_compute; reflexivity).
          now apply in_map.
        + rewrite L2. apply Nat.le_refl.
        + rewrite (chars_join_window Hwin). intros v Hv.
          exists (v ++ s)%string. split; [now apply Hall |].
          now apply value_of_value, W2. }
    destruct (v_pstraight (view hb)); [destruct Hin | reflexivity]. }
  pose proof (@straight_flush_found (view hb) s w Epf Hs Eps Hwin Hi) as Hsf.
  pose proof (resolver_cases r wf) as Hc. cbv zeta in Hc. rewrite Et.
  destruct Hc as [Hc | Hc].
  - destruct Hc as [_ [r' E]]. now rewrite E.
  - exfalso.
    destruct Hc as [Hc | [Hc | [Hc | [Hc | [Hc | [Hc | [Hc | Hc]]]]]]];
      destruct Hc as (Hm & _);
      apply (miss_pure (straight_flush_good (view hb))) in Hm; contradiction.
Qed.

(** ** Two evaluations of the resolver *)

Lemma same_cards_refl (d : detected) : same_cards d d.
Proof. destruct d; simpl; [exact I | tauto]. Qed.

Lemma forallb_false_In (A : Type) (f : A -> bool) (l : list A) :
  forallb f l = false -> exists x, In x l /\ f x = false.
Proof.
  induction l as [| y l IH]; cbn [forallb]; [discriminate |].
  destruct (f y) eqn:E; cbn [andb].
  - intros H. destruct (IH H) as (x & Hx & Hf). exists x. split; [now right | exact Hf].
  - intros _. exists y. split; [now left | exact E].
Qed.

Lemma one_element (A : Type) (l : list A) (a b : A) :
  length l = 1 -> In a l -> In b l -> a = b.
Proof.
  destruct l as [| x [| y l]]; try discriminate. intros _ [<- | []] [<- | []].
  reflexivity.
Qed.

Section Evaluations.

Variable HB : HBoard_view.
Hypothesis wf : wf_view HB.

Lemma label_full_house (r : rng) :
  snd (fst (_best_hand HB r)) = "Full House" ->
  (forall r', truthy (fst (_full_house HB r')) = true)
  /\ exists r', fst (fst (_best_hand HB r)) = fst (_full_house HB r').
Proof.
  intros Hlab. pose proof (resolver_cases r wf) as Hc. cbv zeta in Hc.
  all_cases Hc; by_label Hlab. split; [assumption | eexists; reflexivity].
Qed.

Lemma label_straight (r : rng) :
  snd (fst (_best_hand HB r)) = "Straight" ->
  (forall r', truthy (fst (_straight HB r')) = true)
  /\ exists r', fst (fst (_best_hand HB r)) = fst (_straight HB r').
Proof.
  intros Hlab. pose proof (resolver_cases r wf) as Hc. cbv zeta in Hc.
  all_cases Hc; by_label Hlab. split; [assumption | eexists; reflexivity].
Qed.

(** The cards of the value [v] that a good hand holds are all the cards
    of that value when it holds as many as there are. *)
Lemma all_of_value (bh : pyset) (v : string) (c : string) :
  good HB bh ->
  length (cards_of_value v bh) = length (cards_of_value v (v_cards HB)) ->
  In c (v_cards HB) -> value_of c = v -> In c bh.
Proof.
  intros (Hn & Hi & _) Hl Hc Hv.
  assert (Hin : In c (cards_of_value v bh)).
  { apply (NoDup_length_incl (l := cards_of_value v bh)
                             (l' := cards_of_value v (v_cards HB))).
    - now apply NoDup_filter.
    - rewrite Hl. apply Nat.le_refl.
    - intros x Hx. apply cards_of_value_In in Hx. apply cards_of_value_In.
      split; [apply Hi |]; tauto.
    - apply cards_of_value_In. auto. }
  apply cards_of_value_In in Hin. tauto.
Qed.

(** A good hand of five cards, three of one value and two of another,
    holds no other card. *)
Lemma hand_of_two_values (bh : pyset) (v1 v2 : string) (c : string) :
  good HB bh -> v2 <> v1 -> length bh = 5 ->
  length (cards_of_value v1 bh) = 3 -> length (cards_of_value v2 bh) = 2 ->
  In c bh -> value_of c = v1 \/ value_of c = v2.
Proof.
  intros (Hn & Hi & _) Hne H5 H3 H2 Hc.
  assert (Hin : In c (cards_of_value v1 bh ++ cards_of_value v2 bh)).
  { apply (NoDup_length_incl
             (l := cards_of_value v1 bh ++ cards_of_value v2 bh) (l' := bh)).
    - apply NoDup_app; try now apply NoDup_filter.
      intros x Hx Hx'. apply cards_of_value_In in Hx, Hx'.
      destruct Hx as [_ E1], Hx' as [_ E2]. congruence.
    - rewrite length_app, H3, H2, H5. apply Nat.le_refl.
    - intros x Hx. apply in_app_or in Hx.
      destruct Hx as [Hx | Hx]; apply cards_of_value_In in Hx; tauto.
    - exact Hc. }
  apply in_app_or in Hin.
  destruct Hin as [Hin | Hin]; apply cards_of_value_In in Hin; tauto.
Qed.

Lemma full_house_same_or_drawn (ra rb : rng) :
  (forall r, truthy (fst (_full_house HB r)) = true) ->
  same_cards (fst (_full_house HB ra)) (fst (_full_house HB rb))
  \/ exists bh v,
       fst (_full_house HB ra) = Made bh
       /\ length (cards_of_value v bh) = 2
       /\ 3 <= length (cards_of_value v (v_cards HB)).
Proof.
  intros T.
  destruct (@full_house_outer_content HB wf all_values ra all_values_NoDup
              (@incl_refl _ _) (T ra))
    as (v1 & v2 & _ & L1 & Hne & _ & _ & Hall).
  fold (_full_house HB) in Hall.
  destruct (Hall ra) as (bha & Ea & A5 & A1 & A2).
  destruct (Hall rb) as (bhb & Eb & B5 & B1 & B2).
  assert (Hgood : forall r bh, fst (_full_house HB r) = Made bh -> good HB bh).
  { intros r bh E. destruct (full_house_settled wf) as [M | S].
    - rewrite M in E. discriminate.
    - destruct (S r) as (bh' & E' & G & _). congruence. }
  pose proof (Hgood _ _ Ea) as Ga. pose proof (Hgood _ _ Eb) as Gb.
  assert (C1 : length (cards_of_value v1 (v_cards HB)) = 3)
    by now rewrite (count_value wf).
  assert (Hle : 2 <= length (cards_of_value v2 (v_cards HB))).
  { rewrite <- A2. apply NoDup_incl_length.
    - apply NoDup_filter, Ga.
    - intros x Hx. apply cards_of_value_In in Hx. apply cards_of_value_In.
      split; [apply Ga |]; tauto. }
  destruct (Nat.eq_dec (length (cards_of_value v2 (v_cards HB))) 2) as [C2 | C2].
  - left. rewrite Ea, Eb. cbn [same_cards]. intros c. split; intros Hc.
    + assert (Hin : In c (v_cards HB)) by now apply Ga.
      destruct (@hand_of_two_values bha v1 v2 c Ga Hne A5 A1 A2 Hc) as [Hv | Hv].
      * apply (@all_of_value bhb v1 c Gb); auto. now rewrite B1, C1.
      * apply (@all_of_value bhb v2 c Gb); auto. now rewrite B2, C2.
    + assert (Hin : In c (v_cards HB)) by now apply Gb.
      destruct (@hand_of_two_values bhb v1 v2 c Gb Hne B5 B1 B2 Hc) as [Hv | Hv].
      * apply (@all_of_value bha v1 c Ga); auto. now rewrite A1, C1.
      * apply (@all_of_value bha v2 c Ga); auto. now rewrite A2, C2.
  - right. exists bha, v2. split; [exact Ea |]. split; [exact A2 |].
    clear - Hle C2. lia.
Qed.

Lemma straight_same_or_drawn (ra rb : rng) :
  (forall r, truthy (fst (_straight HB r)) = true) ->
  same_cards (fst (_straight HB ra)) (fst (_straight HB rb))
  \/ exists bh c,
       fst (_straight HB ra) = Made bh
       /\ In c bh
       /\ 2 <= length (cards_of_value (value_of c) (v_cards HB)).
Proof.
  intros T.
  destruct (@straight_loop_content HB wf (v_pstraight HB) ra
              (wf_pstraight wf) (T ra))
    as (pre & w & post & _ & _ & _ & Hall).
  fold (_straight HB) in Hall.
  destruct (Hall ra) as (bha & Ea & Va & A5).
  destruct (Hall rb) as (bhb & Eb & Vb & B5).
  assert (Hgood : forall r bh, fst (_straight HB r) = Made bh -> good HB bh).
  { intros r bh E. destruct (straight_settled wf) as [M | S].
    - rewrite M in E. discriminate.
    - destruct (S r) as (bh' & E' & G & _). congruence. }
  pose proof (Hgood _ _ Ea) as Ga. pose proof (Hgood _ _ Eb) as Gb.
  assert (Hmove : forall b1 b2, good HB b1 -> good HB b2 ->
             map value_of b1 = chars w -> map value_of b2 = chars w ->
             (forall v, In v (chars w) ->
                        length (cards_of_value v (v_cards HB)) = 1) ->
             forall c, In c b1 -> In c b2).
  { intros b1 b2 G1 G2 V1 V2 Hone c Hc.
    assert (Hv : In (value_of c) (chars w)).
    { rewrite <- V1. now apply in_map. }
    pose proof Hv as Hv2. rewrite <- V2 in Hv2. apply in_map_iff in Hv2.
    destruct Hv2 as (c' & Ec & Hc').
    assert (E : c' = c).
    { apply (@one_element _ (cards_of_value (value_of c) (v_cards HB)) c' c).
      - now apply Hone.
      - apply cards_of_value_In. split; [now apply G2 | exact Ec].
      - apply cards_of_value_In. split; [now apply G1 | reflexivity]. }
    now rewrite <- E. }
  destruct (forallb (fun v => (length (cards_of_value v (v_cards HB)) =? 1)%nat)
                    (chars w)) eqn:F.
  - left. rewrite forallb_forall in F.
    assert (Hone : forall v, In v (chars w) ->
                             length (cards_of_value v (v_cards HB)) = 1).
    { intros v Hv. now apply Nat.eqb_eq, F. }
    rewrite Ea, Eb. cbn [same_cards]. intros c. split.
    + now apply Hmove.
    + now apply Hmove.
  - right. apply forallb_false_In in F. destruct F as (v & Hv & Hf).
    apply Nat.eqb_neq in Hf. rewrite <- Va in Hv. apply in_map_iff in Hv.
    destruct Hv as (c & <- & Hc). exists bha, c.
    split; [exact Ea |]. split; [exact Hc |].
    assert (H1 : 1 <= length (cards_of_value (value_of c) (v_cards HB))).
    { assert (Hin : In c (cards_of_value (value_of c) (v_cards HB))).
      { apply cards_of_value_In. split; [now apply Ga | reflexivity]. }
      destruct (cards_of_value (value_of c) (v_cards HB)); [destruct Hin |].
      cbn [length]. apply Nat.lt_0_succ. }
    clear - H1 Hf. lia.
Qed.

End Evaluations.

(** C6, as the code has it.  For the same arguments and the same order
    of enumeration of sets, two evaluations fail alike or build the same
    aggregate with the same category label.  Their best hands are the
    same set of cards unless the category is Full House and the value of
    which the best hand holds two cards occurs three times or more among
    the aggregate's cards, or the category is Straight and the value of
    one card of the best hand occurs twice or more among them: these are
    the cases in which the suits drawn at random by [_full_house] and
    [_straight] are not forced.  Outside Full House and Straight the two
    best hands are also enumerated alike. *)
Theorem resolver_deterministic_up_to_draws (hand flop turn river : arg)
        (r1 r2 : rng) :
  wf_arg hand ->
  match fst (HBoard_init hand flop turn river r1),
        fst (HBoard_init hand flop turn river r2) with
  | OK a, OK b =>
      view a = view b
      /\ best_hand_type a = best_hand_type b
      /\ (same_cards (best_hand a) (best_hand b)
          \/ (best_hand_type a = "Full House"
              /\ exists bh v,
                   best_hand a = Made bh
                   /\ length (cards_of_value v bh) = 2
                   /\ 3 <= length (cards_of_value v (v_cards (view a))))
          \/ (best_hand_type a = "Straight"
              /\ exists bh c,
                   best_hand a = Made bh
                   /\ In c bh
                   /\ 2 <= length (cards_of_value (value_of c)
                                                  (v_cards (view a)))))
      /\ (best_hand_type a <> "Full House" ->
          best_hand_type a <> "Straight" ->
          best_hand a = best_hand b)
  | Err e1, Err e2 => e1 = e2
  | _, _ => False
  end.
Proof.
  intros Hw. rewrite !init_result.
  destruct (HBoard_view_init hand flop turn river) as [HB | e] eqn:E;
    [| reflexivity].
  apply view_init_wf in E; [| exact Hw].
  cbn [view best_hand best_hand_type].
  destruct (best_hand_loop_det (phands_settled E) (phands_draws HB) r1 r2)
    as [H1 H2].
  fold (_best_hand HB) in H1, H2.
  split; [reflexivity |]. split; [exact H1 |]. split.
  - destruct H2 as [Heq | [Hfh | Hst]].
    + left. rewrite Heq. apply same_cards_refl.
    + pose proof Hfh as Hfh2. rewrite H1 in Hfh2.
      destruct (label_full_house E r1 Hfh) as [T (ra & Ea)].
      destruct (label_full_house E r2 Hfh2) as [_ (rb & Eb)].
      rewrite Ea, Eb.
      destruct (full_house_same_or_drawn E ra rb T) as [S | D];
        [left; exact S | right; left; split; [exact Hfh | exact D]].
    + pose proof Hst as Hst2. rewrite H1 in Hst2.
      destruct (label_straight E r1 Hst) as [T (ra & Ea)].
      destruct (label_straight E r2 Hst2) as [_ (rb & Eb)].
      rewrite Ea, Eb.
      destruct (straight_same_or_drawn E ra rb T) as [S | D];
        [left; exact S | right; right; split; [exact Hst | exact D]].
  - intros N1 N2. destruct H2 as [Heq | [F | S]];
      [exact Heq | contradiction | contradiction].
Qed.

End Equipy.

(** * Concrete runs *)

Lemma insertion_order_perm (l : list string) : Permutation (insertion_order l) l.
Proof. apply Permutation_refl. Qed.

(** The best hand of C1 on the aggregate of the class's docstring. *)
Lemma best_hand_subset_size_witness :
  exists hb,
    fst (HBoard_init insertion_order (Str "KhTd") (Str "5h7d9c") (Str "Js")
                     (Str "Qh") []) = OK hb
    /\ exists bh,
        best_hand hb = Made bh
        /\ NoDup bh
        /\ incl bh (v_cards (view hb))
        /\ length bh <= 5
        /\ (length bh < 5 -> length (v_cards (view hb)) < 5).
Proof.
  eexists. split.
  - vm_compute. reflexivity.
  - apply (@best_hand_subset_size insertion_order insertion_order_perm
             (Str "KhTd") (Str "5h7d9c") (Str "Js") (Str "Qh") []).
    + exact I.
    + vm_compute. reflexivity.
Defined.

(** The order of the detectors on a royal flush in hearts. *)
Lemma detectors_descending_order_witness :
  exists HB,
    HBoard_view_init insertion_order (Str "AhKh") (Str "QhJhTh") (Str EmptyString)
                     (Str EmptyString) = OK HB
    /\ truthy (_straight_flush HB) = true
    /\ fst (_best_hand insertion_order HB [])
       = (_straight_flush HB, "Straight Flush").
Proof.
  eexists. split; [vm_compute; reflexivity |].
  match goal with
  | |- truthy (_straight_flush ?HB) = true /\ _ =>
      assert (Hinit : HBoard_view_init insertion_order (Str "AhKh")
                        (Str "QhJhTh") (Str EmptyString) (Str EmptyString) = OK HB)
        by (vm_compute; reflexivity);
      assert (Hsf : truthy (_straight_flush HB) = true)
        by (vm_compute; reflexivity);
      destruct (@detectors_descending_order insertion_order
                  insertion_order_perm (Str "AhKh") (Str "QhJhTh") (Str EmptyString)
                  (Str EmptyString) HB [] I Hinit) as [_ H]
  end.
  split; [exact Hsf | exact (H Hsf)].
Defined.

(** C6 as stated fails: with a pair of kings in hand and Q J T 9 on the
    board, the king of the straight is the king of hearts or the king of
    diamonds, depending on the draws. *)
Lemma best_hand_depends_on_draws :
  best_of (fst (HBoard_init insertion_order (Str "KhKd") (Str "QhJsTc")
                            (Str "9d") (Str "2c") [0; 0; 0; 0; 0; 0]))
  = Made ["Kh"; "Qh"; "Js"; "Tc"; "9d"]
  /\ best_of (fst (HBoard_init insertion_order (Str "KhKd") (Str "QhJsTc")
                               (Str "9d") (Str "2c") [0; 0; 0; 0; 0; 1]))
     = Made ["Kd"; "Qh"; "Js"; "Tc"; "9d"]
  /\ set_eqb ["Kh"; "Qh"; "Js"; "Tc"; "9d"] ["Kd"; "Qh"; "Js"; "Tc"; "9d"]
     = false.
Proof. vm_compute. repeat split. Qed.

Lemma swap_first_two_perm (l : list string) :
  Permutation (swap_first_two l) l.
Proof.
  destruct l as [| x [| y rest]]; cbn [swap_first_two];
    [apply Permutation_refl | apply Permutation_refl | apply perm_swap].
Qed.

(** The order of enumeration is an input too: with a pair of aces in
    hand and K K Q Q 2 on the board, the fifth card of the two pair is the
    queen of hearts or the queen of diamonds, depending on the order in
    which the sets are enumerated. *)
Lemma best_hand_depends_on_enumeration :
  best_of (fst (HBoard_init insertion_order (Str "AhAd") (Str "KsKcQh")
                            (Str "Qd") (Str "2c") []))
  = Made ["Ah"; "Ad"; "Ks"; "Kc"; "Qh"]
  /\ best_of (fst (HBoard_init swap_first_two (Str "AhAd") (Str "KsKcQh")
                               (Str "Qd") (Str "2c") []))
     = Made ["Ah"; "Ad"; "Kc"; "Ks"; "Qd"]
  /\ type_of (fst (HBoard_init insertion_order (Str "AhAd") (Str "KsKcQh")
                               (Str "Qd") (Str "2c") []))
     = "Two Pair"
  /\ type_of (fst (HBoard_init swap_first_two (Str "AhAd") (Str "KsKcQh")
                               (Str "Qd") (Str "2c") []))
     = "Two Pair"
  /\ set_eqb ["Ah"; "Ad"; "Ks"; "Kc"; "Qh"] ["Ah"; "Ad"; "Kc"; "Ks"; "Qd"]
     = false.
Proof. vm_compute. repeat split. Qed.

Lemma resolver_deterministic_up_to_draws_witness :
  type_of (fst (HBoard_init insertion_order (Str "KhKd") (Str "QhJsTc")
                            (Str "9d") (Str "2c") [0; 0; 0; 0; 0; 0]))
  = type_of (fst (HBoard_init insertion_order (Str "KhKd") (Str "QhJsTc")
                              (Str "9d") (Str "2c") [0; 0; 0; 0; 0; 1])).
Proof.
  pose proof (@resolver_deterministic_up_to_draws insertion_order
                insertion_order_perm (Str "KhKd") (Str "QhJsTc") (Str "9d")
                (Str "2c") [0; 0; 0; 0; 0; 0] [0; 0; 0; 0; 0; 1] I) as H.
  destruct (fst (HBoard_init insertion_order (Str "KhKd") (Str "QhJsTc")
                             (Str "9d") (Str "2c") [0; 0; 0; 0; 0; 0]))
    as [a | e1],
    (fst (HBoard_init insertion_order (Str "KhKd") (Str "QhJsTc")
                      (Str "9d") (Str "2c") [0; 0; 0; 0; 0; 1]))
    as [b | e2]; cbn [type_of]; try contradiction.
  - apply H.
  - reflexivity.
Defined.

Lemma in_deck_insertion (c : string) :
  mem c deck52 = true -> In c (_gen_deck insertion_order).
Proof.
  intros H. apply (proj2 (@gen_deck_In insertion_order insertion_order_perm c)).
  apply (proj1 (mem_In c deck52)). exact H.
Qed.

(** C3 in insertion order. *)
Lemma docstring_scenario_witness :
  exists hb,
    fst (HBoard_init insertion_order (PySet ["Kh"; "Td"])
                     (PySet ["5h"; "7d"; "9c"]) (PySet ["Js"]) (PySet ["Qh"])
                     []) = OK hb
    /\ v_pstraight (view hb) = ["KQJT9"; "QJT98"; "JT987"; "98765"]
    /\ v_pflush (view hb) = None
    /\ (exists bh, best_hand hb = Made bh /\ NoDup bh
                   /\ forall c, In c bh <-> In c ["Kh"; "Js"; "Td"; "Qh"; "9c"])
    /\ best_hand_type hb = "Straight".
Proof. exact (@docstring_scenario insertion_order insertion_order_perm []). Defined.

(** C4 as stated fails: the two characters Xh name no card, and the
    string fails with InvalidCardsString, not with InvalidCardsSet. *)
Lemma non_deck_token_is_a_string_error :
  String.length "Xh" mod 2 = 0
  /\ tokens "Xh" = ["Xh"]
  /\ ~ In "Xh" (_gen_deck insertion_order)
  /\ Cards_init insertion_order (Str "Xh") = Err InvalidCardsString
  /\ Cards_init insertion_order (Str "Xh") <> Err InvalidCardsSet.
Proof.
  split; [reflexivity |]. split; [reflexivity |]. split.
  - apply mem_false. vm_compute. reflexivity.
  - split; [vm_compute; reflexivity | vm_compute; discriminate].
Qed.

Lemma cards_string_errors_witness :
  Cards_init insertion_order (Str "KhT") = Err InvalidCardsString
  /\ Cards_init insertion_order (Str "Xh") = Err InvalidCardsString
  /\ Cards_init insertion_order (PySet ["Xh"]) = Err InvalidCardsSet.
Proof.
  destruct (@cards_string_errors insertion_order insertion_order_perm "KhT")
    as (H1 & _ & _ & H4).
  destruct (@cards_string_errors insertion_order insertion_order_perm "Xh")
    as (_ & H2 & _ & _).
  assert (Hx : ~ In "Xh" (_gen_deck insertion_order))
    by (apply mem_false; vm_compute; reflexivity).
  split; [apply H1; vm_compute; discriminate |]. split.
  - apply H2; [reflexivity |]. exists "Xh". split; [now left | exact Hx].
  - apply H4. exists "Xh". split; [now left | exact Hx].
Defined.

(** C5 as stated fails: the king of hearts written twice is rendered
    once. *)
Lemma repeated_token_rendered_once :
  Cards_init insertion_order (Str "KhKh")
  = OK (mkCards ["Kh"] [("K", ["h"])] [("h", ["K"])])
  /\ tokens (Cards_str insertion_order
               (mkCards ["Kh"] [("K", ["h"])] [("h", ["K"])])) = ["Kh"]
  /\ tokens "KhKh" = ["Kh"; "Kh"]
  /\ ~ Permutation ["Kh"] ["Kh"; "Kh"].
Proof.
  split; [vm_compute; reflexivity |]. split; [vm_compute; reflexivity |].
  split; [vm_compute; reflexivity |].
  intros H. apply Permutation_length in H. discriminate.
Qed.

Lemma render_parse_tokens_witness :
  Permutation
    (tokens (Cards_str insertion_order
               (mkCards ["Kh"; "Td"] [("K", ["h"]); ("T", ["d"])]
                        [("h", ["K"]); ("d", ["T"])])))
    (tokens "KhTd").
Proof.
  assert (E : Cards_init insertion_order (Str "KhTd")
              = OK (mkCards ["Kh"; "Td"] [("K", ["h"]); ("T", ["d"])]
                            [("h", ["K"]); ("d", ["T"])]))
    by (vm_compute; reflexivity).
  destruct (@render_parse_tokens insertion_order insertion_order_perm _ _ E)
    as [_ H].
  apply H. change (tokens "KhTd") with ["Kh"; "Td"].
  repeat constructor; simpl; intuition discriminate.
Defined.

(** C7 on ace-deuce. *)
Lemma connected_iff_window_witness :
  exists H,
    Hand_init insertion_order (Str "Ah2c") = OK H
    /\ connected H = true.
Proof.
  eexists. split; [vm_compute; reflexivity |].
  match goal with
  | |- connected ?H = true =>
      assert (E : Hand_init insertion_order (Str "Ah2c") = OK H)
        by (vm_compute; reflexivity);
      destruct (@connected_iff_window insertion_order insertion_order_perm
                  _ _ E) as (c1 & c2 & Eh & _ & HA2 & _)
  end.
  cbn [hand] in Eh. inversion Eh; subst c1 c2. apply HA2. left.
  split; reflexivity.
Defined.

(** C8 on the board of the docstring. *)
Lemma pstraight_windows_with_three_values_witness :
  _pstraight insertion_order ["5h"; "7d"; "9c"; "Js"; "Qh"]
  = ["KQJT9"; "QJT98"; "JT987"; "98765"].
Proof.
  destruct (@pstraight_windows_with_three_values insertion_order
              insertion_order_perm ["5h"; "7d"; "9c"; "Js"; "Qh"])
    as [H _].
  - intros c Hc. apply in_deck_insertion.
    repeat (destruct Hc as [<- | Hc]; [vm_compute; reflexivity |]). destruct Hc.
  - rewrite H. vm_compute. reflexivity.
Defined.

(** C9 on three cards. *)
Lemma hand_cardinality_check_witness :
  Hand_init insertion_order (Str "KhTd9c") = Err InvalidHand.
Proof.
  destruct (@hand_cardinality_check insertion_order insertion_order_perm
              (Str "KhTd9c")) as (_ & _ & H).
  assert (E : as_set insertion_order (Str "KhTd9c") = OK ["Kh"; "Td"; "9c"])
    by (vm_compute; reflexivity).
  destruct (H _ E) as [Hiff _].
  - intros c Hc. apply in_deck_insertion.
    repeat (destruct Hc as [<- | Hc]; [vm_compute; reflexivity |]). destruct Hc.
  - apply Hiff. discriminate.
Defined.

(** C10 on the king of hearts written twice. *)
Lemma duplicate_tokens_collapse_witness :
  (exists C, Cards_init insertion_order (Str "KhKh") = OK C
             /\ cards C = ["Kh"]
             /\ length (cards C) < length (tokens "KhKh"))
  /\ Hand_init insertion_order (Str "KhKh") = Err InvalidHand.
Proof.
  destruct (@duplicate_tokens_collapse insertion_order insertion_order_perm)
    as [H1 H2].
  split.
  - destruct (H1 "KhKh") as (C & E & Ec & _ & _ & _ & Hlt).
    + reflexivity.
    + intros c Hc. apply in_deck_insertion.
      repeat (destruct Hc as [<- | Hc]; [vm_compute; reflexivity |]). destruct Hc.
    + exists C. split; [exact E |]. split; [rewrite Ec; reflexivity |].
      apply Hlt. intros Hn. change (tokens "KhKh") with ["Kh"; "Kh"] in Hn.
      inversion Hn as [| ? ? Hx _]. apply Hx. now left.
  - apply (H2 "Kh"). apply in_deck_insertion. vm_compute. reflexivity.
Defined.

(** ** Runs of the further properties *)

Ltac deck_cards :=
  let c := fresh "c" in
  let Hc := fresh "Hc" in
  intros c Hc; apply in_deck_insertion;
  repeat (destruct Hc as [<- | Hc]; [vm_compute; reflexivity |]);
  destruct Hc.

Ltac distinct_cards := repeat constructor; simpl; intuition discriminate.

(** X1 in insertion order. *)
Lemma gen_deck_is_the_52_cards_witness :
  length (_gen_deck insertion_order) = 52.
Proof.
  exact (proj1 (proj2 (@gen_deck_is_the_52_cards insertion_order
                         insertion_order_perm))).
Defined.

(** X2 on two cards of the deck. *)
Lemma valid_set_result_witness :
  _valid_set insertion_order ["Kh"; "Td"] = OK true.
Proof.
  destruct (@valid_set_result insertion_order insertion_order_perm
              ["Kh"; "Td"]) as [H _].
  apply (proj2 H). deck_cards.
Defined.

(** X3 on two kings and a ten. *)
Lemma gen_values_index_witness :
  dict_get (_gen_values insertion_order ["Kh"; "Kd"; "Ts"]) "K"
  = Some ["h"; "d"]
  /\ forall s, In s ["h"; "d"] <-> In ("K" ++ s)%string ["Kh"; "Kd"; "Ts"].
Proof.
  split; [vm_compute; reflexivity |].
  assert (Hd : forall c, In c ["Kh"; "Kd"; "Ts"] ->
                         In c (_gen_deck insertion_order)) by deck_cards.
  pose proof (@gen_values_index insertion_order insertion_order_perm
                ["Kh"; "Kd"; "Ts"] Hd) as H.
  cbv zeta in H. destruct H as (_ & _ & _ & H & _).
  destruct (H "K" ["h"; "d"]) as (_ & _ & _ & H4);
    [vm_compute; reflexivity | exact H4].
Defined.

(** X4 on two kings and a ten. *)
Lemma gen_suits_index_witness :
  dict_get (_gen_suits insertion_order ["Kh"; "Kd"; "Ts"]) "h" = Some ["K"]
  /\ forall v, In v ["K"] <-> In (v ++ "h")%string ["Kh"; "Kd"; "Ts"].
Proof.
  split; [vm_compute; reflexivity |].
  assert (Hd : forall c, In c ["Kh"; "Kd"; "Ts"] ->
                         In c (_gen_deck insertion_order)) by deck_cards.
  pose proof (@gen_suits_index insertion_order insertion_order_perm
                ["Kh"; "Kd"; "Ts"] Hd) as H.
  cbv zeta in H. destruct H as (_ & _ & _ & H & _).
  destruct (H "h" ["K"]) as (_ & _ & _ & H4);
    [vm_compute; reflexivity | exact H4].
Defined.

(** X5 on two kings and a ten. *)
Lemma index_entries_count_the_cards_witness :
  dict_total (_gen_values insertion_order ["Kh"; "Kd"; "Ts"]) = 3
  /\ dict_total (_gen_suits insertion_order ["Kh"; "Kd"; "Ts"]) = 3.
Proof.
  apply (@index_entries_count_the_cards insertion_order insertion_order_perm
           ["Kh"; "Kd"; "Ts"]).
  - distinct_cards.
  - deck_cards.
Defined.

(** X6 on a pair of kings. *)
Lemma hand_attributes_witness :
  exists H,
    Hand_init insertion_order (Str "KhKd") = OK H
    /\ exists c1 c2,
         hand H = [c1; c2]
         /\ (pair H = true <-> value_of c1 = value_of c2)
         /\ (suited H = true <-> suit_of c1 = suit_of c2)
         /\ (pair H = true -> connected H = false)
         /\ (wf_arg (Str "KhKd") ->
             c1 <> c2 /\ (pair H = true -> suited H = false)).
Proof.
  eexists. split.
  - vm_compute. reflexivity.
  - apply (@hand_attributes insertion_order insertion_order_perm (Str "KhKd")).
    vm_compute. reflexivity.
Defined.

(** X7: one kicker added to a dead card that is not of the indexed
    set. *)
Lemma fill_hand_size_witness :
  Z.of_nat (length (_fill_hand insertion_order
                      (_gen_values insertion_order ["Kh"]) ["2c"] 1))
  = 2%Z
  /\ Z.of_nat (length (_fill_hand insertion_order
                         (_gen_values insertion_order
                                      ["Kh"; "Td"; "9c"; "2s"])
                         ["Td"] 2))
     = Z.min (Z.of_nat (length ["Td"]) + 2)
             (Z.of_nat (length ["Kh"; "Td"; "9c"; "2s"])).
Proof.
  split.
  - assert (Hn : NoDup ["Kh"]) by distinct_cards.
    assert (Hd : forall c, In c ["Kh"] -> In c (_gen_deck insertion_order))
      by deck_cards.
    assert (Hdd : NoDup ["2c"]) by distinct_cards.
    pose proof (@fill_hand_size insertion_order insertion_order_perm
                  ["Kh"] Hn Hd ["2c"] 1%Z Hdd) as H.
    cbv zeta in H. destruct H as (_ & _ & _ & H & _); [lia |].
    rewrite H. reflexivity.
  - assert (Hn : NoDup ["Kh"; "Td"; "9c"; "2s"]) by distinct_cards.
    assert (Hd : forall c, In c ["Kh"; "Td"; "9c"; "2s"] ->
                           In c (_gen_deck insertion_order)) by deck_cards.
    assert (Hdd : NoDup ["Td"]) by distinct_cards.
    assert (Hi : incl ["Td"] ["Kh"; "Td"; "9c"; "2s"]).
    { intros c [<- | []]. right. now left. }
    pose proof (@fill_hand_size insertion_order insertion_order_perm
                  ["Kh"; "Td"; "9c"; "2s"] Hn Hd ["Td"] 2%Z Hdd) as H.
    cbv zeta in H. destruct H as (_ & _ & _ & _ & H); [lia |].
    exact (proj2 (H Hi)).
Defined.

(** X8: the ten is taken before the nine. *)
Lemma fill_hand_takes_highest_witness :
  rank (value_of "Td") <= rank (value_of "9c").
Proof.
  assert (Hd : forall c, In c ["Kh"; "Td"; "9c"; "2s"] ->
                         In c (_gen_deck insertion_order)) by deck_cards.
  assert (E : _fill_hand insertion_order
                (_gen_values insertion_order ["Kh"; "Td"; "9c"; "2s"]) [] 2
              = ["Kh"; "Td"]) by (vm_compute; reflexivity).
  apply (@fill_hand_takes_highest insertion_order insertion_order_perm
           ["Kh"; "Td"; "9c"; "2s"] Hd [] 2%Z "Td" "9c").
  - constructor.
  - lia.
  - rewrite E. right. now left.
  - intros [].
  - right. right. now left.
  - rewrite E. intros [H | [H | []]]; discriminate H.
Defined.

(** X9: with no bound every card is added. *)
Lemma fill_hand_without_bound_witness :
  In "Kh" (_fill_hand insertion_order
                      (_gen_values insertion_order ["Kh"; "Td"]) [] 0)
  /\ In "Td" (_fill_hand insertion_order
                         (_gen_values insertion_order ["Kh"; "Td"]) [] 0).
Proof.
  assert (Hd : forall c, In c ["Kh"; "Td"] ->
                         In c (_gen_deck insertion_order)) by deck_cards.
  destruct (@fill_hand_without_bound insertion_order insertion_order_perm
              ["Kh"; "Td"] Hd [] 0%Z) as [_ H]; [lia |].
  split; apply H; [now left | right; now left].
Defined.

(** X10 on four aces and a king. *)
Lemma four_of_a_kind_hand_witness :
  exists hb,
    fst (HBoard_init insertion_order (Str "AhAd") (Str "AsAcKh")
                     (Str EmptyString) (Str EmptyString) []) = OK hb
    /\ exists bh v,
         best_hand hb = Made bh
         /\ length (cards_of_value v bh) = 4
         /\ forall x c, In x bh -> value_of x <> v ->
                        In c (v_cards (view hb)) -> ~ In c bh ->
                        rank (value_of x) <= rank (value_of c).
Proof.
  eexists. split.
  - vm_compute. reflexivity.
  - match goal with |- context [best_hand ?hb] =>
      destruct (@four_of_a_kind_hand insertion_order insertion_order_perm
                  (Str "AhAd") (Str "AsAcKh") (Str EmptyString)
                  (Str EmptyString) [] hb) as [H _]
    end.
    + exact I.
    + vm_compute. reflexivity.
    + apply H. vm_compute. reflexivity.
Defined.

(** X11 on three aces. *)
Lemma three_of_a_kind_hand_witness :
  exists hb,
    fst (HBoard_init insertion_order (Str "AhAd") (Str "As7c2h")
                     (Str EmptyString) (Str EmptyString) []) = OK hb
    /\ exists bh v,
         best_hand hb = Made bh
         /\ length (cards_of_value v bh) = 3
         /\ (forall w, w <> v ->
                       length (cards_of_value w (v_cards (view hb))) <= 1)
         /\ forall x c, In x bh -> value_of x <> v ->
                        In c (v_cards (view hb)) -> ~ In c bh ->
                        rank (value_of x) <= rank (value_of c).
Proof.
  eexists. split.
  - vm_compute. reflexivity.
  - apply (@three_of_a_kind_hand insertion_order insertion_order_perm
             (Str "AhAd") (Str "As7c2h") (Str EmptyString) (Str EmptyString)
             []).
    + exact I.
    + vm_compute. reflexivity.
    + vm_compute. reflexivity.
Defined.

(** X12 on a pair of aces. *)
Lemma pair_hand_witness :
  exists hb,
    fst (HBoard_init insertion_order (Str "AhAd") (Str "Ks7c2h")
                     (Str EmptyString) (Str EmptyString) []) = OK hb
    /\ exists bh v,
         best_hand hb = Made bh
         /\ length (cards_of_value v bh) = 2
         /\ (forall w, w <> v ->
                       length (cards_of_value w (v_cards (view hb))) <= 1)
         /\ forall x c, In x bh -> value_of x <> v ->
                        In c (v_cards (view hb)) -> ~ In c bh ->
                        rank (value_of x) <= rank (value_of c).
Proof.
  eexists. split.
  - vm_compute. reflexivity.
  - apply (@pair_hand insertion_order insertion_order_perm
             (Str "AhAd") (Str "Ks7c2h") (Str EmptyString) (Str EmptyString)
             []).
    + exact I.
    + vm_compute. reflexivity.
    + vm_compute. reflexivity.
Defined.

(** X13 on ace high with six cards. *)
Lemma high_card_hand_witness :
  exists hb,
    fst (HBoard_init insertion_order (Str "AhKd") (Str "9s7c2h")
                     (Str "4d") (Str EmptyString) []) = OK hb
    /\ (forall c c', In c (v_cards (view hb)) -> In c' (v_cards (view hb)) ->
                     value_of c = value_of c' -> c = c')
    /\ exists bh,
         best_hand hb = Made bh
         /\ forall x c, In x bh -> In c (v_cards (view hb)) -> ~ In c bh ->
                        rank (value_of x) < rank (value_of c).
Proof.
  eexists. split.
  - vm_compute. reflexivity.
  - apply (@high_card_hand insertion_order insertion_order_perm
             (Str "AhKd") (Str "9s7c2h") (Str "4d") (Str EmptyString) []).
    + exact I.
    + vm_compute. reflexivity.
    + vm_compute. reflexivity.
Defined.

(** X14 on aces and kings. *)
Lemma two_pair_hand_witness :
  exists hb,
    fst (HBoard_init insertion_order (Str "AhAd") (Str "KsKc2h")
                     (Str EmptyString) (Str EmptyString) []) = OK hb
    /\ exists bh v1 v2,
         best_hand hb = Made bh
         /\ rank v1 < rank v2
         /\ length (cards_of_value v1 bh) = 2
         /\ length (cards_of_value v2 bh) = 2
         /\ (forall w, length (cards_of_value w (v_cards (view hb))) = 2 ->
                       rank v1 <= rank w /\ (w <> v1 -> rank v2 <= rank w))
         /\ forall x c, In x bh -> value_of x <> v1 -> value_of x <> v2 ->
                        In c (v_cards (view hb)) -> ~ In c bh ->
                        rank (value_of x) <= rank (value_of c).
Proof.
  eexists. split.
  - vm_compute. reflexivity.
  - apply (@two_pair_hand insertion_order insertion_order_perm
             (Str "AhAd") (Str "KsKc2h") (Str EmptyString) (Str EmptyString)
             []).
    + exact I.
    + vm_compute. reflexivity.
    + vm_compute. reflexivity.
Defined.

(** X15 on aces full of kings. *)
Lemma full_house_hand_witness :
  exists hb,
    fst (HBoard_init insertion_order (Str "AhAd") (Str "AsKcKh")
                     (Str EmptyString) (Str EmptyString) []) = OK hb
    /\ exists bh v1 v2,
         best_hand hb = Made bh
         /\ length bh = 5
         /\ v2 <> v1
         /\ length (cards_of_value v1 bh) = 3
         /\ length (cards_of_value v2 bh) = 2
         /\ (forall w, length (cards_of_value w (v_cards (view hb))) = 3 ->
                       rank v1 <= rank w)
         /\ forall w, w <> v1 ->
                      2 <= length (cards_of_value w (v_cards (view hb))) ->
                      rank v2 <= rank w.
Proof.
  eexists. split.
  - vm_compute. reflexivity.
  - match goal with |- context [best_hand ?hb] =>
      destruct (@full_house_hand insertion_order insertion_order_perm
                  (Str "AhAd") (Str "AsKcKh") (Str EmptyString)
                  (Str EmptyString) [] hb) as [H _]
    end.
    + exact I.
    + vm_compute. reflexivity.
    + apply H. vm_compute. reflexivity.
Defined.

(** X16 on five hearts. *)
Lemma flush_hand_witness :
  exists hb,
    fst (HBoard_init insertion_order (Str "AhKh") (Str "9h7h2h")
                     (Str EmptyString) (Str EmptyString) []) = OK hb
    /\ exists bh s,
         best_hand hb = Made bh
         /\ length bh = 5
         /\ (forall x, In x bh -> suit_of x = s)
         /\ forall x c, In x bh -> In c (v_cards (view hb)) -> suit_of c = s ->
                        ~ In c bh -> rank (value_of x) < rank (value_of c).
Proof.
  eexists. split.
  - vm_compute. reflexivity.
  - match goal with |- context [best_hand ?hb] =>
      destruct (@flush_hand insertion_order insertion_order_perm
                  (Str "AhKh") (Str "9h7h2h") (Str EmptyString)
                  (Str EmptyString) [] hb) as [H _]
    end.
    + exact I.
    + vm_compute. reflexivity.
    + apply H. vm_compute. reflexivity.
Defined.

(** X17 on the aggregate of the class's docstring. *)
Lemma aggregate_fields_witness :
  exists hb,
    fst (HBoard_init insertion_order (Str "KhTd") (Str "5h7d9c") (Str "Js")
                     (Str "Qh") []) = OK hb
    /\ v_pstraight (view hb) = _pstraight insertion_order (v_board (view hb))
    /\ v_pflush (view hb) = _pflush insertion_order (v_board (view hb)).
Proof.
  eexists. split.
  - vm_compute. reflexivity.
  - match goal with |- context [v_pstraight (view ?hb)] =>
      pose proof (@aggregate_fields insertion_order insertion_order_perm
                    (Str "KhTd") (Str "5h7d9c") (Str "Js") (Str "Qh") [] hb I)
        as H
    end.
    cbv zeta in H.
    destruct H as (h & f & _ & _ & _ & _ & _ & _ & Hps & Hpf & _);
      [vm_compute; reflexivity |].
    split; [exact Hps | exact Hpf].
Defined.

(** X18: a river that names no card, passed without a turn. *)
Lemma river_without_turn_is_ignored_witness :
  match fst (HBoard_init insertion_order (Str "KhTd") (Str "5h7d9c")
                         (Str EmptyString) (Str "Qh") []),
        fst (HBoard_init insertion_order (Str "KhTd") (Str "5h7d9c")
                         (Str EmptyString) (Str "zz") []) with
  | OK hb, OK hb' =>
      best_hand hb = best_hand hb'
      /\ best_hand_type hb = best_hand_type hb'
      /\ v_cards (view hb) = v_cards (view hb')
      /\ v_board (view hb) = v_board (view hb')
      /\ v_river (view hb) = Str "Qh" /\ v_river (view hb') = Str "zz"
  | Err e, Err e' => e = e'
  | _, _ => False
  end.
Proof.
  apply (@river_without_turn_is_ignored insertion_order (Str "KhTd")
           (Str "5h7d9c") (Str EmptyString) (Str "Qh") (Str "zz") []).
  reflexivity.
Defined.

(** X19 on a royal flush in hearts. *)
Lemma straight_flush_hand_witness :
  exists hb,
    fst (HBoard_init insertion_order (Str "AhKh") (Str "QhJhTh")
                     (Str EmptyString) (Str EmptyString) []) = OK hb
    /\ exists bh s w,
         best_hand hb = Made bh
         /\ In w window_values
         /\ bh = map (fun v => (v ++ s)%string) w
         /\ In s four_suits
         /\ forall w', In w' window_values ->
                       incl (map (fun v => (v ++ s)%string) w')
                            (v_cards (view hb)) ->
                       rank (hd EmptyString w) <= rank (hd EmptyString w').
Proof.
  eexists. split.
  - vm_compute. reflexivity.
  - apply (@straight_flush_hand insertion_order insertion_order_perm
             (Str "AhKh") (Str "QhJhTh") (Str EmptyString) (Str EmptyString)
             []).
    + exact I.
    + vm_compute. reflexivity.
    + vm_compute. reflexivity.
Defined.

(** X20 on the aggregate of the class's docstring. *)
Lemma straight_hand_witness :
  exists hb,
    fst (HBoard_init insertion_order (Str "KhTd") (Str "5h7d9c") (Str "Js")
                     (Str "Qh") []) = OK hb
    /\ exists bh w,
         best_hand hb = Made bh
         /\ In w window_values
         /\ map value_of bh = w
         /\ length bh = 5
         /\ forall w', In w' window_values ->
                       (forall v, In v w' ->
                                  exists c, In c (v_cards (view hb))
                                            /\ value_of c = v) ->
                       rank (hd EmptyString w) <= rank (hd EmptyString w').
Proof.
  eexists. split.
  - vm_compute. reflexivity.
  - match goal with |- context [best_hand ?hb] =>
      pose proof (@straight_hand insertion_order insertion_order_perm
                    (Str "KhTd") (Str "5h7d9c") (Str "Js") (Str "Qh") [] hb I)
        as H
    end.
    cbv zeta in H. destruct H as [H _]; [vm_compute; reflexivity |].
    apply H. vm_compute. reflexivity.
Defined.

(** X21 on a board with three hearts. *)
Lemma pflush_three_of_a_suit_witness :
  exists s,
    In s four_suits
    /\ "Hearts" = suit_name suit_names s
    /\ lower (substring 0 1 "Hearts") = s
    /\ 3 <= length (cards_of_suit s ["Kh"; "9h"; "2h"; "Td"]).
Proof.
  destruct (@pflush_three_of_a_suit insertion_order insertion_order_perm
              ["Kh"; "9h"; "2h"; "Td"]) as [H _].
  - distinct_cards.
  - deck_cards.
  - apply (H "Hearts"). vm_compute. reflexivity.
Defined.

(** X22 on king and ten. *)
Lemma cards_str_round_trip_witness :
  exists C,
    Cards_init insertion_order (Str "KhTd") = OK C
    /\ String.length (Cards_str insertion_order C) = 2 * length (cards C)
    /\ exists C',
         Cards_init insertion_order (Str (Cards_str insertion_order C)) = OK C'
         /\ cards C' = insertion_order (cards C)
         /\ Permutation (cards C') (cards C).
Proof.
  eexists. split.
  - vm_compute. reflexivity.
  - apply (@cards_str_round_trip insertion_order insertion_order_perm
             (Str "KhTd")).
    + exact I.
    + vm_compute. reflexivity.
Defined.

(** X24 on king and ten. *)
Lemma hand_str_four_lines_witness :
  exists H,
    Hand_init insertion_order (Str "KhTd") = OK H
    /\ count_newlines (Hand_str insertion_order H) = 3.
Proof.
  eexists. split.
  - vm_compute. reflexivity.
  - apply (@hand_str_four_lines insertion_order insertion_order_perm
             (Str "KhTd")).
    vm_compute. reflexivity.
Defined.

(** X25 on the aggregate of the class's docstring. *)
Lemma hboard_str_never_fails_witness :
  exists hb,
    fst (HBoard_init insertion_order (Str "KhTd") (Str "5h7d9c") (Str "Js")
                     (Str "Qh") []) = OK hb
    /\ exists text, HBoard_str insertion_order hb = Some text.
Proof.
  eexists. split.
  - vm_compute. reflexivity.
  - apply (@hboard_str_never_fails insertion_order insertion_order_perm
             (Str "KhTd") (Str "5h7d9c") (Str "Js") (Str "Qh") []).
    + exact I.
    + vm_compute. reflexivity.
Defined.

(** X26 on a hand of three cards. *)
Lemma aggregate_accepted_witness :
  fst (HBoard_init insertion_order (Str "KhTd9c") (Str "5h7d")
                   (Str EmptyString) (Str EmptyString) [])
  = Err InvalidHand.
Proof.
  destruct (@aggregate_accepted insertion_order insertion_order_perm
              (Str "KhTd9c") (Str "5h7d") (Str EmptyString) (Str EmptyString)
              []) as [_ H].
  apply (proj2 H). split; [| split].
  - exists ["Kh"; "Td"; "9c"]. split; [vm_compute; reflexivity | deck_cards].
  - exists ["5h"; "7d"]. split; [vm_compute; reflexivity | deck_cards].
  - exists ["Kh"; "Td"; "9c"]. split; [vm_compute; reflexivity | discriminate].
Defined.

(** X27 on a royal flush in hearts. *)
Lemma straight_flush_never_missed_witness :
  exists hb,
    fst (HBoard_init insertion_order (Str "AhKh") (Str "QhJhTh")
                     (Str EmptyString) (Str EmptyString) []) = OK hb
    /\ best_hand_type hb = "Straight Flush".
Proof.
  eexists. split.
  - vm_compute. reflexivity.
  - apply (@straight_flush_never_missed insertion_order insertion_order_perm
             (Str "AhKh") (Str "QhJhTh") (Str EmptyString) (Str EmptyString)
             []).
    + exact I.
    + vm_compute. reflexivity.
    + apply Nat.leb_le. vm_compute. reflexivity.
    + exists "h", ["A"; "K"; "Q"; "J"; "T"].
      split; [right; now left |]. split; [now left |].
      apply (proj1 (issubset_incl _ _)). vm_compute. reflexivity.
Defined.
